(** * BubbleBreak: the simulation core

    A shallow embedding of the bubble simulation of BubbleBreak: the physics
    engine (force model and wind field), the [Bubble] class and its pooled
    [BubbleManager], the [ParticleSystem] that draws pop effects, the
    [AudioManager] that plays pop sounds, and the spawning and slider
    methods of [BubbleGame].

    Conventions of the embedding.
    - A JavaScript number is a rational ([Q]); floating-point rounding is
      not modelled.  Counters that the source keeps integral are [Z] or
      lengths of lists.
    - [Math.sin], [Math.cos], [Math.sqrt], [Math.pow] and [Math.PI] are the
      fields of a record [Math.lib] that every function takes as an
      argument; nothing is assumed about them unless a statement says so.
    - [Math.random()] reads the next sample of an explicit source ([Rng]),
      threaded through the code in call order.
    - [Date.now()] and the window size are arguments of the functions that
      read them.
    - A JavaScript object has an identity; pooled objects carry it as an
      address ([addr]) given out by the allocation counter of the model.
    - Mutation is explicit state passing: a method returns the new state of
      every object it writes. *)

From Stdlib Require Import QArith Qminmax Qround Qabs ZArith List Bool String Lia Lqa Permutation Sorted.
Import ListNotations.
Open Scope Q_scope.

(** ** JavaScript comparisons on numbers *)

Definition ltb (a b : Q) : bool := if Qlt_le_dec a b then true else false.
Definition leb (a b : Q) : bool := if Qlt_le_dec b a then false else true.
Definition gtb (a b : Q) : bool := ltb b a.
Definition geb (a b : Q) : bool := leb b a.

Infix "<?" := ltb (at level 70) : Q_scope.
Infix "<=?" := leb (at level 70) : Q_scope.
Infix ">?" := gtb (at level 70) : Q_scope.
Infix ">=?" := geb (at level 70) : Q_scope.

(** [Math.floor] and [Math.round] (round half up). *)
Definition Math_floor (q : Q) : Z := Qfloor q.
Definition Math_round (q : Q) : Z := Qfloor (q + 0.5).
Definition Math_max (a b : Q) : Q := if a <? b then b else a.
Definition Math_min (a b : Q) : Q := if b <? a then b else a.

(** ** The Math object *)

Module Math.
Record lib := mk {
  sin : Q -> Q;
  cos : Q -> Q;
  sqrt : Q -> Q;
  pow : Q -> Q -> Q;
  PI : Q
}.
End Math.

(** ** Math.random *)

Record Rng := mkRng { samples : nat -> Q; cursor : nat }.

Definition Rand (A : Type) : Type := Rng -> A * Rng.

Definition ret {A} (a : A) : Rand A := fun r => (a, r).
Definition bind {A B} (m : Rand A) (k : A -> Rand B) : Rand B :=
  fun r => let (a, r') := m r in k a r'.
Definition Math_random : Rand Q :=
  fun r => (samples r (cursor r), mkRng (samples r) (S (cursor r))).

Declare Scope rand_scope.
Delimit Scope rand_scope with rand.
Notation "x <- m ;; k" := (bind m (fun x => k))
  (at level 61, m at next level, right associativity) : rand_scope.
Notation "' p <- m ;; k" := (bind m (fun p => k))
  (at level 61, p pattern, m at next level, right associativity) : rand_scope.

(** [for (let i = 0; i < n; i++) body(i)] over a state [S]. *)
Fixpoint forUpTo {St} (n : nat) (i : nat) (body : nat -> St -> Rand St) (s : St) : Rand St :=
  match n with
  | O => ret s
  | S n' => (s' <- body i s ;; forUpTo n' (S i) body s')%rand
  end.

(** A list of [n] values built by pushing the results of [gen]. *)
Fixpoint pushMany {A} (n : nat) (gen : Rand A) : Rand (list A) :=
  match n with
  | O => ret []
  | S n' => (a <- gen ;; l <- pushMany n' gen ;; ret (a :: l))%rand
  end.

(** ** Themes (the entries of [BubbleGame.themes]) *)

Module Theme.
Record colors := mkColors { hueBase : Q; saturation : Q; lightness : Q; opacity : Q }.
Record t := mk {
  name : string;
  colors_ : colors;
  highlight : string;
  outline : bool;
  shimmer : bool;   (* an absent flag reads as falsy *)
  sparkle : bool;
  stars : bool
}.
Definition classic : t :=
  mk "Classic Soap" (mkColors 200 70 80 0.3) "rgba(255, 255, 255, 0.6)" true false false false.
Definition oil : t :=
  mk "Oil Slick" (mkColors 280 90 60 0.4) "rgba(255, 215, 0, 0.4)" true true false false.
Definition crystal : t :=
  mk "Crystal" (mkColors 180 30 95 0.2) "rgba(255, 255, 255, 0.9)" true false true false.
Definition galaxy : t :=
  mk "Galaxy" (mkColors 260 80 40 0.5) "rgba(255, 255, 255, 0.3)" false false false true.
End Theme.

(** ** Bubble objects *)

Inductive SpawnDirection := bottom | left | right.

Module Star.
Record t := mk { x : Q; y : Q; size : Q; twinkle : Q }.
End Star.

Module BubbleObj.
Record t := mk {
  addr : nat;            (* identity of the object *)
  x : Q;
  y : Q;
  size : Q;
  radius : Q;
  lifetime : Q;
  age : Q;
  isAlive : bool;
  vx : Q;
  vy : Q;
  wobbleOffset : Q;
  wobbleSpeed : Q;
  spawnMomentumX : Q;
  spawnMomentumY : Q;
  spawnDirection : SpawnDirection;
  opacity : Q;
  theme : option Theme.t;
  hue : Q;
  hueSpeed : Q;
  sparkleOffset : Q;
  shimmerPhase : Q;
  starPositions : list Star.t
}.

Definition set_x v b := mk (addr b) v (y b) (size b) (radius b) (lifetime b) (age b) (isAlive b) (vx b) (vy b) (wobbleOffset b) (wobbleSpeed b) (spawnMomentumX b) (spawnMomentumY b) (spawnDirection b) (opacity b) (theme b) (hue b) (hueSpeed b) (sparkleOffset b) (shimmerPhase b) (starPositions b).
Definition set_y v b := mk (addr b) (x b) v (size b) (radius b) (lifetime b) (age b) (isAlive b) (vx b) (vy b) (wobbleOffset b) (wobbleSpeed b) (spawnMomentumX b) (spawnMomentumY b) (spawnDirection b) (opacity b) (theme b) (hue b) (hueSpeed b) (sparkleOffset b) (shimmerPhase b) (starPositions b).
Definition set_age v b := mk (addr b) (x b) (y b) (size b) (radius b) (lifetime b) v (isAlive b) (vx b) (vy b) (wobbleOffset b) (wobbleSpeed b) (spawnMomentumX b) (spawnMomentumY b) (spawnDirection b) (opacity b) (theme b) (hue b) (hueSpeed b) (sparkleOffset b) (shimmerPhase b) (starPositions b).
Definition set_isAlive v b := mk (addr b) (x b) (y b) (size b) (radius b) (lifetime b) (age b) v (vx b) (vy b) (wobbleOffset b) (wobbleSpeed b) (spawnMomentumX b) (spawnMomentumY b) (spawnDirection b) (opacity b) (theme b) (hue b) (hueSpeed b) (sparkleOffset b) (shimmerPhase b) (starPositions b).
Definition set_vx v b := mk (addr b) (x b) (y b) (size b) (radius b) (lifetime b) (age b) (isAlive b) v (vy b) (wobbleOffset b) (wobbleSpeed b) (spawnMomentumX b) (spawnMomentumY b) (spawnDirection b) (opacity b) (theme b) (hue b) (hueSpeed b) (sparkleOffset b) (shimmerPhase b) (starPositions b).
Definition set_vy v b := mk (addr b) (x b) (y b) (size b) (radius b) (lifetime b) (age b) (isAlive b) (vx b) v (wobbleOffset b) (wobbleSpeed b) (spawnMomentumX b) (spawnMomentumY b) (spawnDirection b) (opacity b) (theme b) (hue b) (hueSpeed b) (sparkleOffset b) (shimmerPhase b) (starPositions b).
Definition set_opacity v b := mk (addr b) (x b) (y b) (size b) (radius b) (lifetime b) (age b) (isAlive b) (vx b) (vy b) (wobbleOffset b) (wobbleSpeed b) (spawnMomentumX b) (spawnMomentumY b) (spawnDirection b) v (theme b) (hue b) (hueSpeed b) (sparkleOffset b) (shimmerPhase b) (starPositions b).
Definition set_hue v b := mk (addr b) (x b) (y b) (size b) (radius b) (lifetime b) (age b) (isAlive b) (vx b) (vy b) (wobbleOffset b) (wobbleSpeed b) (spawnMomentumX b) (spawnMomentumY b) (spawnDirection b) (opacity b) (theme b) v (hueSpeed b) (sparkleOffset b) (shimmerPhase b) (starPositions b).
Definition set_sparkleOffset v b := mk (addr b) (x b) (y b) (size b) (radius b) (lifetime b) (age b) (isAlive b) (vx b) (vy b) (wobbleOffset b) (wobbleSpeed b) (spawnMomentumX b) (spawnMomentumY b) (spawnDirection b) (opacity b) (theme b) (hue b) (hueSpeed b) v (shimmerPhase b) (starPositions b).
Definition set_shimmerPhase v b := mk (addr b) (x b) (y b) (size b) (radius b) (lifetime b) (age b) (isAlive b) (vx b) (vy b) (wobbleOffset b) (wobbleSpeed b) (spawnMomentumX b) (spawnMomentumY b) (spawnDirection b) (opacity b) (theme b) (hue b) (hueSpeed b) (sparkleOffset b) v (starPositions b).
Definition set_starPositions v b := mk (addr b) (x b) (y b) (size b) (radius b) (lifetime b) (age b) (isAlive b) (vx b) (vy b) (wobbleOffset b) (wobbleSpeed b) (spawnMomentumX b) (spawnMomentumY b) (spawnDirection b) (opacity b) (theme b) (hue b) (hueSpeed b) (sparkleOffset b) (shimmerPhase b) v.
End BubbleObj.

(** ** The physics engine (class PhysicsEngine) *)

Module Vec.
Record t := mk { x : Q; y : Q }.
End Vec.

Module Zone.
Record t := mk {
  x : Q; y : Q; radius : Q; strength : Q; direction : Q; pulseSpeed : Q; phase : Q
}.
End Zone.

Module EngineObj.
Record t := mk {
  width : Q;
  height : Q;
  gravity : Q;
  airResistance : Q;
  wobbleStrength : Q;
  breezeStrength : Q;
  windForce : Vec.t;
  lastWindUpdate : Q;
  windUpdateInterval : Q;
  targetWind : Vec.t;
  breezeZones : list Zone.t;
  simplePhysics : bool
}.
Definition set_windForce v e := mk (width e) (height e) (gravity e) (airResistance e) (wobbleStrength e) (breezeStrength e) v (lastWindUpdate e) (windUpdateInterval e) (targetWind e) (breezeZones e) (simplePhysics e).
Definition set_lastWindUpdate v e := mk (width e) (height e) (gravity e) (airResistance e) (wobbleStrength e) (breezeStrength e) (windForce e) v (windUpdateInterval e) (targetWind e) (breezeZones e) (simplePhysics e).
Definition set_windUpdateInterval v e := mk (width e) (height e) (gravity e) (airResistance e) (wobbleStrength e) (breezeStrength e) (windForce e) (lastWindUpdate e) v (targetWind e) (breezeZones e) (simplePhysics e).
Definition set_targetWind v e := mk (width e) (height e) (gravity e) (airResistance e) (wobbleStrength e) (breezeStrength e) (windForce e) (lastWindUpdate e) (windUpdateInterval e) v (breezeZones e) (simplePhysics e).
Definition set_breezeZones v e := mk (width e) (height e) (gravity e) (airResistance e) (wobbleStrength e) (breezeStrength e) (windForce e) (lastWindUpdate e) (windUpdateInterval e) (targetWind e) v (simplePhysics e).
Definition set_simplePhysics v e := mk (width e) (height e) (gravity e) (airResistance e) (wobbleStrength e) (breezeStrength e) (windForce e) (lastWindUpdate e) (windUpdateInterval e) (targetWind e) (breezeZones e) v.
Definition set_bounds w h e := mk w h (gravity e) (airResistance e) (wobbleStrength e) (breezeStrength e) (windForce e) (lastWindUpdate e) (windUpdateInterval e) (targetWind e) (breezeZones e) (simplePhysics e).
End EngineObj.

Module PhysicsEngine.
Import EngineObj.
Local Open Scope rand_scope.

Section WithMath.
Variable M : Math.lib.

(** [generateBreezeZones()]: 4 to 6 zones, seven samples each. *)
Definition newZone (width height : Q) : Rand Zone.t :=
  rx <- Math_random ;;
  ry <- Math_random ;;
  rr <- Math_random ;;
  rs <- Math_random ;;
  rd <- Math_random ;;
  rp <- Math_random ;;
  rph <- Math_random ;;
  ret (Zone.mk (rx * width) (ry * height) (150 + rr * 250) (0.05 + rs * 0.15)
               (rd * Math.PI M * 2) (0.0005 + rp * 0.001) (rph * Math.PI M * 2)).

Definition generateBreezeZones (width height : Q) : Rand (list Zone.t) :=
  r <- Math_random ;;
  let zoneCount := (4 + Math_floor (r * 3))%Z in
  pushMany (Z.to_nat zoneCount) (newZone width height).

(** [constructor(width, height)] *)
Definition constructor (width height : Q) : Rand t :=
  zones <- generateBreezeZones width height ;;
  ret (mk width height (-0.05) 0.995 0.1 0.2 (Vec.mk 0 0) 0 3000 (Vec.mk 0 0) zones false).

(** [generateNewWindPattern()] *)
Definition generateNewWindPattern (e : t) : Rand t :=
  r1 <- Math_random ;;
  let windStrength := 0.1 + r1 * 0.2 in
  r2 <- Math_random ;;
  let windDirection := r2 * Math.PI M * 2 in
  let tx := Math.cos M windDirection * windStrength in
  let ty := Math.sin M windDirection * windStrength * 0.3 in
  r3 <- Math_random ;;
  if r3 <? 0.1
  then ret (set_targetWind (Vec.mk (tx * 1.5) (ty * 1.2)) e)
  else ret (set_targetWind (Vec.mk tx ty) e).

(** [updateEnvironmentalForces(deltaTime)] *)
Definition updateEnvironmentalForces (e : t) (deltaTime : Q) : Rand t :=
  let e1 := set_lastWindUpdate (lastWindUpdate e + deltaTime) e in
  e2 <- (if lastWindUpdate e1 >=? windUpdateInterval e1
         then (e' <- generateNewWindPattern e1 ;; ret (set_lastWindUpdate 0 e'))
         else ret e1) ;;
  let lerpSpeed := 0.02 in
  let wx := Vec.x (windForce e2) + (Vec.x (targetWind e2) - Vec.x (windForce e2)) * lerpSpeed in
  let wy := Vec.y (windForce e2) + (Vec.y (targetWind e2) - Vec.y (windForce e2)) * lerpSpeed in
  ret (set_windForce (Vec.mk wx wy) e2).

(** [isInSpawnGracePeriod(bubble)] *)
Definition isInSpawnGracePeriod (e : t) (bubble : BubbleObj.t) : bool :=
  let maxGraceTime := 2000 in
  let margin := 50 in
  if BubbleObj.age bubble >? maxGraceTime then false
  else
    let isOnScreen :=
      (BubbleObj.x bubble >? - margin) &&
      (BubbleObj.x bubble <? width e + margin) &&
      (BubbleObj.y bubble >? - margin) &&
      (BubbleObj.y bubble <? height e + margin) in
    negb isOnScreen.

(** [applyBuoyancy(bubble, dt, graceFactor)] *)
Definition applyBuoyancy (e : t) (bubble : BubbleObj.t) (dt graceFactor : Q) : BubbleObj.t :=
  let buoyancyForce := gravity e * (1 + BubbleObj.size bubble / 100) * graceFactor in
  BubbleObj.set_vy (BubbleObj.vy bubble + buoyancyForce * dt) bubble.

(** [applyWobble(bubble, dt, graceFactor)] *)
Definition applyWobble (e : t) (bubble : BubbleObj.t) (dt graceFactor : Q) : BubbleObj.t :=
  if simplePhysics e then bubble
  else
    let wobbleX :=
      Math.sin M (BubbleObj.age bubble * BubbleObj.wobbleSpeed bubble + BubbleObj.wobbleOffset bubble)
      * wobbleStrength e * graceFactor in
    let wobbleY :=
      Math.cos M (BubbleObj.age bubble * BubbleObj.wobbleSpeed bubble * 0.7 + BubbleObj.wobbleOffset bubble)
      * wobbleStrength e * 0.5 * graceFactor in
    let b1 := BubbleObj.set_vx (BubbleObj.vx bubble + wobbleX * 0.003 * dt) bubble in
    let b2 := BubbleObj.set_vy (BubbleObj.vy b1 + wobbleY * 0.003 * dt) b1 in
    let sizeModifier := 0.5 + BubbleObj.size b2 / 300 in
    BubbleObj.set_vx (BubbleObj.vx b2 + wobbleX * 0.002 * sizeModifier * dt) b2.

(** One iteration of the loop of [getLocalBreeze]; the accumulator is
    [(totalForce, totalWeight)]. *)
Definition breezeStep (now x y : Q) (acc : Vec.t * Q) (zone : Zone.t) : Vec.t * Q :=
  let (totalForce, totalWeight) := acc in
  let dx := x - Zone.x zone in
  let dy := y - Zone.y zone in
  let distance := Math.sqrt M (dx * dx + dy * dy) in
  if distance <? Zone.radius zone then
    let influence := 1 - distance / Zone.radius zone in
    let weight := influence * influence in
    let pulse := 1 + Math.sin M (now * Zone.pulseSpeed zone + Zone.phase zone) * 0.3 in
    let strength := Zone.strength zone * pulse * weight in
    let forceX := Math.cos M (Zone.direction zone) * strength in
    let forceY := Math.sin M (Zone.direction zone) * strength in
    (Vec.mk (Vec.x totalForce + forceX * weight) (Vec.y totalForce + forceY * weight),
     totalWeight + weight)
  else acc.

(** [getLocalBreeze(x, y)]; [now] is the value of [Date.now()]. *)
Definition getLocalBreeze (e : t) (now x y : Q) : Vec.t :=
  let (totalForce, totalWeight) :=
    fold_left (breezeStep now x y) (breezeZones e) (Vec.mk 0 0, 0) in
  if totalWeight >? 0
  then Vec.mk (Vec.x totalForce / totalWeight) (Vec.y totalForce / totalWeight)
  else totalForce.

(** [applyBreeze(bubble, dt, graceFactor)] *)
Definition applyBreeze (e : t) (now : Q) (bubble : BubbleObj.t) (dt graceFactor : Q) : BubbleObj.t :=
  let b1 := BubbleObj.set_vx (BubbleObj.vx bubble + Vec.x (windForce e) * 0.005 * dt * graceFactor) bubble in
  let b2 := BubbleObj.set_vy (BubbleObj.vy b1 + Vec.y (windForce e) * 0.003 * dt * graceFactor) b1 in
  let localBreeze := getLocalBreeze e now (BubbleObj.x b2) (BubbleObj.y b2) in
  let b3 := BubbleObj.set_vx (BubbleObj.vx b2 + Vec.x localBreeze * 0.004 * dt * graceFactor) b2 in
  let b4 := BubbleObj.set_vy (BubbleObj.vy b3 + Vec.y localBreeze * 0.003 * dt * graceFactor) b3 in
  let windResistance := 0.5 + BubbleObj.size b4 / 300 in
  BubbleObj.set_vx (BubbleObj.vx b4 + Vec.x (windForce e) * 0.003 * windResistance * dt * graceFactor) b4.

(** [applyAirResistance(bubble, dt)] *)
Definition applyAirResistance (e : t) (bubble : BubbleObj.t) (dt : Q) : BubbleObj.t :=
  let b1 := BubbleObj.set_vx (BubbleObj.vx bubble * Math.pow M (airResistance e) dt) bubble in
  let b2 := BubbleObj.set_vy (BubbleObj.vy b1 * Math.pow M (airResistance e) dt) b1 in
  let maxSpeed := 0.8 + BubbleObj.size b2 / 200 in
  let speed := Math.sqrt M (BubbleObj.vx b2 * BubbleObj.vx b2 + BubbleObj.vy b2 * BubbleObj.vy b2) in
  if speed >? maxSpeed then
    let scale := maxSpeed / speed in
    let b3 := BubbleObj.set_vx (BubbleObj.vx b2 * scale) b2 in
    BubbleObj.set_vy (BubbleObj.vy b3 * scale) b3
  else b2.

(** [applySizeEffects(bubble, dt)] *)
Definition applySizeEffects (bubble : BubbleObj.t) (dt : Q) : Rand BubbleObj.t :=
  let sizeRatio := BubbleObj.size bubble / 150 in
  let b1 := if sizeRatio >? 1
            then BubbleObj.set_vx (BubbleObj.vx bubble * Math.pow M 0.95 dt) bubble
            else bubble in
  if sizeRatio <? 0.8 then
    let extraWobble := (0.8 - sizeRatio) * 0.1 in
    r <- Math_random ;;
    ret (BubbleObj.set_vx (BubbleObj.vx b1 + (r - 0.5) * extraWobble * dt) b1)
  else ret b1.

(** [handleBoundaries(bubble)] *)
Definition handleBoundaries (e : t) (bubble : BubbleObj.t) : BubbleObj.t :=
  let margin := 50 in
  let b1 :=
    if BubbleObj.x bubble <? margin then
      BubbleObj.set_vx (BubbleObj.vx bubble + (margin - BubbleObj.x bubble) * 0.001) bubble
    else if BubbleObj.x bubble >? width e - margin then
      BubbleObj.set_vx (BubbleObj.vx bubble - (BubbleObj.x bubble - (width e - margin)) * 0.001) bubble
    else bubble in
  if BubbleObj.y b1 <? margin
  then BubbleObj.set_vy (BubbleObj.vy b1 + (margin - BubbleObj.y b1) * 0.001) b1
  else b1.

(** The factor computed by [updateBubble] from [isInSpawnGracePeriod]. *)
Definition graceFactorOf (e : t) (bubble : BubbleObj.t) : Q :=
  if isInSpawnGracePeriod e bubble then 0.1 else 1.0.

(** [updateBubble(bubble, deltaTime)].  The method has two parameters: a
    third argument at a call site is evaluated and dropped. *)
Definition updateBubble (e : t) (now : Q) (bubble : BubbleObj.t) (deltaTime : Q)
  : Rand (t * BubbleObj.t) :=
  let dt := Math_min (deltaTime / 16.67) 2 in
  e1 <- updateEnvironmentalForces e deltaTime ;;
  let graceFactor := graceFactorOf e1 bubble in
  let b1 := applyBuoyancy e1 bubble dt graceFactor in
  let b2 := applyWobble e1 b1 dt graceFactor in
  let b3 := applyBreeze e1 now b2 dt graceFactor in
  let b4 := applyAirResistance e1 b3 dt in
  let b5 := BubbleObj.set_x (BubbleObj.x b4 + BubbleObj.vx b4 * dt) b4 in
  let b6 := BubbleObj.set_y (BubbleObj.y b5 + BubbleObj.vy b5 * dt) b5 in
  let b7 := handleBoundaries e1 b6 in
  b8 <- applySizeEffects b7 dt ;;
  ret (e1, b8).

(** [updateBounds(width, height)] *)
Definition updateBounds (e : t) (width height : Q) : Rand t :=
  let e1 := set_bounds width height e in
  zones <- generateBreezeZones width height ;;
  ret (set_breezeZones zones e1).

(** [enableSimplePhysics(enabled)] *)
Definition enableSimplePhysics (e : t) (enabled : bool) : t :=
  let e1 := set_simplePhysics enabled e in
  if enabled
  then set_windUpdateInterval 5000 (set_breezeZones (firstn 2 (breezeZones e1)) e1)
  else e1.

End WithMath.
End PhysicsEngine.

(** ** JavaScript arrays *)

Definition push {A} (l : list A) (a : A) : list A := l ++ [a].

(** [l.pop()]: the last element and the array without it. *)
Definition pop {A} (l : list A) : option (A * list A) :=
  match rev l with
  | [] => None
  | a :: r => Some (a, rev r)
  end.

(** [l.splice(i, 1)]: the array without the element at index [i]. *)
Fixpoint splice1 {A} (i : nat) (l : list A) : list A :=
  match l, i with
  | [], _ => []
  | _ :: l', O => l'
  | a :: l', S i' => a :: splice1 i' l'
  end.

(** The array after a write through the reference [l[i]]. *)
Fixpoint store {A} (i : nat) (a : A) (l : list A) : list A :=
  match l, i with
  | [], _ => []
  | _ :: l', O => a :: l'
  | b :: l', S i' => b :: store i' a l'
  end.

(** ** class Bubble *)

Record Window := mkWindow { innerWidth : Q; innerHeight : Q }.

Module Bubble.
Import BubbleObj.
Local Open Scope rand_scope.

Section WithMath.
Variable M : Math.lib.

Definition newStar (radius : Q) : Rand Star.t :=
  rx <- Math_random ;;
  ry <- Math_random ;;
  rs <- Math_random ;;
  rt <- Math_random ;;
  ret (Star.mk ((rx - 0.5) * radius * 1.6) ((ry - 0.5) * radius * 1.6)
               (0.5 + rs * 1.5) (rt * Math.PI M * 2)).

(** [generateStarPositions()] *)
Definition generateStarPositions (radius : Q) : Rand (list Star.t) :=
  r <- Math_random ;;
  let starCount := (3 + Math_floor (r * 4))%Z in
  pushMany (Z.to_nat starCount) (newStar radius).

Definition hasStars (theme : option Theme.t) : bool :=
  match theme with Some th => Theme.stars th | None => false end.

Definition initialHue (theme : option Theme.t) (r : Q) : Q :=
  match theme with
  | Some th => Theme.hueBase (Theme.colors_ th) + (r - 0.5) * 60
  | None => r * 360
  end.

(** [new Bubble(x, y, size, lifetime, theme)]; [a] is the fresh address. *)
Definition constructor (a : nat) (x y size lifetime : Q) (theme : option Theme.t)
  : Rand t :=
  rwo <- Math_random ;;
  rws <- Math_random ;;
  rh <- Math_random ;;
  rhs <- Math_random ;;
  rsp <- Math_random ;;
  rsh <- Math_random ;;
  stars <- (if hasStars theme then generateStarPositions (size / 2) else ret []) ;;
  ret (mk a x y size (size / 2) lifetime 0 true 0 0
          (rwo * Math.PI M * 2) (0.02 + rws * 0.02) 0 0 bottom 1 theme
          (initialHue theme rh) (0.5 + rhs * 1)
          (rsp * Math.PI M * 2) (rsh * Math.PI M * 2) stars).

(** The theme animations of [update]. *)
Definition animateTheme (b : t) : t :=
  match theme b with
  | None => b
  | Some th =>
    let b1 := if Theme.shimmer th then set_shimmerPhase (shimmerPhase b + 0.05) b else b in
    let b2 := if Theme.sparkle th then set_sparkleOffset (sparkleOffset b1 + 0.08) b1 else b1 in
    if Theme.stars th
    then set_starPositions
           (map (fun s => Star.mk (Star.x s) (Star.y s) (Star.size s) (Star.twinkle s + 0.06))
                (starPositions b2)) b2
    else b2
  end.

(** The steps of [update], in the order of its body. *)

(** "Update position with physics": the engine when there is one, the
    fallback otherwise.  [physicsEngine] is [None] for a falsy argument; the
    engine is returned because [updateBubble] writes it. *)
Definition move (now : Q) (b : t) (deltaTime : Q)
    (physicsEngine : option EngineObj.t) (speedMultiplier : Q)
  : Rand (option EngineObj.t * t) :=
  match physicsEngine with
  | Some e =>
      '(e', b') <- PhysicsEngine.updateBubble M e now b deltaTime ;;
      ret (Some e', b')
  | None =>
      let c1 := set_x (x b + vx b * speedMultiplier) b in
      let c2 := set_y (y c1 + vy c1 * speedMultiplier) c1 in
      ret (None,
           set_x (x c2 + Math.sin M (age c2 * wobbleSpeed c2 + wobbleOffset c2) * 0.2) c2)
  end.

(** "Update visual properties" *)
Definition cycleHue (b : t) : t :=
  let b1 := set_hue (hue b + hueSpeed b) b in
  if hue b1 >? 360 then set_hue (hue b1 - 360) b1 else b1.

(** "Fade out near end of lifetime" *)
Definition fade (b : t) : t :=
  let lifetimeRatio := age b / lifetime b in
  if lifetimeRatio >? 0.92
  then set_opacity (1 - (lifetimeRatio - 0.92) / 0.08) b
  else b.

(** "Check bounds" *)
Definition outOfBounds (win : Window) (b : t) : bool :=
  (x b <? -100) || (x b >? innerWidth win + 100) ||
  (y b <? -100) || (y b >? innerHeight win + 100).

(** [update(deltaTime, physicsEngine, speedMultiplier)] *)
Definition update (win : Window) (now : Q) (b : t) (deltaTime : Q)
    (physicsEngine : option EngineObj.t) (speedMultiplier : Q)
  : Rand (option EngineObj.t * t) :=
  if negb (isAlive b) then ret (physicsEngine, b)
  else
    let b1 := set_age (age b + deltaTime) b in
    if age b1 >=? lifetime b1 then ret (physicsEngine, set_isAlive false b1)
    else
      '(pe, b2) <- move now b1 deltaTime physicsEngine speedMultiplier ;;
      let b6 := fade (animateTheme (cycleHue b2)) in
      if outOfBounds win b6
      then ret (pe, set_isAlive false b6)
      else ret (pe, b6).


End WithMath.
End Bubble.

(** ** class BubbleManager *)

Module BubbleManager.
Local Open Scope rand_scope.

(** [allocated] counts the [new Bubble] calls of the manager; it is the
    next fresh address. *)
Record t := mk {
  maxBubbles : Z;
  bubbles : list BubbleObj.t;
  bubblePool : list BubbleObj.t;
  activeCount : Z;
  allocated : nat
}.

(** [constructor(ctx, maxBubbles)] *)
Definition constructor (maxBubbles : Z) : t := mk maxBubbles [] [] 0 0.

Section WithMath.
Variable M : Math.lib.

(** [resetBubble(bubble, x, y, size, lifetime, theme)] *)
Definition resetBubble (bubble : BubbleObj.t) (x y size lifetime : Q)
    (theme : option Theme.t) : Rand BubbleObj.t :=
  rwo <- Math_random ;;
  rh <- Math_random ;;
  rsp <- Math_random ;;
  rsh <- Math_random ;;
  stars <- (if Bubble.hasStars theme then Bubble.generateStarPositions M (size / 2)
            else ret []) ;;
  ret (BubbleObj.mk (BubbleObj.addr bubble) x y size (size / 2) lifetime 0 true 0 0
         (rwo * Math.PI M * 2) (BubbleObj.wobbleSpeed bubble)
         (BubbleObj.spawnMomentumX bubble) (BubbleObj.spawnMomentumY bubble)
         (BubbleObj.spawnDirection bubble) 1 theme
         (Bubble.initialHue theme rh) (BubbleObj.hueSpeed bubble)
         (rsp * Math.PI M * 2) (rsh * Math.PI M * 2) stars).

(** [createBubble(x, y, size, lifetime, theme)] *)
Definition createBubble (m : t) (x y size lifetime : Q) (theme : option Theme.t)
  : Rand (t * BubbleObj.t) :=
  match pop (bubblePool m) with
  | Some (pooled, rest) =>
      bubble <- resetBubble pooled x y size lifetime theme ;;
      ret (mk (maxBubbles m) (push (bubbles m) bubble) rest (activeCount m + 1) (allocated m),
           bubble)
  | None =>
      bubble <- Bubble.constructor M (allocated m) x y size lifetime theme ;;
      ret (mk (maxBubbles m) (push (bubbles m) bubble) (bubblePool m) (activeCount m + 1)
              (S (allocated m)),
           bubble)
  end.

(** [removeBubble(index)].  For an index outside the array the source also
    pushes [undefined] on the pool; [update], the only caller, passes
    indices of the array, and the pool of the model holds objects only. *)
Definition removeBubble (m : t) (index : nat) : t :=
  match nth_error (bubbles m) index with
  | Some bubble =>
      mk (maxBubbles m) (splice1 index (bubbles m)) (push (bubblePool m) bubble)
         (activeCount m - 1) (allocated m)
  | None => mk (maxBubbles m) (bubbles m) (bubblePool m) (activeCount m - 1) (allocated m)
  end.

(** The body of the loop of [update] at index [i]. *)
Definition updateAt (win : Window) (now deltaTime speedMultiplier : Q) (i : nat)
    (st : t * option EngineObj.t) : Rand (t * option EngineObj.t) :=
  let (m, pe) := st in
  match nth_error (bubbles m) i with
  | Some bubble =>
      '(pe', bubble') <- Bubble.update M win now bubble deltaTime pe speedMultiplier ;;
      let m1 := mk (maxBubbles m) (store i bubble' (bubbles m)) (bubblePool m)
                   (activeCount m) (allocated m) in
      if negb (BubbleObj.isAlive bubble')
      then ret (removeBubble m1 i, pe')
      else ret (m1, pe')
  | None => ret st
  end.

(** [for (let i = k - 1; i >= 0; i--)] *)
Fixpoint updateFrom (win : Window) (now deltaTime speedMultiplier : Q) (k : nat)
    (st : t * option EngineObj.t) : Rand (t * option EngineObj.t) :=
  match k with
  | O => ret st
  | S i =>
      st' <- updateAt win now deltaTime speedMultiplier i st ;;
      updateFrom win now deltaTime speedMultiplier i st'
  end.

(** [update(deltaTime, physicsEngine, speedMultiplier)] *)
Definition update (win : Window) (now : Q) (m : t) (deltaTime : Q)
    (physicsEngine : option EngineObj.t) (speedMultiplier : Q)
  : Rand (t * option EngineObj.t) :=
  updateFrom win now deltaTime speedMultiplier (List.length (bubbles m)) (m, physicsEngine).

(** [this.bubbles.sort((a, b) => b.size - a.size)]: a stable sort, larger
    sizes first. *)
Fixpoint insertBySize (a : BubbleObj.t) (l : list BubbleObj.t) : list BubbleObj.t :=
  match l with
  | [] => [a]
  | b :: l' =>
      if BubbleObj.size b <=? BubbleObj.size a then a :: b :: l'
      else b :: insertBySize a l'
  end.

Definition sortBySizeDesc (l : list BubbleObj.t) : list BubbleObj.t :=
  fold_right insertBySize [] l.

(** [render()]: sorts the array in place, then draws; the second component
    lists the bubbles that [Bubble.render] draws, in drawing order. *)
Definition render (m : t) : t * list BubbleObj.t :=
  let sorted := sortBySizeDesc (bubbles m) in
  (mk (maxBubbles m) sorted (bubblePool m) (activeCount m) (allocated m),
   filter (fun b => BubbleObj.isAlive b && negb (BubbleObj.opacity b <=? 0)) sorted).


(** [popBubble(bubble)]: writes [isAlive] of the object, which the array
    holds by reference.  (An object of the pool is dead already: [update]
    only removes dead bubbles.) *)
Definition popBubble (m : t) (bubble : BubbleObj.t) : t :=
  mk (maxBubbles m)
     (map (fun b => if Nat.eqb (BubbleObj.addr b) (BubbleObj.addr bubble)
                    then BubbleObj.set_isAlive false b else b) (bubbles m))
     (bubblePool m) (activeCount m) (allocated m).

(** [getActiveCount()] *)
Definition getActiveCount (m : t) : Z := activeCount m.

End WithMath.
End BubbleManager.

(** ** Pop-effect particles *)

Inductive ParticleType := droplet | burst.

(** A CSS colour: a fixed string, or the [hsl(h, s%, l%)] template. *)
Inductive Color :=
| css (s : string)
| hsl (hue saturation lightness : Q).

Module ParticleObj.
(** [maxSize] is absent from a fresh object; [createBurstEffect] writes it
    and only burst particles read it. *)
Record t := mk {
  addr : nat;            (* identity of the object *)
  x : Q;
  y : Q;
  vx : Q;
  vy : Q;
  size : Q;
  opacity : Q;
  color : Color;
  lifetime : Q;
  age : Q;
  isAlive : bool;
  type : ParticleType;
  rotation : Q;
  rotationSpeed : Q;
  maxSize : Q
}.
Definition set_x v p := mk (addr p) v (y p) (vx p) (vy p) (size p) (opacity p) (color p) (lifetime p) (age p) (isAlive p) (type p) (rotation p) (rotationSpeed p) (maxSize p).
Definition set_y v p := mk (addr p) (x p) v (vx p) (vy p) (size p) (opacity p) (color p) (lifetime p) (age p) (isAlive p) (type p) (rotation p) (rotationSpeed p) (maxSize p).
Definition set_vx v p := mk (addr p) (x p) (y p) v (vy p) (size p) (opacity p) (color p) (lifetime p) (age p) (isAlive p) (type p) (rotation p) (rotationSpeed p) (maxSize p).
Definition set_vy v p := mk (addr p) (x p) (y p) (vx p) v (size p) (opacity p) (color p) (lifetime p) (age p) (isAlive p) (type p) (rotation p) (rotationSpeed p) (maxSize p).
Definition set_size v p := mk (addr p) (x p) (y p) (vx p) (vy p) v (opacity p) (color p) (lifetime p) (age p) (isAlive p) (type p) (rotation p) (rotationSpeed p) (maxSize p).
Definition set_opacity v p := mk (addr p) (x p) (y p) (vx p) (vy p) (size p) v (color p) (lifetime p) (age p) (isAlive p) (type p) (rotation p) (rotationSpeed p) (maxSize p).
Definition set_color v p := mk (addr p) (x p) (y p) (vx p) (vy p) (size p) (opacity p) v (lifetime p) (age p) (isAlive p) (type p) (rotation p) (rotationSpeed p) (maxSize p).
Definition set_lifetime v p := mk (addr p) (x p) (y p) (vx p) (vy p) (size p) (opacity p) (color p) v (age p) (isAlive p) (type p) (rotation p) (rotationSpeed p) (maxSize p).
Definition set_age v p := mk (addr p) (x p) (y p) (vx p) (vy p) (size p) (opacity p) (color p) (lifetime p) v (isAlive p) (type p) (rotation p) (rotationSpeed p) (maxSize p).
Definition set_isAlive v p := mk (addr p) (x p) (y p) (vx p) (vy p) (size p) (opacity p) (color p) (lifetime p) (age p) v (type p) (rotation p) (rotationSpeed p) (maxSize p).
Definition set_type v p := mk (addr p) (x p) (y p) (vx p) (vy p) (size p) (opacity p) (color p) (lifetime p) (age p) (isAlive p) v (rotation p) (rotationSpeed p) (maxSize p).
Definition set_rotation v p := mk (addr p) (x p) (y p) (vx p) (vy p) (size p) (opacity p) (color p) (lifetime p) (age p) (isAlive p) (type p) v (rotationSpeed p) (maxSize p).
Definition set_rotationSpeed v p := mk (addr p) (x p) (y p) (vx p) (vy p) (size p) (opacity p) (color p) (lifetime p) (age p) (isAlive p) (type p) (rotation p) v (maxSize p).
Definition set_maxSize v p := mk (addr p) (x p) (y p) (vx p) (vy p) (size p) (opacity p) (color p) (lifetime p) (age p) (isAlive p) (type p) (rotation p) (rotationSpeed p) v.
End ParticleObj.

(** ** class ParticleSystem *)

Module ParticleSystem.
Local Open Scope rand_scope.

Record Config := mkConfig {
  baseParticleCount : Q;
  maxParticleCount : Q;
  particleLifetime : Q;
  gravity : Q;
  airResistance : Q;
  minSize : Q;
  maxSize : Q;
  fadeOutDuration : Q
}.

(** [allocated] counts the particle objects created by [createNewParticle];
    it is the next fresh address. *)
Record t := mk {
  particles : list ParticleObj.t;
  particlePool : list ParticleObj.t;
  maxParticles : Z;
  activeParticles : Z;
  config : Config;
  performanceMode : bool;
  qualityLevel : Q;
  allocated : nat
}.

Definition set_particles v s := mk v (particlePool s) (maxParticles s) (activeParticles s) (config s) (performanceMode s) (qualityLevel s) (allocated s).
Definition set_particlePool v s := mk (particles s) v (maxParticles s) (activeParticles s) (config s) (performanceMode s) (qualityLevel s) (allocated s).
Definition set_activeParticles v s := mk (particles s) (particlePool s) (maxParticles s) v (config s) (performanceMode s) (qualityLevel s) (allocated s).
Definition set_qualityLevel v s := mk (particles s) (particlePool s) (maxParticles s) (activeParticles s) (config s) (performanceMode s) v (allocated s).
Definition set_allocated v s := mk (particles s) (particlePool s) (maxParticles s) (activeParticles s) (config s) (performanceMode s) (qualityLevel s) v.

(** [constructor(ctx)] *)
Definition constructor : t :=
  mk [] [] 200 0 (mkConfig 8 20 1000 0.3 0.98 1 4 300) false 1.0 0.

(** [createNewParticle()]; [a] is the fresh address. *)
Definition createNewParticle (a : nat) : ParticleObj.t :=
  ParticleObj.mk a 0 0 0 0 1 1 (css "#87CEEB") 1000 0 true droplet 0 0 0.

(** [resetParticle(particle)] *)
Definition resetParticle (particle : ParticleObj.t) : Rand ParticleObj.t :=
  r <- Math_random ;;
  ret (ParticleObj.set_rotationSpeed ((r - 0.5) * 0.2)
        (ParticleObj.set_rotation 0
          (ParticleObj.set_type droplet
            (ParticleObj.set_isAlive true
              (ParticleObj.set_age 0 particle))))).

(** [getPooledParticle()]; [None] is [null]. *)
Definition getPooledParticle (s : t) : Rand (t * option ParticleObj.t) :=
  match pop (particlePool s) with
  | Some (particle, rest) =>
      particle' <- resetParticle particle ;;
      ret (set_particlePool rest s, Some particle')
  | None =>
      if (activeParticles s <? maxParticles s)%Z
      then ret (set_allocated (S (allocated s)) s, Some (createNewParticle (allocated s)))
      else ret (s, None)
  end.

(** [getDropletColor(bubbleSize)] *)
Definition getDropletColor (bubbleSize : Q) : Rand Color :=
  rh <- Math_random ;;
  rs <- Math_random ;;
  rl <- Math_random ;;
  ret (hsl (200 + rh * 40) (40 + rs * 30) (70 + rl * 20)).

Section WithMath.
Variable M : Math.lib.

(** [createDropletParticle(centerX, centerY, bubbleSize, index, totalParticles)] *)
Definition createDropletParticle (centerX centerY bubbleSize : Q)
    (index : nat) (totalParticles : Z) (s : t) : Rand t :=
  '(s1, particle) <-
     match pop (particlePool s) with
     | Some (pooled, rest) =>
         particle' <- resetParticle pooled ;;
         ret (set_particlePool rest s, particle')
     | None =>
         ret (set_allocated (S (allocated s)) s, createNewParticle (allocated s))
     end ;;
  let p1 := ParticleObj.set_y centerY (ParticleObj.set_x centerX particle) in
  ra <- Math_random ;;
  let angle := (Math.PI M * 2 * inject_Z (Z.of_nat index)) / inject_Z totalParticles
               + (ra - 0.5) * 0.5 in
  rs <- Math_random ;;
  let speed := 2 + rs * 4 in
  let speedMultiplier := Math.sqrt M (bubbleSize / 150) in
  let p2 := ParticleObj.set_vx (Math.cos M angle * speed * speedMultiplier) p1 in
  let p3 := ParticleObj.set_vy (Math.sin M angle * speed * speedMultiplier - 1) p2 in
  rf <- Math_random ;;
  let sizeFactor := 0.5 + rf * 0.5 in
  let p4 := ParticleObj.set_size
              ((minSize (config s1) + (maxSize (config s1) - minSize (config s1)) * sizeFactor)
               * Math.sqrt M (bubbleSize / 150)) p3 in
  ro <- Math_random ;;
  let p5 := ParticleObj.set_opacity (0.8 + ro * 0.2) p4 in
  c <- getDropletColor bubbleSize ;;
  let p6 := ParticleObj.set_color c p5 in
  rl <- Math_random ;;
  let p7 := ParticleObj.set_lifetime (particleLifetime (config s1) + (rl - 0.5) * 200) p6 in
  ret (set_activeParticles (activeParticles s1 + 1) (set_particles (push (particles s1) p7) s1)).

(** [createBurstEffect(x, y, bubbleSize)] *)
Definition createBurstEffect (x y bubbleSize : Q) (s : t) : Rand t :=
  '(s1, got) <- getPooledParticle s ;;
  match got with
  | None => ret s1
  | Some p =>
      let burstParticle :=
        ParticleObj.mk (ParticleObj.addr p) x y (ParticleObj.vx p) (ParticleObj.vy p)
          (bubbleSize * 0.1) 0.4 (css "rgba(200, 230, 255, 0.3)") 200 0
          (ParticleObj.isAlive p) burst (ParticleObj.rotation p) (ParticleObj.rotationSpeed p)
          (bubbleSize * 1.3) in
      ret (set_activeParticles (activeParticles s1 + 1)
             (set_particles (push (particles s1) burstParticle) s1))
  end.

(** The three numbers computed at the head of [createPopEffect]. *)
Definition sizeRatioOf (bubbleSize : Q) : Q :=
  Math_max 0.5 (Math_min 3.0 (bubbleSize / 150)).

Definition particleCountOf (s : t) (bubbleSize : Q) : Z :=
  Math_floor (baseParticleCount (config s) * sizeRatioOf bubbleSize * qualityLevel s).

Definition actualCountOf (s : t) (bubbleSize : Q) : Z :=
  let availableSlots := (maxParticles s - activeParticles s)%Z in
  Z.min (particleCountOf s bubbleSize) availableSlots.

(** [createPopEffect(x, y, bubbleSize)] *)
Definition createPopEffect (x y bubbleSize : Q) (s : t) : Rand t :=
  let actualCount := actualCountOf s bubbleSize in
  s1 <- forUpTo (Z.to_nat actualCount) 0
          (fun i => createDropletParticle x y bubbleSize i actualCount) s ;;
  createBurstEffect x y bubbleSize s1.

(** [updateDropletParticle(particle, dt)] *)
Definition updateDropletParticle (win : Window) (s : t) (particle : ParticleObj.t) (dt : Q)
  : ParticleObj.t :=
  let p1 := ParticleObj.set_vy (ParticleObj.vy particle + gravity (config s) * dt) particle in
  let p2 := ParticleObj.set_vx (ParticleObj.vx p1 * Math.pow M (airResistance (config s)) dt) p1 in
  let p3 := ParticleObj.set_vy (ParticleObj.vy p2 * Math.pow M (airResistance (config s)) dt) p2 in
  let p4 := ParticleObj.set_x (ParticleObj.x p3 + ParticleObj.vx p3 * dt) p3 in
  let p5 := ParticleObj.set_y (ParticleObj.y p4 + ParticleObj.vy p4 * dt) p4 in
  let p6 := ParticleObj.set_rotation (ParticleObj.rotation p5 + ParticleObj.rotationSpeed p5 * dt) p5 in
  let ageRatio := ParticleObj.age p6 / ParticleObj.lifetime p6 in
  let p7 := if ageRatio <? 0.3
            then ParticleObj.set_size (ParticleObj.size p6 * (1 + 0.01 * dt)) p6
            else ParticleObj.set_size (ParticleObj.size p6 * (1 - 0.005 * dt)) p6 in
  if (ParticleObj.size p7 <? 0.5) ||
     (ParticleObj.x p7 <? -50) || (ParticleObj.x p7 >? innerWidth win + 50) ||
     (ParticleObj.y p7 >? innerHeight win + 100)
  then ParticleObj.set_isAlive false p7
  else p7.

(** [updateBurstParticle(particle, dt)] *)
Definition updateBurstParticle (particle : ParticleObj.t) (dt : Q) : ParticleObj.t :=
  let progress := ParticleObj.age particle / ParticleObj.lifetime particle in
  let p1 := ParticleObj.set_size (ParticleObj.maxSize particle * progress) particle in
  let p2 := ParticleObj.set_opacity (0.4 * (1 - progress)) p1 in
  if progress >=? 1 then ParticleObj.set_isAlive false p2 else p2.

(** [updateParticleOpacity(particle)] *)
Definition updateParticleOpacity (s : t) (particle : ParticleObj.t) : ParticleObj.t :=
  let ageRatio := ParticleObj.age particle / ParticleObj.lifetime particle in
  match ParticleObj.type particle with
  | droplet =>
      let fadeStart := 1 - fadeOutDuration (config s) / ParticleObj.lifetime particle in
      if ageRatio >? fadeStart then
        let fadeProgress := (ageRatio - fadeStart) / (1 - fadeStart) in
        ParticleObj.set_opacity (ParticleObj.opacity particle * (1 - fadeProgress)) particle
      else particle
  | burst => particle
  end.

(** [updateParticle(particle, dt)] *)
Definition updateParticle (win : Window) (s : t) (particle : ParticleObj.t) (dt : Q)
  : ParticleObj.t :=
  let p1 := ParticleObj.set_age (ParticleObj.age particle + dt * 16.67) particle in
  let p2 := match ParticleObj.type p1 with
            | burst => updateBurstParticle p1 dt
            | droplet => updateDropletParticle win s p1 dt
            end in
  updateParticleOpacity s p2.

(** [removeParticle(index)] *)
Definition removeParticle (s : t) (index : nat) : t :=
  match nth_error (particles s) index with
  | Some particle =>
      set_activeParticles (activeParticles s - 1)
        (set_particlePool (push (particlePool s) particle)
          (set_particles (splice1 index (particles s)) s))
  | None => s
  end.

(** The body of the loop of [update] at index [i]. *)
Definition updateAt (win : Window) (dt : Q) (i : nat) (s : t) : t :=
  match nth_error (particles s) i with
  | Some particle =>
      if negb (ParticleObj.isAlive particle) then removeParticle s i
      else
        let particle' := updateParticle win s particle dt in
        let s1 := set_particles (store i particle' (particles s)) s in
        if (ParticleObj.age particle' >=? ParticleObj.lifetime particle') ||
           (ParticleObj.opacity particle' <=? 0)
        then removeParticle s1 i
        else s1
  | None => s
  end.

(** [for (let i = k - 1; i >= 0; i--)] *)
Fixpoint updateFrom (win : Window) (dt : Q) (k : nat) (s : t) : t :=
  match k with
  | O => s
  | S i => updateFrom win dt i (updateAt win dt i s)
  end.

(** [update(deltaTime)] *)
Definition update (win : Window) (s : t) (deltaTime : Q) : t :=
  let dt := deltaTime / 16.67 in
  updateFrom win dt (List.length (particles s)) s.

(** The loop of [createSplashEffect], from index [i], [n] iterations left;
    it breaks when no particle is available. *)
Fixpoint splashFrom (x y : Q) (particleCount : Z) (n i : nat) (s : t) : Rand t :=
  match n with
  | O => ret s
  | S n' =>
      '(s1, got) <- getPooledParticle s ;;
      match got with
      | None => ret s1
      | Some p =>
          let angle := (Math.PI M * 2 * inject_Z (Z.of_nat i)) / inject_Z particleCount in
          rs <- Math_random ;;
          let speed := 3 + rs * 2 in
          let p1 := ParticleObj.set_y y (ParticleObj.set_x x p) in
          let p2 := ParticleObj.set_vx (Math.cos M angle * speed) p1 in
          let p3 := ParticleObj.set_vy (Math.sin M angle * speed - 2) p2 in
          rz <- Math_random ;;
          let p4 := ParticleObj.set_size (1 + rz * 2) p3 in
          rl <- Math_random ;;
          let p5 := ParticleObj.set_lifetime (800 + rl * 400) p4 in
          c <- getDropletColor 30 ;;
          let p6 := ParticleObj.set_color c p5 in
          ro <- Math_random ;;
          let p7 := ParticleObj.set_opacity (0.6 + ro * 0.4) p6 in
          splashFrom x y particleCount n' (S i)
            (set_activeParticles (activeParticles s1 + 1)
               (set_particles (push (particles s1) p7) s1))
      end
  end.

(** [createSplashEffect(x, y, intensity)] *)
Definition createSplashEffect (x y intensity : Q) (s : t) : Rand t :=
  let particleCount := Math_floor (12 * intensity * qualityLevel s) in
  splashFrom x y particleCount (Z.to_nat particleCount) 0 s.

End WithMath.

(** [clearAll()] *)
Definition clearAll (s : t) : t :=
  set_activeParticles 0
    (set_particles [] (set_particlePool (particlePool s ++ particles s) s)).

(** [enablePerformanceMode(enabled)] *)
Definition enablePerformanceMode (s : t) (enabled : bool) : t :=
  let c := config s in
  if enabled
  then mk (particles s) (particlePool s) 100 (activeParticles s)
          (mkConfig 6 12 (particleLifetime c) (gravity c) (airResistance c) (minSize c)
                    (maxSize c) (fadeOutDuration c))
          true 0.7 (allocated s)
  else mk (particles s) (particlePool s) 200 (activeParticles s)
          (mkConfig 8 20 (particleLifetime c) (gravity c) (airResistance c) (minSize c)
                    (maxSize c) (fadeOutDuration c))
          false 1.0 (allocated s).

(** [setQualityLevel(level)] *)
Definition setQualityLevel (s : t) (level : Q) : t :=
  set_qualityLevel (Math_max 0.1 (Math_min 1.0 level)) s.

End ParticleSystem.

(** ** The audio device (Web Audio API)

    The device is the part of the browser that the audio manager drives.
    A node is a handle; [playing] lists the nodes that were started and not
    stopped since; [callbacks] lists the completion handlers registered
    with the browser ([source.onended = ...] and [setTimeout]).
    [rejectsNonFinite] tells whether the methods of an [AudioParam] throw a
    [TypeError] for a value that is not finite, which the Web Audio API
    prescribes; a statement that depends on it says so. *)

Definition Node := nat.

Inductive Callback :=
| onended (source : Node) (soundId : Q)   (* source.onended = () => cleanupSound(soundId) *)
| timeout (ms : Q) (soundId : Q)          (* setTimeout(() => cleanupSound(soundId), ms) *)
| resumed.                                (* audioContext.resume().then(...) *)

Record Device := mkDevice {
  rejectsNonFinite : bool;
  nextNode : nat;
  playing : list Node;
  callbacks : list Callback
}.

Module AudioObj.
Inductive ContextState := suspended | running | closed.

Record Buffer := mkBuffer { duration : Q }.

(** [bubblePopBuffers]: one entry per theme, [None] for [null]. *)
Record Buffers := mkBuffers {
  classic : option Buffer;
  oil : option Buffer;
  crystal : option Buffer;
  galaxy : option Buffer
}.

(** An entry of [activeSounds]: the fields of both object literals, [None]
    for a property that the literal does not have (or a [null] harmonic). *)
Record Sound := mkSound {
  id : Q;
  source : option Node;
  oscillator : option Node;
  gainNode : Node;
  filterNode : option Node;
  harmonic : option Node;
  startTime : Q;
  sduration : Q
}.

Record Queued := mkQueued { bubbleSize : Q; theme : string; timestamp : Q }.

(** The last three fields are properties that methods read and that the
    constructor does not define; no method assigns them. *)
Record t := mk {
  audioContext : option ContextState;
  isEnabled : bool;
  isMuted : bool;
  volume : Q;
  isInitialized : bool;
  bubblePopBuffers : Buffers;
  isBufferLoaded : bool;
  maxSimultaneousSounds : Z;
  activeSounds : list Sound;
  soundQueue : list Queued;
  isWebAudioSupported : bool;
  bubblePopBuffer : option Buffer;
  baseFrequency : option Q;
  frequencyRange : option Q
}.

Definition set_audioContext v a := mk v (isEnabled a) (isMuted a) (volume a) (isInitialized a) (bubblePopBuffers a) (isBufferLoaded a) (maxSimultaneousSounds a) (activeSounds a) (soundQueue a) (isWebAudioSupported a) (bubblePopBuffer a) (baseFrequency a) (frequencyRange a).
Definition set_isEnabled v a := mk (audioContext a) v (isMuted a) (volume a) (isInitialized a) (bubblePopBuffers a) (isBufferLoaded a) (maxSimultaneousSounds a) (activeSounds a) (soundQueue a) (isWebAudioSupported a) (bubblePopBuffer a) (baseFrequency a) (frequencyRange a).
Definition set_isMuted v a := mk (audioContext a) (isEnabled a) v (volume a) (isInitialized a) (bubblePopBuffers a) (isBufferLoaded a) (maxSimultaneousSounds a) (activeSounds a) (soundQueue a) (isWebAudioSupported a) (bubblePopBuffer a) (baseFrequency a) (frequencyRange a).
Definition set_volume v a := mk (audioContext a) (isEnabled a) (isMuted a) v (isInitialized a) (bubblePopBuffers a) (isBufferLoaded a) (maxSimultaneousSounds a) (activeSounds a) (soundQueue a) (isWebAudioSupported a) (bubblePopBuffer a) (baseFrequency a) (frequencyRange a).
Definition set_isInitialized v a := mk (audioContext a) (isEnabled a) (isMuted a) (volume a) v (bubblePopBuffers a) (isBufferLoaded a) (maxSimultaneousSounds a) (activeSounds a) (soundQueue a) (isWebAudioSupported a) (bubblePopBuffer a) (baseFrequency a) (frequencyRange a).
Definition set_buffers v l a := mk (audioContext a) (isEnabled a) (isMuted a) (volume a) (isInitialized a) v l (maxSimultaneousSounds a) (activeSounds a) (soundQueue a) (isWebAudioSupported a) (bubblePopBuffer a) (baseFrequency a) (frequencyRange a).
Definition set_maxSimultaneousSounds v a := mk (audioContext a) (isEnabled a) (isMuted a) (volume a) (isInitialized a) (bubblePopBuffers a) (isBufferLoaded a) v (activeSounds a) (soundQueue a) (isWebAudioSupported a) (bubblePopBuffer a) (baseFrequency a) (frequencyRange a).
Definition set_activeSounds v a := mk (audioContext a) (isEnabled a) (isMuted a) (volume a) (isInitialized a) (bubblePopBuffers a) (isBufferLoaded a) (maxSimultaneousSounds a) v (soundQueue a) (isWebAudioSupported a) (bubblePopBuffer a) (baseFrequency a) (frequencyRange a).
Definition set_soundQueue v a := mk (audioContext a) (isEnabled a) (isMuted a) (volume a) (isInitialized a) (bubblePopBuffers a) (isBufferLoaded a) (maxSimultaneousSounds a) (activeSounds a) v (isWebAudioSupported a) (bubblePopBuffer a) (baseFrequency a) (frequencyRange a).

(** [this.bubblePopBuffers[theme]] *)
Definition bufferOf (b : Buffers) (theme : string) : option Buffer :=
  if String.eqb theme "classic" then classic b
  else if String.eqb theme "oil" then oil b
  else if String.eqb theme "crystal" then crystal b
  else if String.eqb theme "galaxy" then galaxy b
  else None.
End AudioObj.

(** ** Effects of the audio code: state, exceptions *)

Inductive JsError := TypeError (message : string).

Inductive Outcome (A : Type) :=
| returns (a : A)
| throws (e : JsError).
Arguments returns {A} a.
Arguments throws {A} e.

(** The state that the audio manager reads and writes. *)
Record AudioState := mkAudioState {
  this : AudioObj.t;
  device : Device;
  rng : Rng
}.

Definition Eff (A : Type) : Type := AudioState -> Outcome A * AudioState.

Definition eret {A} (a : A) : Eff A := fun s => (returns a, s).
Definition ebind {A B} (m : Eff A) (k : A -> Eff B) : Eff B :=
  fun s => match m s with
           | (returns a, s') => k a s'
           | (throws e, s') => (throws e, s')
           end.
Definition throw {A} (e : JsError) : Eff A := fun s => (throws e, s).
(** [try { body } catch (error) { handler }]: the writes of [body] before
    the exception stay. *)
Definition tryCatch {A} (body : Eff A) (handler : JsError -> Eff A) : Eff A :=
  fun s => match body s with
           | (returns a, s') => (returns a, s')
           | (throws e, s') => handler e s'
           end.

Declare Scope eff_scope.
Delimit Scope eff_scope with eff.
Notation "x <- m ;; k" := (ebind m (fun x => k))
  (at level 61, m at next level, right associativity) : eff_scope.
Notation "m ;;; k" := (ebind m (fun _ => k))
  (at level 61, right associativity) : eff_scope.

Definition getThis : Eff AudioObj.t := fun s => (returns (this s), s).
Definition modifyThis (f : AudioObj.t -> AudioObj.t) : Eff unit :=
  fun s => (returns tt, mkAudioState (f (this s)) (device s) (rng s)).
Definition modifyDevice (f : Device -> Device) : Eff unit :=
  fun s => (returns tt, mkAudioState (this s) (f (device s)) (rng s)).
Definition random : Eff Q :=
  fun s => let (q, r) := Math_random (rng s) in
           (returns q, mkAudioState (this s) (device s) r).

(** [createBufferSource], [createGain], [createOscillator],
    [createBiquadFilter]: a fresh node. *)
Definition createNode : Eff Node :=
  fun s => let d := device s in
           (returns (nextNode d),
            mkAudioState (this s)
              (mkDevice (rejectsNonFinite d) (S (nextNode d)) (playing d) (callbacks d))
              (rng s)).

(** [node.start(...)] *)
Definition start (n : Node) : Eff unit :=
  modifyDevice (fun d => mkDevice (rejectsNonFinite d) (nextNode d) (push (playing d) n) (callbacks d)).

(** [node.stop()] *)
Definition stop (n : Node) : Eff unit :=
  modifyDevice (fun d => mkDevice (rejectsNonFinite d) (nextNode d)
                           (filter (fun m => negb (Nat.eqb m n)) (playing d)) (callbacks d)).

Definition register (c : Callback) : Eff unit :=
  modifyDevice (fun d => mkDevice (rejectsNonFinite d) (nextNode d) (playing d) (push (callbacks d) c)).

(** A method of an [AudioParam] that schedules a value ([setValueAtTime]
    and the ramps); [None] is [NaN]. *)
Definition scheduleValue (value : option Q) : Eff unit :=
  fun s => match value with
           | Some _ => (returns tt, s)
           | None => if rejectsNonFinite (device s)
                     then (throws (TypeError "The provided float value is non-finite."), s)
                     else (returns tt, s)
           end.

(** Arithmetic on a number that may be [NaN] ([undefined] converts to
    [NaN]). *)
Definition nanAdd (a b : option Q) : option Q :=
  match a, b with Some x, Some y => Some (x + y) | _, _ => None end.
Definition nanMul (a b : option Q) : option Q :=
  match a, b with Some x, Some y => Some (x * y) | _, _ => None end.

(** ** class AudioManager *)

Module AudioManager.
Import AudioObj.
Local Open Scope eff_scope.

(** [constructor()]; the argument is the result of [checkWebAudioSupport()]. *)
Definition constructor (supported : bool) : AudioObj.t :=
  mk None true false 0.3 false (mkBuffers None None None None) false 5 [] [] supported
     None None None.

(** [init()], with what the browser answers: the state of the new audio
    context and the decoded buffer of every theme, [None] where the fetch
    or the decoding failed. *)
Definition init (a : AudioObj.t) (contextState : ContextState) (decoded : Buffers)
  : AudioObj.t :=
  if negb (isWebAudioSupported a) then set_isEnabled false a
  else
    let a1 := set_audioContext (Some contextState) a in
    let a2 := set_buffers decoded true a1 in
    match contextState with
    | suspended => a2
    | _ => set_isInitialized true a2
    end.

(** The handler [resumeAudio] of [setupUserInteractionHandler], when
    [audioContext.resume()] succeeds. *)
Definition resumeAudio (a : AudioObj.t) : AudioObj.t :=
  match audioContext a with
  | Some suspended => set_isInitialized true (set_audioContext (Some running) a)
  | Some running => set_isInitialized true a
  | _ => a
  end.

(** [createHarmonic(frequency, duration, volume)]; [None] is [null]. *)
Definition createHarmonic (frequency : option Q) (duration volume : Q) : Eff (option Node) :=
  tryCatch
    (oscillator <- createNode ;;
     gainNode <- createNode ;;
     scheduleValue frequency ;;;
     scheduleValue (Some 0) ;;;
     scheduleValue (Some volume) ;;;
     scheduleValue (Some 0.001) ;;;
     eret (Some oscillator))
    (fun error => eret None).

(** [synthesizePopSound(frequency, duration, sizeRatio, soundId)] *)
Definition synthesizePopSound (now : Q) (frequency : option Q) (duration sizeRatio soundId : Q)
  : Eff Sound :=
  oscillator <- createNode ;;
  gainNode <- createNode ;;
  filterNode <- createNode ;;
  scheduleValue frequency ;;;
  scheduleValue (nanMul frequency (Some 0.6)) ;;;
  scheduleValue (nanMul frequency (Some 3)) ;;;
  scheduleValue (Some (2 + sizeRatio)) ;;;
  let attackTime := 0.005 in
  let sustainLevel := 0.3 in
  a <- getThis ;;
  let peakVolume := volume a * (0.5 + sizeRatio * 0.3) in
  scheduleValue (Some 0) ;;;
  scheduleValue (Some peakVolume) ;;;
  scheduleValue (Some (sustainLevel * peakVolume)) ;;;
  scheduleValue (Some 0.001) ;;;
  harmonic <- createHarmonic (nanMul frequency (Some 2)) (duration * 0.5) (peakVolume * 0.3) ;;
  start oscillator ;;;
  (match harmonic with
   | Some h => start h
   | None => eret tt
   end) ;;;
  eret (mkSound soundId None (Some oscillator) gainNode (Some filterNode) harmonic now duration).

(** [createPopSound(bubbleSize)]; [dateNow] is [Date.now()] and [now] is
    [audioContext.currentTime]. *)
Definition createPopSound (dateNow now : Q) (bubbleSize : Q) : Eff unit :=
  tryCatch
    (r <- random ;;
     let soundId := dateNow + r in
     let sizeRatio := Math_max 0.3 (Math_min 3.0 (bubbleSize / 150)) in
     a <- getThis ;;
     let frequency :=
       nanAdd (baseFrequency a) (nanMul (frequencyRange a) (Some (1 - sizeRatio * 0.5))) in
     let duration := 0.08 + sizeRatio * 0.04 in
     sound <- synthesizePopSound now frequency duration sizeRatio soundId ;;
     modifyThis (fun a => set_activeSounds (push (activeSounds a) sound) a) ;;;
     register (timeout (duration * 1000 + 100) soundId))
    (fun error => eret tt).

(** [playAudioFile(bubbleSize, theme)] *)
Definition playAudioFile (dateNow now : Q) (bubbleSize : Q) (theme : string) : Eff unit :=
  tryCatch
    (r <- random ;;
     let soundId := dateNow + r in
     source <- createNode ;;
     gainNode <- createNode ;;
     let sizeRatio := Math_max 0.3 (Math_min 3.0 (bubbleSize / 150)) in
     let playbackRate := 0.8 + (1 - sizeRatio * 0.3) in
     scheduleValue (Some playbackRate) ;;;
     let volumeVariation := 0.7 + sizeRatio * 0.6 in
     rv <- random ;;
     let randomVariation := 0.8 + rv * 0.4 in
     a <- getThis ;;
     let finalVolume := volume a * volumeVariation * randomVariation in
     scheduleValue (Some finalVolume) ;;;
     start source ;;;
     (* const duration = this.bubblePopBuffer.duration / playbackRate; *)
     match bubblePopBuffer a with
     | None => throw (TypeError "Cannot read properties of undefined (reading 'duration')")
     | Some buffer =>
         let duration := AudioObj.duration buffer / playbackRate in
         let sound := mkSound soundId (Some source) None gainNode None None now duration in
         modifyThis (fun a => set_activeSounds (push (activeSounds a) sound) a) ;;;
         register (onended source soundId)
     end)
    (fun error => createPopSound dateNow now bubbleSize).

(** [nextSound.theme || 'classic'] *)
Definition themeOrClassic (theme : string) : string :=
  if String.eqb theme "" then "classic" else theme.

Definition isSome {A} (o : option A) : bool :=
  match o with Some _ => true | None => false end.

(** [processQueuedSounds()] *)
Definition processQueuedSounds (dateNow now : Q) : Eff unit :=
  modifyThis (fun a =>
    set_soundQueue (filter (fun sound => dateNow - timestamp sound <? 100) (soundQueue a)) a) ;;;
  a <- getThis ;;
  match soundQueue a with
  | nextSound :: rest =>
      if (Z.of_nat (List.length (activeSounds a)) <? maxSimultaneousSounds a)%Z then
        modifyThis (set_soundQueue rest) ;;;
        if isBufferLoaded a && isSome (bufferOf (bubblePopBuffers a) (themeOrClassic (theme nextSound)))
        then playAudioFile dateNow now (bubbleSize nextSound) (themeOrClassic (theme nextSound))
        else createPopSound dateNow now (bubbleSize nextSound)
      else eret tt
  | [] => eret tt
  end.

(** [cleanupSound(soundId)] *)
Definition cleanupSound (dateNow now : Q) (soundId : Q) : Eff unit :=
  modifyThis (fun a =>
    set_activeSounds (filter (fun sound => negb (Qeq_bool (id sound) soundId)) (activeSounds a)) a) ;;;
  processQueuedSounds dateNow now.

(** [playPopSound(bubbleSize, theme)] *)
Definition playPopSound (dateNow now : Q) (bubbleSize : Q) (theme : string) : Eff unit :=
  a <- getThis ;;
  if negb (isEnabled a) || isMuted a || negb (isSome (audioContext a)) || negb (isInitialized a)
  then eret tt
  else
    match audioContext a with
    | Some suspended => eret tt
    | _ =>
        if (Z.of_nat (List.length (activeSounds a)) >=? maxSimultaneousSounds a)%Z then
          modifyThis (fun a => set_soundQueue (push (soundQueue a) (mkQueued bubbleSize theme dateNow)) a) ;;;
          processQueuedSounds dateNow now
        else if isBufferLoaded a && isSome (bufferOf (bubblePopBuffers a) theme)
        then playAudioFile dateNow now bubbleSize theme
        else if isBufferLoaded a && isSome (classic (bubblePopBuffers a))
        then playAudioFile dateNow now bubbleSize "classic"
        else createPopSound dateNow now bubbleSize
    end.

(** The body of the [forEach] of [stopAllSounds]. *)
Definition stopSound (sound : Sound) : Eff unit :=
  tryCatch
    ((match oscillator sound with Some o => stop o | None => eret tt end) ;;;
     (match harmonic sound with Some h => stop h | None => eret tt end))
    (fun error => eret tt).

Fixpoint forEach {A} (f : A -> Eff unit) (l : list A) : Eff unit :=
  match l with
  | [] => eret tt
  | a :: l' => f a ;;; forEach f l'
  end.

(** [stopAllSounds()] *)
Definition stopAllSounds : Eff unit :=
  a <- getThis ;;
  forEach stopSound (activeSounds a) ;;;
  modifyThis (set_activeSounds []) ;;;
  modifyThis (set_soundQueue []).

(** [toggleMute()]; the result is the enabled state. *)
Definition toggleMute : Eff bool :=
  a <- getThis ;;
  (match audioContext a with
   | Some suspended => if negb (isMuted a) then register resumed else eret tt
   | _ => eret tt
   end) ;;;
  modifyThis (fun a => set_isMuted (negb (isMuted a)) a) ;;;
  a' <- getThis ;;
  (if isMuted a' then stopAllSounds else eret tt) ;;;
  eret (negb (isMuted a')).

(** [enablePerformanceMode(enabled)] *)
Definition enablePerformanceMode (a : AudioObj.t) (enabled : bool) : AudioObj.t :=
  set_maxSimultaneousSounds (if enabled then 2 else 3)%Z a.

(** [setVolume(volume)] *)
Definition setVolume (a : AudioObj.t) (v : Q) : AudioObj.t :=
  set_volume (Math_max 0 (Math_min 1 v)) a.

(** The browser runs the [i]-th registered completion handler: the handler
    leaves the list of the device, and calls [cleanupSound]; a source that
    ended plays no more. *)
Definition fire (dateNow now : Q) (i : nat) : Eff unit :=
  s <- (fun s => (returns (nth_error (callbacks (device s)) i), s)) ;;
  match s with
  | None => eret tt
  | Some c =>
      modifyDevice (fun d => mkDevice (rejectsNonFinite d) (nextNode d) (playing d)
                               (splice1 i (callbacks d))) ;;;
      match c with
      | onended source soundId => stop source ;;; cleanupSound dateNow now soundId
      | timeout _ soundId => cleanupSound dateNow now soundId
      | resumed => modifyThis resumeAudio
      end
  end.

End AudioManager.


(** ** class BubbleGame: spawning and the sliders *)

(** [this.spawnStats] *)
Module SpawnStats.
Record t := mk { bottom : Z; left : Z; right : Z }.
End SpawnStats.

(** [this.config]; [performanceTarget] and [maxMemoryUsage] are not read
    by the methods below. *)
Module GameConfig.
Record t := mk {
  maxBubbles : Z;
  spawnRate : Q;
  spawnRateVariation : Q;
  bubbleLifetime : Q;
  bubbleLifetimeVariation : Q;
  initialBubbleCount : Z
}.
End GameConfig.

(** The result of [getSafeSpawnZones()]. *)
Module SafeZones.
Record t := mk { leftEdge : Q; rightEdge : Q; bottomEdge : Q; safeWidth : Q }.
End SafeZones.

Module BubbleGame.
Local Open Scope rand_scope.

(** The fields that spawning and the sliders read and write;
    [currentTheme] is [this.themes[this.currentTheme]], and [bubbleManager]
    is [None] before [initializeSystems]. *)
Record t := mk {
  width : Q;
  height : Q;
  config : GameConfig.t;
  gameStarted : bool;
  bubbleSpeedMultiplier : Q;
  bubbleDensityMultiplier : Q;
  currentTheme : option Theme.t;
  lastSpawnTime : Q;
  nextSpawnDelay : Q;
  spawnStats : SpawnStats.t;
  bubbleManager : option BubbleManager.t
}.

Definition set_config v g := mk (width g) (height g) v (gameStarted g) (bubbleSpeedMultiplier g) (bubbleDensityMultiplier g) (currentTheme g) (lastSpawnTime g) (nextSpawnDelay g) (spawnStats g) (bubbleManager g).
Definition set_bubbleSpeedMultiplier v g := mk (width g) (height g) (config g) (gameStarted g) v (bubbleDensityMultiplier g) (currentTheme g) (lastSpawnTime g) (nextSpawnDelay g) (spawnStats g) (bubbleManager g).
Definition set_bubbleDensityMultiplier v g := mk (width g) (height g) (config g) (gameStarted g) (bubbleSpeedMultiplier g) v (currentTheme g) (lastSpawnTime g) (nextSpawnDelay g) (spawnStats g) (bubbleManager g).
Definition set_lastSpawnTime v g := mk (width g) (height g) (config g) (gameStarted g) (bubbleSpeedMultiplier g) (bubbleDensityMultiplier g) (currentTheme g) v (nextSpawnDelay g) (spawnStats g) (bubbleManager g).
Definition set_nextSpawnDelay v g := mk (width g) (height g) (config g) (gameStarted g) (bubbleSpeedMultiplier g) (bubbleDensityMultiplier g) (currentTheme g) (lastSpawnTime g) v (spawnStats g) (bubbleManager g).
Definition set_spawnStats v g := mk (width g) (height g) (config g) (gameStarted g) (bubbleSpeedMultiplier g) (bubbleDensityMultiplier g) (currentTheme g) (lastSpawnTime g) (nextSpawnDelay g) v (bubbleManager g).
Definition set_bubbleManager v g := mk (width g) (height g) (config g) (gameStarted g) (bubbleSpeedMultiplier g) (bubbleDensityMultiplier g) (currentTheme g) (lastSpawnTime g) (nextSpawnDelay g) (spawnStats g) v.

(** [this.config] as the constructor writes it. *)
Definition defaultConfig : GameConfig.t := GameConfig.mk 25 800 1000 18000 4000 8.

(** [getSafeSpawnZones()], with the ad zones of the constructor: 180 + 20
    on the left, 100 + 20 at the bottom. *)
Definition getSafeSpawnZones (g : t) : SafeZones.t :=
  let leftSafeZone := 180 + 20 in
  let bottomSafeZone := 100 + 20 in
  SafeZones.mk leftSafeZone (width g) (height g - bottomSafeZone) (width g - leftSafeZone).

(** [getRandomSpawnDelay()] *)
Definition getRandomSpawnDelay (g : t) : Rand Q :=
  r <- Math_random ;;
  ret (GameConfig.spawnRate (config g) + (r - 0.5) * GameConfig.spawnRateVariation (config g)).

(** The steps of [spawnBubble], in the order of its body. *)

(** "Weighted spawn distribution": 0 is the bottom edge, 1 the left edge,
    2 the right edge. *)
Definition chooseSide : Rand nat :=
  randomValue <- Math_random ;;
  ret (if randomValue <? 0.8 then 0%nat
       else if randomValue <? 0.9 then 1%nat
       else 2%nat).

(** The first [switch (side)]; [None] is the [return] of its default
    case. *)
Definition spawnPoint (g : t) (side : nat) : Rand (option (Q * Q)) :=
  let spawnDistance := 30 in
  let safeZones := getSafeSpawnZones g in
  match side with
  | 0%nat =>
      r <- Math_random ;;
      ret (Some (SafeZones.leftEdge safeZones + r * SafeZones.safeWidth safeZones,
                 height g + spawnDistance))
  | 1%nat =>
      r <- Math_random ;;
      ret (Some (- spawnDistance, r * height g))
  | 2%nat =>
      r <- Math_random ;;
      ret (Some (width g + spawnDistance, r * height g))
  | _ => ret None
  end.

(** "Create bubble with random size" *)
Definition chooseSize : Rand Q :=
  sizeType <- Math_random ;;
  if sizeType <? 0.6 then r <- Math_random ;; ret (60 + r * 80)
  else if sizeType <? 0.9 then r <- Math_random ;; ret (120 + r * 100)
  else r <- Math_random ;; ret (180 + r * 120).

(** "Track spawn distribution" *)
Definition countSpawn (side : nat) (s : SpawnStats.t) : SpawnStats.t :=
  match side with
  | 0%nat => SpawnStats.mk (SpawnStats.bottom s + 1) (SpawnStats.left s) (SpawnStats.right s)
  | 1%nat => SpawnStats.mk (SpawnStats.bottom s) (SpawnStats.left s + 1) (SpawnStats.right s)
  | 2%nat => SpawnStats.mk (SpawnStats.bottom s) (SpawnStats.left s) (SpawnStats.right s + 1)
  | _ => s
  end.

(** The writes to the new bubble: its direction and momentum, then its
    velocity. *)
Definition launched (vx vy : Q) (direction : SpawnDirection) (momentumX momentumY : Q)
    (b : BubbleObj.t) : BubbleObj.t :=
  BubbleObj.mk (BubbleObj.addr b) (BubbleObj.x b) (BubbleObj.y b) (BubbleObj.size b)
    (BubbleObj.radius b) (BubbleObj.lifetime b) (BubbleObj.age b) (BubbleObj.isAlive b)
    vx vy (BubbleObj.wobbleOffset b) (BubbleObj.wobbleSpeed b) momentumX momentumY direction
    (BubbleObj.opacity b) (BubbleObj.theme b) (BubbleObj.hue b) (BubbleObj.hueSpeed b)
    (BubbleObj.sparkleOffset b) (BubbleObj.shimmerPhase b) (BubbleObj.starPositions b).

(** "Set strong initial velocity": the second [switch (side)]. *)
Definition launch (side : nat) (bubble : BubbleObj.t) : Rand BubbleObj.t :=
  let baseSpeed := 0.8 in
  rs <- Math_random ;;
  let randomSpeed := 0.3 + rs * 0.4 in
  match side with
  | 0%nat =>
      r <- Math_random ;;
      ret (launched ((r - 0.5) * 0.3) (- baseSpeed * randomSpeed) bottom 0 (-0.4) bubble)
  | 1%nat =>
      r <- Math_random ;;
      ret (launched (baseSpeed * randomSpeed * 1.5) (-0.2 - r * 0.3) left 0.6 (-0.2) bubble)
  | 2%nat =>
      r <- Math_random ;;
      ret (launched (- baseSpeed * randomSpeed * 1.5) (-0.2 - r * 0.3) right (-0.6) (-0.2)
             bubble)
  | _ =>
      ret (launched 0 0 (BubbleObj.spawnDirection bubble) (BubbleObj.spawnMomentumX bubble)
             (BubbleObj.spawnMomentumY bubble) bubble)
  end.

Section WithMath.
Variable M : Math.lib.

(** [spawnBubble()].  The bubble that [createBubble] returns is the last
    object of the array of the manager: the writes go to that object.
    Nothing in the body throws, so the [catch] is not modelled. *)
Definition spawnBubble (g : t) : Rand t :=
  side <- chooseSide ;;
  point <- spawnPoint g side ;;
  match point with
  | None => ret g
  | Some (x, y) =>
      size <- chooseSize ;;
      rl <- Math_random ;;
      let lifetime := GameConfig.bubbleLifetime (config g) +
                      (rl - 0.5) * GameConfig.bubbleLifetimeVariation (config g) in
      let g1 := set_spawnStats (countSpawn side (spawnStats g)) g in
      match bubbleManager g1 with
      | Some m =>
          '(m1, bubble) <- BubbleManager.createBubble M m x y size lifetime (currentTheme g1) ;;
          bubble' <- launch side bubble ;;
          let last := (List.length (BubbleManager.bubbles m1) - 1)%nat in
          ret (set_bubbleManager
                 (Some (BubbleManager.mk (BubbleManager.maxBubbles m1)
                          (store last bubble' (BubbleManager.bubbles m1))
                          (BubbleManager.bubblePool m1) (BubbleManager.activeCount m1)
                          (BubbleManager.allocated m1)))
                 g1)
      | None => ret g1
      end
  end.

(** [updateBubbleSpawning(deltaTime)] *)
Definition updateBubbleSpawning (g : t) (deltaTime : Q) : Rand t :=
  if negb (gameStarted g) then ret g
  else
    let g1 := set_lastSpawnTime (lastSpawnTime g + deltaTime) g in
    let currentBubbleCount :=
      match bubbleManager g1 with
      | Some m => BubbleManager.getActiveCount m
      | None => 0%Z
      end in
    let targetBubbleCount := inject_Z (GameConfig.maxBubbles (config g1)) * 0.8 in
    let spawnDelay :=
      if inject_Z currentBubbleCount <? targetBubbleCount
      then
        let spawnDelay := nextSpawnDelay g1 * 0.3 in
        if bubbleDensityMultiplier g1 >=? 3.0 then spawnDelay * 0.5 else spawnDelay
      else nextSpawnDelay g1 in
    if (lastSpawnTime g1 >=? spawnDelay) &&
       (currentBubbleCount <? GameConfig.maxBubbles (config g1))%Z
    then
      g2 <- spawnBubble g1 ;;
      let g3 := set_lastSpawnTime 0 g2 in
      delay <- getRandomSpawnDelay g3 ;;
      ret (set_nextSpawnDelay delay g3)
    else ret g1.

(** [spawnReplacementBubble()]; [None] is the [TypeError] of
    [this.bubbleManager.getActiveCount()] on [null]. *)
Definition spawnReplacementBubble (g : t) : Rand (option t) :=
  match bubbleManager g with
  | Some m =>
      if (BubbleManager.getActiveCount m <? GameConfig.maxBubbles (config g))%Z
      then g' <- spawnBubble g ;; ret (Some g')
      else ret (Some g)
  | None => ret None
  end.

End WithMath.

(** [handleSpeedChange(sliderValue)]; [speedLevel] is
    [parseInt(sliderValue)], an integer for the values of the slider. *)
Definition handleSpeedChange (g : t) (speedLevel : Z) : t :=
  if (speedLevel =? 0)%Z then set_bubbleSpeedMultiplier 0.1 g
  else set_bubbleSpeedMultiplier (0.1 + inject_Z speedLevel * 0.19) g.

(** The multiplier that [handleDensityChange] computes. *)
Definition densityMultiplierOf (densityLevel : Z) : Q :=
  if (densityLevel =? 0)%Z then 0.2
  else if (densityLevel <=? 5)%Z then 0.2 + inject_Z densityLevel * 0.16
  else
    let excessLevel := (densityLevel - 5)%Z in
    1.0 + inject_Z excessLevel * 1.0.

(** [handleDensityChange(sliderValue)]; [densityLevel] is
    [parseInt(sliderValue)]. *)
Definition handleDensityChange (g : t) (densityLevel : Z) : t :=
  let g1 := set_bubbleDensityMultiplier (densityMultiplierOf densityLevel) g in
  let baseBubbles := 25 in
  let c := config g1 in
  let c1 := GameConfig.mk (Math_round (baseBubbles * bubbleDensityMultiplier g1))
              (GameConfig.spawnRate c) (GameConfig.spawnRateVariation c)
              (GameConfig.bubbleLifetime c) (GameConfig.bubbleLifetimeVariation c)
              (GameConfig.initialBubbleCount c) in
  let baseInitialBubbles := 8 in
  let c2 := GameConfig.mk (GameConfig.maxBubbles c1)
              (GameConfig.spawnRate c1) (GameConfig.spawnRateVariation c1)
              (GameConfig.bubbleLifetime c1) (GameConfig.bubbleLifetimeVariation c1)
              (Math_round (baseInitialBubbles * bubbleDensityMultiplier g1)) in
  set_config c2 g1.

End BubbleGame.
(** ** Concrete inputs

    [plainMath] is a stand-in for the Math object on which the model runs:
    the square root is exact on squares of rationals (and rounds down to
    six decimals otherwise), the power is exact for exponents 0 and 1, the
    sine is flat.  The general statements below hold for every [Math.lib];
    the concrete runs do not depend on the values of sine, cosine or
    power. *)

Definition plainSqrt (q : Q) : Q :=
  (Z.sqrt (Qnum q * Zpos (Qden q) * 1000000000000) # (Qden q * 1000000))%Q.

Definition plainPow (b e : Q) : Q :=
  if Qeq_bool e 0 then 1 else 1 + e * (b - 1).

Definition plainMath : Math.lib :=
  Math.mk (fun _ => 0) (fun _ => 1) plainSqrt plainPow (355 # 113).

(** Every call of [Math.random()] returns one half. *)
Definition halves : Rng := mkRng (fun _ => 0.5) 0.

Definition screen : Window := mkWindow 1000 800.

(** A physics engine for a 1000 x 800 canvas, before any breeze zone. *)
Definition calmEngine : EngineObj.t :=
  EngineObj.mk 1000 800 (-0.05) 0.995 0.1 0.2 (Vec.mk 0 0) 0 3000 (Vec.mk 0 0) [] false.

(** A classic bubble of the given size at the given place. *)
Definition bubbleAt (a : nat) (x y size : Q) : BubbleObj.t :=
  BubbleObj.mk a x y size (size / 2) 18000 0 true 0 0 0 0.03 0 0 bottom 1 None 200 1 0 0 [].

(** ** Predicates used by the statements *)

(** What [updateBubble] leaves alone. *)
Definition restOf (b : BubbleObj.t) :=
  (BubbleObj.addr b, BubbleObj.size b, BubbleObj.radius b, BubbleObj.lifetime b,
   BubbleObj.age b, BubbleObj.isAlive b, BubbleObj.opacity b, BubbleObj.theme b,
   BubbleObj.hue b, BubbleObj.hueSpeed b, BubbleObj.starPositions b).


(** Three live bubbles on the canvas and the manager that holds them. *)
Definition threeBubbles : BubbleManager.t :=
  BubbleManager.mk 25
    [bubbleAt 0 500 400 100; bubbleAt 1 300 400 100; bubbleAt 2 700 400 100] [] 3 3.

Definition oneBubble : BubbleManager.t :=
  BubbleManager.mk 25 [bubbleAt 0 500 400 100] [] 1 1.


(** *** Pools *)

(** The objects that the bubble manager holds, active ones first. *)
Definition bubbleAddrs (m : BubbleManager.t) : list nat :=
  map BubbleObj.addr (BubbleManager.bubbles m ++ BubbleManager.bubblePool m).

(** The counter is the number of active bubbles; every allocated object is
    in exactly one of the two arrays, once. *)
Definition BubblePoolInv (m : BubbleManager.t) : Prop :=
  BubbleManager.activeCount m = Z.of_nat (List.length (BubbleManager.bubbles m)) /\
  (List.length (BubbleManager.bubbles m) + List.length (BubbleManager.bubblePool m)
   = BubbleManager.allocated m)%nat /\
  NoDup (bubbleAddrs m) /\
  Forall (fun a => (a < BubbleManager.allocated m)%nat) (bubbleAddrs m).

(** The states of a bubble manager that its methods reach. *)
Inductive BubblesReachable (M : Math.lib) : BubbleManager.t -> Prop :=
| reach_new maxBubbles :
    BubblesReachable M (BubbleManager.constructor maxBubbles)
| reach_createBubble m x y size lifetime theme r :
    BubblesReachable M m ->
    BubblesReachable M (fst (fst (BubbleManager.createBubble M m x y size lifetime theme r)))
| reach_update m win now deltaTime pe sm r :
    BubblesReachable M m ->
    BubblesReachable M (fst (fst (BubbleManager.update M win now m deltaTime pe sm r)))
| reach_render m :
    BubblesReachable M m ->
    BubblesReachable M (fst (BubbleManager.render m))
| reach_popBubble m b :
    BubblesReachable M m ->
    BubblesReachable M (BubbleManager.popBubble m b).

Definition particleAddrs (s : ParticleSystem.t) : list nat :=
  map ParticleObj.addr (ParticleSystem.particles s ++ ParticleSystem.particlePool s).

Definition ParticlePoolInv (s : ParticleSystem.t) : Prop :=
  ParticleSystem.activeParticles s = Z.of_nat (List.length (ParticleSystem.particles s)) /\
  (List.length (ParticleSystem.particles s) + List.length (ParticleSystem.particlePool s)
   = ParticleSystem.allocated s)%nat /\
  NoDup (particleAddrs s) /\
  Forall (fun a => (a < ParticleSystem.allocated s)%nat) (particleAddrs s).

(** The states of a particle system that its methods reach; [modes] tells
    whether [enablePerformanceMode], which rewrites [maxParticles], is among
    them. *)
Inductive ParticlesReachable (M : Math.lib) (modes : bool) : ParticleSystem.t -> Prop :=
| reach_newSystem :
    ParticlesReachable M modes ParticleSystem.constructor
| reach_createPopEffect s x y bubbleSize r :
    ParticlesReachable M modes s ->
    ParticlesReachable M modes (fst (ParticleSystem.createPopEffect M x y bubbleSize s r))
| reach_createSplashEffect s x y intensity r :
    ParticlesReachable M modes s ->
    ParticlesReachable M modes (fst (ParticleSystem.createSplashEffect M x y intensity s r))
| reach_updateParticles s win deltaTime :
    ParticlesReachable M modes s ->
    ParticlesReachable M modes (ParticleSystem.update M win s deltaTime)
| reach_clearAll s :
    ParticlesReachable M modes s ->
    ParticlesReachable M modes (ParticleSystem.clearAll s)
| reach_setQualityLevel s level :
    ParticlesReachable M modes s ->
    ParticlesReachable M modes (ParticleSystem.setQualityLevel s level)
| reach_enablePerformanceMode s enabled :
    modes = true ->
    ParticlesReachable M modes s ->
    ParticlesReachable M modes (ParticleSystem.enablePerformanceMode s enabled).

(** *** Hit test *)


(** A manager after [createBubble(500, 400, 40, ...)] and then
    [createBubble(500, 400, 200, ...)]: a small bubble, then a large one
    around the same centre. *)
Definition twoStacked : BubbleManager.t :=
  let '(m1, _, r1) :=
    BubbleManager.createBubble plainMath (BubbleManager.constructor 25) 500 400 40 18000 None halves in
  fst (fst (BubbleManager.createBubble plainMath m1 500 400 200 18000 None r1)).

(** *** Particle systems *)



(** A bubble manager made for two bubbles, after three [createBubble]. *)
Definition threeCreated : BubbleManager.t :=
  let '(m1, _, r1) :=
    BubbleManager.createBubble plainMath (BubbleManager.constructor 2) 100 100 60 18000 None halves in
  let '(m2, _, r2) := BubbleManager.createBubble plainMath m1 200 100 60 18000 None r1 in
  fst (fst (BubbleManager.createBubble plainMath m2 300 100 60 18000 None r2)).

(** *** Audio *)

(** The audio manager after [init()] in a browser whose audio context runs
    at once and where the four sound files were decoded. *)
Definition readyAudio : AudioObj.t :=
  AudioManager.init (AudioManager.constructor true) AudioObj.running
    (AudioObj.mkBuffers (Some (AudioObj.mkBuffer 0.4)) (Some (AudioObj.mkBuffer 0.4))
                        (Some (AudioObj.mkBuffer 0.4)) (Some (AudioObj.mkBuffer 0.4))).

(** The manager with a silent device; [standard] tells whether the device
    rejects values that are not finite, as the Web Audio API prescribes. *)
Definition audioOn (standard : bool) (a : AudioObj.t) : AudioState :=
  mkAudioState a (mkDevice standard 0 [] []) halves.

(** The state after a call. *)
Definition after {A} (call : Eff A) (s : AudioState) : AudioState := snd (call s).

(** Three pops within the same millisecond. *)
Definition threePops (s : AudioState) : AudioState :=
  after (AudioManager.playPopSound 1000 0 150 "classic")
    (after (AudioManager.playPopSound 1000 0 150 "classic")
       (after (AudioManager.playPopSound 1000 0 150 "classic") s)).

(** *** Frames *)

(** A bubble that [Bubble.update] hands to the physics engine: alive, and
    not at the end of its lifetime after the frame. *)
Definition reachesPhysics (deltaTime : Q) (b : BubbleObj.t) : bool :=
  BubbleObj.isAlive b && (BubbleObj.age b + deltaTime <? BubbleObj.lifetime b).

(** The guards of [playPopSound]. *)
Definition audioOpen (a : AudioObj.t) : bool :=
  AudioObj.isEnabled a && negb (AudioObj.isMuted a) && AudioObj.isInitialized a &&
  match AudioObj.audioContext a with
  | Some AudioObj.running | Some AudioObj.closed => true
  | _ => false
  end.

(** A request of the queue that [processQueuedSounds] keeps at [dateNow]. *)
Definition fresh (dateNow : Q) (sound : AudioObj.Queued) : bool :=
  dateNow - AudioObj.timestamp sound <? 100.

(** A computation that ends without an exception, whatever the state. *)
Definition neverThrows {A} (m : Eff A) : Prop :=
  forall s, exists a s', m s = (returns a, s').

(** The nodes that [stopAllSounds] stops: the oscillator and the harmonic
    of every tracked sound. *)
Definition stoppedBy (sounds : list AudioObj.Sound) : list Node :=
  flat_map (fun sound =>
              match AudioObj.oscillator sound with Some o => [o] | None => [] end ++
              match AudioObj.harmonic sound with Some h => [h] | None => [] end) sounds.

(** The frequency that [createPopSound] computes; [None] is [NaN]. *)
Definition popFrequency (a : AudioObj.t) (bubbleSize : Q) : option Q :=
  nanAdd (AudioObj.baseFrequency a)
    (nanMul (AudioObj.frequencyRange a)
       (Some (1 - Math_max 0.3 (Math_min 3.0 (bubbleSize / 150)) * 0.5))).

(** The device accepts the frequency: it is a number, or the device
    takes every value. *)
Definition accepts (s : AudioState) (bubbleSize : Q) : bool :=
  negb (rejectsNonFinite (device s)) || AudioManager.isSome (popFrequency (this s) bubbleSize).

Definition isTimeout (c : Callback) : bool :=
  match c with timeout _ _ => true | _ => false end.

(** The sound that [createPopSound] tracks when the synthesis succeeds in
    state [s]. *)
Definition synthesized (dateNow now bubbleSize : Q) (s : AudioState) : AudioObj.Sound :=
  let n := nextNode (device s) in
  AudioObj.mkSound (dateNow + samples (rng s) (cursor (rng s))) None
    (Some n) (S n) (Some (S (S n))) (Some (S (S (S n)))) now
    (0.08 + Math_max 0.3 (Math_min 3.0 (bubbleSize / 150)) * 0.04).

(** Every run of [m], whether it ends with a result or with an exception,
    takes a state to one that [R] relates to it. *)
Definition preserves {A} (R : AudioState -> AudioState -> Prop) (m : Eff A) : Prop :=
  forall s, R s (after m s).

(** The manager of [s'] is the one of [s] with more tracked sounds. *)
Definition onlyAppends (s s' : AudioState) : Prop :=
  exists added,
    this s' = AudioObj.set_activeSounds (AudioObj.activeSounds (this s) ++ added) (this s).

(** A pop request: [Date.now()], [audioContext.currentTime], and the
    arguments of [playPopSound]. *)
Record Pop := mkPop {
  popDate : Q;
  popTime : Q;
  popSize : Q;
  popTheme : string
}.

(** The game pops one bubble after the other. *)
Definition playAll (pops : list Pop) : Eff unit :=
  AudioManager.forEach
    (fun p => AudioManager.playPopSound (popDate p) (popTime p) (popSize p) (popTheme p)) pops.

(** A device as the Web Audio API prescribes, and the manager as the
    constructor leaves its undefined properties. *)
Definition standardSetup (s : AudioState) : Prop :=
  rejectsNonFinite (device s) = true /\
  AudioObj.baseFrequency (this s) = None /\
  AudioObj.bubblePopBuffer (this s) = None.

(** [n] is not one of [nodes]. *)
Definition notAmong (nodes : list Node) (n : Node) : bool :=
  negb (existsb (Nat.eqb n) nodes).

(** A synthesized sound that is tracked, with its oscillator 0 and its
    harmonic 3 playing beside the buffer source 5 of a sample. *)
Definition oneTracked : AudioState :=
  mkAudioState
    (AudioObj.set_activeSounds
       [AudioObj.mkSound 1000.5 None (Some 0%nat) 1%nat (Some 2%nat) (Some 3%nat) 0 0.12]
       readyAudio)
    (mkDevice true 7 [0%nat; 3%nat; 5%nat] []) halves.

(** The manager in performance mode with both of its slots taken. *)
Definition bothSlotsTaken : AudioState :=
  mkAudioState
    (AudioObj.set_activeSounds
       [AudioObj.mkSound 1000.5 None (Some 0%nat) 1%nat (Some 2%nat) (Some 3%nat) 0 0.12;
        AudioObj.mkSound 1001.5 None (Some 5%nat) 6%nat (Some 7%nat) (Some 8%nat) 0 0.12]
       (AudioManager.enablePerformanceMode readyAudio true))
    (mkDevice true 10 [0%nat; 3%nat; 5%nat; 8%nat] []) halves.

(** *** The game *)

(** [Math.random()] answers within [0, 1). *)
Definition unitSamples (r : Rng) : Prop :=
  forall n, 0 <= samples r n /\ samples r n < 1.

(** A computation draws from the random source and does not replace it. *)
Definition keepsSamples {A} (m : Rand A) : Prop :=
  forall r, samples (snd (m r)) = samples r.

(** [this.bubbleManager ? this.bubbleManager.getActiveCount() : 0] *)
Definition activeBubbles (g : BubbleGame.t) : Z :=
  match BubbleGame.bubbleManager g with
  | Some m => BubbleManager.getActiveCount m
  | None => 0%Z
  end.

(** A started game on a 1000 x 800 canvas with the configuration of the
    constructor and the given bubble manager. *)
Definition gameWith (m : BubbleManager.t) : BubbleGame.t :=
  BubbleGame.mk 1000 800 BubbleGame.defaultConfig true 1.0 1.0 None 0 800
    (SpawnStats.mk 0 0 0) (Some m).
(** * Properties *)

(** ** Comparisons *)

Lemma ltb_true (a b : Q) : (a <? b) = true <-> a < b.
Proof.
  unfold ltb. destruct (Qlt_le_dec a b) as [H|H]; split; intro K; auto; try discriminate.
  exfalso. apply (Qlt_not_le _ _ K H).
Qed.

Lemma ltb_false (a b : Q) : (a <? b) = false <-> b <= a.
Proof.
  unfold ltb. destruct (Qlt_le_dec a b) as [H|H]; split; intro K; auto; try discriminate.
  exfalso. apply (Qlt_not_le _ _ H K).
Qed.

Lemma leb_true (a b : Q) : (a <=? b) = true <-> a <= b.
Proof.
  unfold leb. destruct (Qlt_le_dec b a) as [H|H]; split; intro K; auto; try discriminate.
  exfalso. apply (Qlt_not_le _ _ H K).
Qed.

Lemma leb_false (a b : Q) : (a <=? b) = false <-> b < a.
Proof.
  unfold leb. destruct (Qlt_le_dec b a) as [H|H]; split; intro K; auto; try discriminate.
  exfalso. apply (Qlt_not_le _ _ K H).
Qed.

Lemma gtb_true (a b : Q) : (a >? b) = true <-> b < a.
Proof. apply ltb_true. Qed.

Lemma gtb_false (a b : Q) : (a >? b) = false <-> a <= b.
Proof. apply ltb_false. Qed.

Lemma geb_true (a b : Q) : (a >=? b) = true <-> b <= a.
Proof. apply leb_true. Qed.

Lemma geb_false (a b : Q) : (a >=? b) = false <-> a < b.
Proof. apply leb_false. Qed.

(** Case analysis on the condition of the first conditional of the goal. *)
Ltac case_if :=
  match goal with
  | |- context [if ?c then _ else _] => destruct c eqn:?
  end.

(** ** The physics engine writes position and velocity only *)

Section PhysicsFacts.
Variable M : Math.lib.

Lemma applySizeEffects_rest b dt r :
  restOf (fst (PhysicsEngine.applySizeEffects M b dt r)) = restOf b.
Proof.
  unfold PhysicsEngine.applySizeEffects.
  repeat case_if; reflexivity.
Qed.

Lemma handleBoundaries_rest e b :
  restOf (PhysicsEngine.handleBoundaries e b) = restOf b.
Proof.
  unfold PhysicsEngine.handleBoundaries.
  repeat case_if; reflexivity.
Qed.

Lemma applyAirResistance_rest e b dt :
  restOf (PhysicsEngine.applyAirResistance M e b dt) = restOf b.
Proof.
  unfold PhysicsEngine.applyAirResistance. cbv zeta. case_if; reflexivity.
Qed.

Lemma applyWobble_rest e b dt g :
  restOf (PhysicsEngine.applyWobble M e b dt g) = restOf b.
Proof.
  unfold PhysicsEngine.applyWobble. destruct (EngineObj.simplePhysics e); reflexivity.
Qed.

Lemma applyBuoyancy_rest e b dt g :
  restOf (PhysicsEngine.applyBuoyancy e b dt g) = restOf b.
Proof. reflexivity. Qed.

Lemma applyBreeze_rest e now b dt g :
  restOf (PhysicsEngine.applyBreeze M e now b dt g) = restOf b.
Proof. reflexivity. Qed.

Lemma restOf_set_x v b : restOf (BubbleObj.set_x v b) = restOf b.
Proof. reflexivity. Qed.

Lemma restOf_set_y v b : restOf (BubbleObj.set_y v b) = restOf b.
Proof. reflexivity. Qed.

Lemma updateBubble_rest e now b deltaTime r :
  restOf (snd (fst (PhysicsEngine.updateBubble M e now b deltaTime r))) = restOf b.
Proof.
  unfold PhysicsEngine.updateBubble, bind.
  destruct (PhysicsEngine.updateEnvironmentalForces M e deltaTime r) as [e1 r1].
  cbv zeta.
  match goal with |- context [PhysicsEngine.applySizeEffects M ?b ?dt ?r] =>
    pose proof (applySizeEffects_rest b dt r) as H;
    destruct (PhysicsEngine.applySizeEffects M b dt r) as [b8 r8] end.
  unfold ret. cbn [fst snd] in *. rewrite H.
  rewrite handleBoundaries_rest, restOf_set_y, restOf_set_x, applyAirResistance_rest,
    applyBreeze_rest, applyWobble_rest, applyBuoyancy_rest.
  reflexivity.
Qed.

(** The engine after [updateBubble] is the engine after
    [updateEnvironmentalForces]: the bubble has no part in it. *)
Lemma updateBubble_engine e now b deltaTime r :
  fst (fst (PhysicsEngine.updateBubble M e now b deltaTime r)) =
  fst (PhysicsEngine.updateEnvironmentalForces M e deltaTime r).
Proof.
  unfold PhysicsEngine.updateBubble, bind.
  destruct (PhysicsEngine.updateEnvironmentalForces M e deltaTime r) as [e1 r1].
  cbv zeta.
  match goal with |- context [PhysicsEngine.applySizeEffects M ?b ?dt ?r] =>
    destruct (PhysicsEngine.applySizeEffects M b dt r) as [b8 r8] end.
  reflexivity.
Qed.

End PhysicsFacts.
(** ** Bubble.update *)

Section BubbleUpdateFacts.
Variable M : Math.lib.

Lemma fade_bounds (age lifetime : Q) :
  0 <= age -> age < lifetime -> 0.92 < age / lifetime ->
  0 <= 1 - (age / lifetime - 0.92) / 0.08 /\ 1 - (age / lifetime - 0.92) / 0.08 < 1.
Proof.
  intros Ha Hl Hr.
  assert (Hpos : 0 < lifetime) by (eapply Qle_lt_trans; eauto).
  assert (H1 : age / lifetime < 1).
  { apply Qlt_shift_div_r; [exact Hpos|]. rewrite Qmult_1_l. exact Hl. }
  set (q := age / lifetime) in *.
  unfold Qdiv. change (/ 0.08) with (100 # 8).
  split; lra.
Qed.

Lemma animateTheme_fade b :
  BubbleObj.age (Bubble.animateTheme b) = BubbleObj.age b /\
  BubbleObj.lifetime (Bubble.animateTheme b) = BubbleObj.lifetime b /\
  BubbleObj.opacity (Bubble.animateTheme b) = BubbleObj.opacity b /\
  BubbleObj.addr (Bubble.animateTheme b) = BubbleObj.addr b /\
  BubbleObj.isAlive (Bubble.animateTheme b) = BubbleObj.isAlive b /\
  BubbleObj.size (Bubble.animateTheme b) = BubbleObj.size b.
Proof.
  unfold Bubble.animateTheme. destruct (BubbleObj.theme b) as [th|]; [|repeat split].
  destruct (Theme.shimmer th), (Theme.sparkle th), (Theme.stars th); repeat split.
Qed.

Lemma update_dead win now b deltaTime pe sm r :
  BubbleObj.isAlive b = false ->
  Bubble.update M win now b deltaTime pe sm r = (pe, b, r).
Proof. intro H. unfold Bubble.update. rewrite H. reflexivity. Qed.

Lemma update_expired win now b deltaTime pe sm r :
  BubbleObj.isAlive b = true ->
  BubbleObj.lifetime b <= BubbleObj.age b + deltaTime ->
  Bubble.update M win now b deltaTime pe sm r =
  (pe, BubbleObj.set_isAlive false (BubbleObj.set_age (BubbleObj.age b + deltaTime) b), r).
Proof.
  intros H L. unfold Bubble.update. rewrite H. cbn [negb]. cbv zeta.
  replace (BubbleObj.age (BubbleObj.set_age (BubbleObj.age b + deltaTime) b) >=?
           BubbleObj.lifetime (BubbleObj.set_age (BubbleObj.age b + deltaTime) b)) with true.
  - reflexivity.
  - symmetry. apply geb_true. exact L.
Qed.

Lemma cycleHue_fields b :
  BubbleObj.age (Bubble.cycleHue b) = BubbleObj.age b /\
  BubbleObj.lifetime (Bubble.cycleHue b) = BubbleObj.lifetime b /\
  BubbleObj.opacity (Bubble.cycleHue b) = BubbleObj.opacity b /\
  BubbleObj.addr (Bubble.cycleHue b) = BubbleObj.addr b /\
  BubbleObj.isAlive (Bubble.cycleHue b) = BubbleObj.isAlive b /\
  BubbleObj.size (Bubble.cycleHue b) = BubbleObj.size b.
Proof. unfold Bubble.cycleHue. cbv zeta. case_if; repeat split. Qed.

Lemma fade_fields b :
  BubbleObj.age (Bubble.fade b) = BubbleObj.age b /\
  BubbleObj.lifetime (Bubble.fade b) = BubbleObj.lifetime b /\
  BubbleObj.addr (Bubble.fade b) = BubbleObj.addr b /\
  BubbleObj.isAlive (Bubble.fade b) = BubbleObj.isAlive b /\
  BubbleObj.size (Bubble.fade b) = BubbleObj.size b /\
  BubbleObj.x (Bubble.fade b) = BubbleObj.x b /\
  BubbleObj.y (Bubble.fade b) = BubbleObj.y b.
Proof. unfold Bubble.fade. cbv zeta. case_if; repeat split. Qed.

Lemma fade_opacity b :
  BubbleObj.opacity (Bubble.fade b) =
  if BubbleObj.age b / BubbleObj.lifetime b >? 0.92
  then 1 - (BubbleObj.age b / BubbleObj.lifetime b - 0.92) / 0.08
  else BubbleObj.opacity b.
Proof. unfold Bubble.fade. cbv zeta. case_if; reflexivity. Qed.

Lemma move_rest now b1 deltaTime pe sm r :
  restOf (snd (fst (Bubble.move M now b1 deltaTime pe sm r))) = restOf b1.
Proof.
  destruct pe as [e|]; [|reflexivity].
  unfold Bubble.move, bind.
  pose proof (updateBubble_rest M e now b1 deltaTime r) as H.
  destruct (PhysicsEngine.updateBubble M e now b1 deltaTime r) as [[e' b'] r'].
  exact H.
Qed.

(** The bubble that [update] works on once it is known to stay alive:
    after the move and the visual updates. *)
Lemma update_running win now b deltaTime pe sm r :
  BubbleObj.isAlive b = true ->
  BubbleObj.age b + deltaTime < BubbleObj.lifetime b ->
  let b' := snd (fst (Bubble.update M win now b deltaTime pe sm r)) in
  BubbleObj.addr b' = BubbleObj.addr b /\
  BubbleObj.size b' = BubbleObj.size b /\
  BubbleObj.lifetime b' = BubbleObj.lifetime b /\
  BubbleObj.age b' = BubbleObj.age b + deltaTime /\
  BubbleObj.opacity b' =
    (if (BubbleObj.age b + deltaTime) / BubbleObj.lifetime b >? 0.92
     then 1 - ((BubbleObj.age b + deltaTime) / BubbleObj.lifetime b - 0.92) / 0.08
     else BubbleObj.opacity b).
Proof.
  intros H L. unfold Bubble.update. rewrite H. cbn [negb]. cbv zeta.
  replace (BubbleObj.age (BubbleObj.set_age (BubbleObj.age b + deltaTime) b) >=?
           BubbleObj.lifetime (BubbleObj.set_age (BubbleObj.age b + deltaTime) b)) with false
    by (symmetry; apply geb_false; exact L).
  unfold bind.
  pose proof (move_rest now (BubbleObj.set_age (BubbleObj.age b + deltaTime) b)
                deltaTime pe sm r) as R.
  destruct (Bubble.move M now (BubbleObj.set_age (BubbleObj.age b + deltaTime) b)
              deltaTime pe sm r) as [[pe' b2] r2].
  cbn [fst snd] in R. unfold restOf in R.
  injection R as Ra Rs Rr Rl Rg Ri Ro Rt Rh Rhs Rsp.
  cbn [BubbleObj.set_age BubbleObj.addr BubbleObj.size BubbleObj.lifetime BubbleObj.age
       BubbleObj.opacity] in Ra, Rs, Rl, Rg, Ro.
  destruct (fade_fields (Bubble.animateTheme (Bubble.cycleHue b2)))
    as (Fa & Fl & Fd & _ & Fs & _).
  destruct (animateTheme_fade (Bubble.cycleHue b2)) as (Aa & Al & Ao & Ad & _ & As).
  destruct (cycleHue_fields b2) as (Ca & Cl & Co & Cd & _ & Cs).
  pose proof (fade_opacity (Bubble.animateTheme (Bubble.cycleHue b2))) as Fo.
  rewrite Aa, Al, Ao, Ca, Cl, Co, Rg, Rl, Ro in Fo.
  assert (K : forall c,
    BubbleObj.addr c = BubbleObj.addr (Bubble.fade (Bubble.animateTheme (Bubble.cycleHue b2))) ->
    BubbleObj.size c = BubbleObj.size (Bubble.fade (Bubble.animateTheme (Bubble.cycleHue b2))) ->
    BubbleObj.lifetime c = BubbleObj.lifetime (Bubble.fade (Bubble.animateTheme (Bubble.cycleHue b2))) ->
    BubbleObj.age c = BubbleObj.age (Bubble.fade (Bubble.animateTheme (Bubble.cycleHue b2))) ->
    BubbleObj.opacity c = BubbleObj.opacity (Bubble.fade (Bubble.animateTheme (Bubble.cycleHue b2))) ->
    BubbleObj.addr c = BubbleObj.addr b /\
    BubbleObj.size c = BubbleObj.size b /\
    BubbleObj.lifetime c = BubbleObj.lifetime b /\
    BubbleObj.age c = BubbleObj.age b + deltaTime /\
    BubbleObj.opacity c =
      (if (BubbleObj.age b + deltaTime) / BubbleObj.lifetime b >? 0.92
       then 1 - ((BubbleObj.age b + deltaTime) / BubbleObj.lifetime b - 0.92) / 0.08
       else BubbleObj.opacity b)).
  { intros c E1 E2 E3 E4 E5. rewrite E1, E2, E3, E4, E5.
    repeat split; congruence. }
  case_if; unfold ret; cbn [fst snd]; apply K; reflexivity.
Qed.

End BubbleUpdateFacts.
(** ** Opacity of a bubble *)

(** C9.  A bubble starts with opacity 1 and age 0 (constructor and
    [resetBubble]).  An [update] with a non-negative [deltaTime] keeps the
    age non-negative and the opacity within [0, 1], and the opacity goes
    down in an update only when the ratio of age to lifetime is above
    0.92 after the update. *)
Theorem Bubble_opacity_within_bounds :
  forall (M : Math.lib),
    (forall a x y size lifetime theme r,
        BubbleObj.opacity (fst (Bubble.constructor M a x y size lifetime theme r)) = 1 /\
        BubbleObj.age (fst (Bubble.constructor M a x y size lifetime theme r)) = 0) /\
    (forall b x y size lifetime theme r,
        BubbleObj.opacity (fst (BubbleManager.resetBubble M b x y size lifetime theme r)) = 1 /\
        BubbleObj.age (fst (BubbleManager.resetBubble M b x y size lifetime theme r)) = 0) /\
    (forall win now b deltaTime pe sm r,
        0 <= BubbleObj.age b ->
        0 <= deltaTime ->
        0 <= BubbleObj.opacity b <= 1 ->
        let b' := snd (fst (Bubble.update M win now b deltaTime pe sm r)) in
        0 <= BubbleObj.age b' /\
        0 <= BubbleObj.opacity b' <= 1 /\
        (BubbleObj.opacity b' < BubbleObj.opacity b ->
         0.92 < BubbleObj.age b' / BubbleObj.lifetime b')).
Proof.
  intro M. split; [|split].
  - intros. unfold Bubble.constructor, bind, Math_random. cbn [fst snd].
    destruct (Bubble.hasStars theme).
    + destruct (Bubble.generateStarPositions M (size / 2) _). split; reflexivity.
    + split; reflexivity.
  - intros. unfold BubbleManager.resetBubble, bind, Math_random. cbn [fst snd].
    destruct (Bubble.hasStars theme).
    + destruct (Bubble.generateStarPositions M (size / 2) _). split; reflexivity.
    + split; reflexivity.
  - intros win now b deltaTime pe sm r Hage Hdt Hop b'. subst b'.
    destruct (BubbleObj.isAlive b) eqn:Halive.
    + destruct (Qlt_le_dec (BubbleObj.age b + deltaTime) (BubbleObj.lifetime b)) as [L|L].
      * destruct (update_running M win now b deltaTime pe sm r Halive L)
          as (_ & _ & El & Ea & Eo).
        rewrite El, Ea, Eo.
        assert (Hage' : 0 <= BubbleObj.age b + deltaTime) by lra.
        destruct ((BubbleObj.age b + deltaTime) / BubbleObj.lifetime b >? 0.92) eqn:F.
        -- apply gtb_true in F.
           destruct (fade_bounds _ _ Hage' L F) as [B1 B2].
           repeat split; first [lra | intros _; exact F].
        -- repeat split; first [lra | intro K; exfalso; apply (Qlt_irrefl _ K)].
      * rewrite (update_expired M win now b deltaTime pe sm r Halive L). cbn [fst snd].
        cbn [BubbleObj.age BubbleObj.opacity BubbleObj.set_isAlive BubbleObj.set_age].
        repeat split; first [lra | intro K; exfalso; apply (Qlt_irrefl _ K)].
    + rewrite (update_dead M win now b deltaTime pe sm r Halive). cbn [fst snd].
      repeat split; first [lra | intro K; exfalso; apply (Qlt_irrefl _ K)].
Qed.

Lemma Bubble_opacity_within_bounds_witness :
  let b := BubbleObj.set_age 16900 (bubbleAt 0 500 400 100) in
  let b' := snd (fst (Bubble.update plainMath screen 0 b 100 (Some calmEngine) 1 halves)) in
  0 <= BubbleObj.age b' /\
  0 <= BubbleObj.opacity b' <= 1 /\
  (BubbleObj.opacity b' < BubbleObj.opacity b ->
   0.92 < BubbleObj.age b' / BubbleObj.lifetime b').
Proof.
  intros b b'.
  apply (proj2 (proj2 (Bubble_opacity_within_bounds plainMath))).
  - vm_compute. discriminate.
  - vm_compute. discriminate.
  - split; vm_compute; discriminate.
Defined.

(** ** The speed multiplier *)

(** C10.  With a physics engine, [Bubble.update] gives the same result for
    any two speed multipliers; without one the multiplier scales the
    step. *)
Theorem Bubble_update_speedMultiplier_unused_with_engine :
  (forall (M : Math.lib) win now b deltaTime e s1 s2 r,
      Bubble.update M win now b deltaTime (Some e) s1 r =
      Bubble.update M win now b deltaTime (Some e) s2 r) /\
  (exists b,
      ~ BubbleObj.x (snd (fst (Bubble.update plainMath screen 0 b 16 None 1 halves))) ==
        BubbleObj.x (snd (fst (Bubble.update plainMath screen 0 b 16 None 2 halves)))).
Proof.
  split.
  - reflexivity.
  - exists (BubbleObj.set_vx 1 (bubbleAt 0 500 400 100)). vm_compute. discriminate.
Qed.

(** ** The spawn grace period *)

Lemma isInSpawnGracePeriod_spec e b :
  PhysicsEngine.isInSpawnGracePeriod e b = true <->
  BubbleObj.age b <= 2000 /\
  ~ (-50 < BubbleObj.x b /\ BubbleObj.x b < EngineObj.width e + 50 /\
     -50 < BubbleObj.y b /\ BubbleObj.y b < EngineObj.height e + 50).
Proof.
  unfold PhysicsEngine.isInSpawnGracePeriod. cbv zeta.
  destruct (BubbleObj.age b >? 2000) eqn:A.
  - apply gtb_true in A. split; [discriminate|]. intros [K _]. lra.
  - apply gtb_false in A. rewrite negb_true_iff.
    destruct (BubbleObj.x b >? - (50)) eqn:X1; cbn [andb].
    2:{ apply gtb_false in X1. split; [|reflexivity]. intros _. split; [exact A|]. lra. }
    destruct (BubbleObj.x b <? EngineObj.width e + 50) eqn:X2; cbn [andb].
    2:{ apply ltb_false in X2. split; [|reflexivity]. intros _. split; [exact A|]. lra. }
    destruct (BubbleObj.y b >? - (50)) eqn:Y1; cbn [andb].
    2:{ apply gtb_false in Y1. split; [|reflexivity]. intros _. split; [exact A|]. lra. }
    destruct (BubbleObj.y b <? EngineObj.height e + 50) eqn:Y2.
    2:{ apply ltb_false in Y2. split; [|reflexivity]. intros _. split; [exact A|]. lra. }
    apply gtb_true in X1, Y1. apply ltb_true in X2, Y2.
    split; [discriminate|]. intros [_ K]. exfalso. apply K. repeat split; lra.
Qed.

(** C3 (amended).  A bubble is in the grace period when its age is at most
    2000 and it lies outside the canvas widened by 50 on every side; the
    factor is then 0.1, else 1.  The factor scales the velocity changes of
    buoyancy, wobble and wind (breeze); air resistance, the position
    update, the boundary forces and the size effects take no factor. *)
Theorem grace_factor_scales_buoyancy_wobble_breeze :
  forall (M : Math.lib) e now b dt g,
    (PhysicsEngine.isInSpawnGracePeriod e b = true <->
     BubbleObj.age b <= 2000 /\
     ~ (-50 < BubbleObj.x b /\ BubbleObj.x b < EngineObj.width e + 50 /\
        -50 < BubbleObj.y b /\ BubbleObj.y b < EngineObj.height e + 50)) /\
    PhysicsEngine.graceFactorOf e b =
      (if PhysicsEngine.isInSpawnGracePeriod e b then 0.1 else 1.0) /\
    BubbleObj.vy (PhysicsEngine.applyBuoyancy e b dt g) - BubbleObj.vy b ==
      g * (BubbleObj.vy (PhysicsEngine.applyBuoyancy e b dt 1) - BubbleObj.vy b) /\
    BubbleObj.vx (PhysicsEngine.applyWobble M e b dt g) - BubbleObj.vx b ==
      g * (BubbleObj.vx (PhysicsEngine.applyWobble M e b dt 1) - BubbleObj.vx b) /\
    BubbleObj.vy (PhysicsEngine.applyWobble M e b dt g) - BubbleObj.vy b ==
      g * (BubbleObj.vy (PhysicsEngine.applyWobble M e b dt 1) - BubbleObj.vy b) /\
    BubbleObj.vx (PhysicsEngine.applyBreeze M e now b dt g) - BubbleObj.vx b ==
      g * (BubbleObj.vx (PhysicsEngine.applyBreeze M e now b dt 1) - BubbleObj.vx b) /\
    BubbleObj.vy (PhysicsEngine.applyBreeze M e now b dt g) - BubbleObj.vy b ==
      g * (BubbleObj.vy (PhysicsEngine.applyBreeze M e now b dt 1) - BubbleObj.vy b) /\
    (forall deltaTime r,
        PhysicsEngine.updateBubble M e now b deltaTime r =
        let (e1, r1) := PhysicsEngine.updateEnvironmentalForces M e deltaTime r in
        let step := Math_min (deltaTime / 16.67) 2 in
        let factor := PhysicsEngine.graceFactorOf e1 b in
        let b3 := PhysicsEngine.applyBreeze M e1 now
                    (PhysicsEngine.applyWobble M e1
                       (PhysicsEngine.applyBuoyancy e1 b step factor) step factor)
                    step factor in
        let b4 := PhysicsEngine.applyAirResistance M e1 b3 step in
        let b5 := BubbleObj.set_x (BubbleObj.x b4 + BubbleObj.vx b4 * step) b4 in
        let b6 := BubbleObj.set_y (BubbleObj.y b5 + BubbleObj.vy b5 * step) b5 in
        let (b8, r8) := PhysicsEngine.applySizeEffects M
                          (PhysicsEngine.handleBoundaries e1 b6) step r1 in
        (e1, b8, r8)).
Proof.
  intros M e now b dt g.
  split; [apply isInSpawnGracePeriod_spec|].
  split; [reflexivity|].
  split.
  { unfold PhysicsEngine.applyBuoyancy.
    cbn [BubbleObj.vy BubbleObj.set_vy]. ring. }
  split.
  { unfold PhysicsEngine.applyWobble. destruct (EngineObj.simplePhysics e).
    - ring.
    - cbn [BubbleObj.vx BubbleObj.vy BubbleObj.set_vx BubbleObj.set_vy BubbleObj.size]. ring. }
  split.
  { unfold PhysicsEngine.applyWobble. destruct (EngineObj.simplePhysics e).
    - ring.
    - cbn [BubbleObj.vx BubbleObj.vy BubbleObj.set_vx BubbleObj.set_vy BubbleObj.size]. ring. }
  split.
  { unfold PhysicsEngine.applyBreeze.
    cbn [BubbleObj.vx BubbleObj.vy BubbleObj.set_vx BubbleObj.set_vy BubbleObj.size
         BubbleObj.x BubbleObj.y]. ring. }
  split.
  { unfold PhysicsEngine.applyBreeze.
    cbn [BubbleObj.vx BubbleObj.vy BubbleObj.set_vx BubbleObj.set_vy BubbleObj.size
         BubbleObj.x BubbleObj.y]. ring. }
  intros deltaTime r. unfold PhysicsEngine.updateBubble, bind.
  destruct (PhysicsEngine.updateEnvironmentalForces M e deltaTime r) as [e1 r1].
  cbv zeta.
  match goal with |- context [PhysicsEngine.applySizeEffects M ?b ?dt ?r] =>
    destruct (PhysicsEngine.applySizeEffects M b dt r) as [b8 r8] end.
  reflexivity.
Qed.

(** The claim as stated fails: in the grace period buoyancy is scaled to a
    tenth, and the boundary force is not. *)
Lemma grace_period_counterexample :
  let e := calmEngine in
  let b := bubbleAt 0 0 860 100 in
  PhysicsEngine.isInSpawnGracePeriod e b = true /\
  BubbleObj.vy (PhysicsEngine.applyBuoyancy e b 1 (PhysicsEngine.graceFactorOf e b)) == -0.01 /\
  BubbleObj.vy (PhysicsEngine.applyBuoyancy e b 1 1) == -0.1 /\
  BubbleObj.vx (PhysicsEngine.handleBoundaries e b) - BubbleObj.vx b == 0.05.
Proof. vm_compute. repeat split. Qed.

(** ** The wind clock *)

(** ** Arrays *)

Section ArrayFacts.
Context {A : Type}.

Lemma pop_some (l : list A) a rest : pop l = Some (a, rest) <-> l = rest ++ [a].
Proof.
  unfold pop. split.
  - destruct (rev l) as [|x r] eqn:E; [discriminate|].
    intro H. injection H as <- <-.
    rewrite <- (rev_involutive l), E. reflexivity.
  - intros ->. rewrite rev_app_distr. cbn. rewrite rev_involutive. reflexivity.
Qed.

Lemma pop_none (l : list A) : pop l = None <-> l = [].
Proof.
  unfold pop. split.
  - destruct (rev l) as [|x r] eqn:E; [|discriminate].
    intros _. rewrite <- (rev_involutive l), E. reflexivity.
  - intros ->. reflexivity.
Qed.

Lemma push_length (l : list A) a : List.length (push l a) = S (List.length l).
Proof. unfold push. rewrite length_app. cbn. lia. Qed.

Lemma store_length i (a : A) l : List.length (store i a l) = List.length l.
Proof.
  revert i. induction l as [|b l IH]; intros [|i]; cbn; auto.
Qed.

Lemma store_map {B} (f : A -> B) i a a0 l :
  nth_error l i = Some a0 -> f a = f a0 -> map f (store i a l) = map f l.
Proof.
  revert i. induction l as [|b l IH]; intros [|i] H E; cbn in *; try discriminate.
  - injection H as ->. rewrite E. reflexivity.
  - f_equal. apply IH; assumption.
Qed.

Lemma store_nth i (a : A) l :
  (i < List.length l)%nat -> nth_error (store i a l) i = Some a.
Proof.
  revert i. induction l as [|b l IH]; intros [|i] H; cbn in *; try lia; auto.
  apply IH. lia.
Qed.

Lemma store_nth_other i j (a : A) l :
  i <> j -> nth_error (store i a l) j = nth_error l j.
Proof.
  revert i j. induction l as [|b l IH]; intros [|i] [|j] H; cbn; auto; try congruence.
Qed.

Lemma splice1_length i (a : A) l :
  nth_error l i = Some a -> S (List.length (splice1 i l)) = List.length l.
Proof.
  revert i. induction l as [|b l IH]; intros [|i] H; cbn in *; try discriminate; auto.
Qed.

Lemma splice1_perm i (a : A) l :
  nth_error l i = Some a -> Permutation l (a :: splice1 i l).
Proof.
  revert i. induction l as [|b l IH]; intros [|i] H; cbn in *; try discriminate.
  - injection H as ->. apply Permutation_refl.
  - eapply perm_trans; [apply perm_skip, IH, H|]. apply perm_swap.
Qed.

Lemma splice1_outside i (l : list A) :
  nth_error l i = None -> splice1 i l = l.
Proof.
  revert i. induction l as [|b l IH]; intros [|i] H; cbn in *; try discriminate; auto.
  f_equal. apply IH. exact H.
Qed.

(** Elements before the removed index keep their place. *)
Lemma splice1_nth_before i j (l : list A) :
  (j < i)%nat -> nth_error (splice1 i l) j = nth_error l j.
Proof.
  revert i j. induction l as [|b l IH]; intros [|i] [|j] H; cbn; auto; try lia.
  apply IH. lia.
Qed.

End ArrayFacts.
(** ** The bubble pool *)

Section BubblePoolFacts.
Variable M : Math.lib.

Lemma update_addr win now b deltaTime pe sm r :
  BubbleObj.addr (snd (fst (Bubble.update M win now b deltaTime pe sm r))) = BubbleObj.addr b.
Proof.
  destruct (BubbleObj.isAlive b) eqn:Halive.
  - destruct (Qlt_le_dec (BubbleObj.age b + deltaTime) (BubbleObj.lifetime b)) as [L|L].
    + apply (update_running M win now b deltaTime pe sm r Halive L).
    + rewrite (update_expired M win now b deltaTime pe sm r Halive L). reflexivity.
  - rewrite (update_dead M win now b deltaTime pe sm r Halive). reflexivity.
Qed.

Lemma constructor_addr a x y size lifetime theme r :
  BubbleObj.addr (fst (Bubble.constructor M a x y size lifetime theme r)) = a.
Proof.
  unfold Bubble.constructor, bind, Math_random. cbn [fst snd].
  destruct (Bubble.hasStars theme).
  - destruct (Bubble.generateStarPositions M (size / 2) _). reflexivity.
  - reflexivity.
Qed.

Lemma resetBubble_addr b x y size lifetime theme r :
  BubbleObj.addr (fst (BubbleManager.resetBubble M b x y size lifetime theme r)) = BubbleObj.addr b.
Proof.
  unfold BubbleManager.resetBubble, bind, Math_random. cbn [fst snd].
  destruct (Bubble.hasStars theme).
  - destruct (Bubble.generateStarPositions M (size / 2) _). reflexivity.
  - reflexivity.
Qed.

Lemma BubblePoolInv_new maxBubbles : BubblePoolInv (BubbleManager.constructor maxBubbles).
Proof.
  unfold BubblePoolInv, bubbleAddrs. cbn. repeat split; constructor.
Qed.

Lemma BubblePoolInv_createBubble m x y size lifetime theme r :
  BubblePoolInv m ->
  BubblePoolInv (fst (fst (BubbleManager.createBubble M m x y size lifetime theme r))).
Proof.
  intros (Hc & Hl & Hn & Hf). unfold BubbleManager.createBubble.
  destruct (pop (BubbleManager.bubblePool m)) as [[pooled rest]|] eqn:P.
  - apply pop_some in P. unfold bind, ret.
    pose proof (resetBubble_addr pooled x y size lifetime theme r) as Ea.
    destruct (BubbleManager.resetBubble M pooled x y size lifetime theme r) as [bubble r'].
    cbn [fst snd] in *. unfold BubblePoolInv, bubbleAddrs in *.
    cbn [BubbleManager.bubbles BubbleManager.bubblePool BubbleManager.activeCount
         BubbleManager.allocated].
    rewrite P in Hl, Hn, Hf.
    rewrite push_length. rewrite length_app in Hl. cbn in Hl.
    assert (Hp : Permutation
                   (map BubbleObj.addr (BubbleManager.bubbles m ++ rest ++ [pooled]))
                   (map BubbleObj.addr (push (BubbleManager.bubbles m) bubble ++ rest))).
    { unfold push. rewrite !map_app. cbn [map]. rewrite Ea.
      rewrite <- app_assoc. apply Permutation_app_head. apply Permutation_app_comm. }
    repeat split.
    + lia.
    + lia.
    + eapply Permutation_NoDup; eauto.
    + eapply Permutation_Forall; eauto.
  - apply pop_none in P. unfold bind, ret.
    pose proof (constructor_addr (BubbleManager.allocated m) x y size lifetime theme r) as Ea.
    destruct (Bubble.constructor M (BubbleManager.allocated m) x y size lifetime theme r)
      as [bubble r'].
    cbn [fst snd] in *. unfold BubblePoolInv, bubbleAddrs in *.
    cbn [BubbleManager.bubbles BubbleManager.bubblePool BubbleManager.activeCount
         BubbleManager.allocated].
    rewrite P in *. rewrite app_nil_r in *. cbn [List.length] in Hl.
    rewrite push_length. unfold push. rewrite map_app. cbn [map]. rewrite Ea.
    repeat split.
    + lia.
    + cbn. lia.
    + apply NoDup_app.
      * exact Hn.
      * constructor; [intros []|constructor].
      * intros a Ha [Hb|[]]. subst a. rewrite Forall_forall in Hf.
        specialize (Hf _ Ha). lia.
    + apply Forall_app. split.
      * eapply Forall_impl; [|exact Hf]. cbn. intros. lia.
      * constructor; [lia|constructor].
Qed.

Lemma BubblePoolInv_removeBubble m i :
  (i < List.length (BubbleManager.bubbles m))%nat ->
  BubblePoolInv m -> BubblePoolInv (BubbleManager.removeBubble m i).
Proof.
  intros Hi (Hc & Hl & Hn & Hf). unfold BubbleManager.removeBubble.
  destruct (nth_error (BubbleManager.bubbles m) i) as [bubble|] eqn:E.
  2:{ apply nth_error_None in E. lia. }
  unfold BubblePoolInv, bubbleAddrs in *.
  cbn [BubbleManager.bubbles BubbleManager.bubblePool BubbleManager.activeCount
       BubbleManager.allocated].
  pose proof (splice1_length _ _ _ E) as Sl.
  pose proof (splice1_perm _ _ _ E) as Sp.
  assert (Hp : Permutation
                 (map BubbleObj.addr (BubbleManager.bubbles m ++ BubbleManager.bubblePool m))
                 (map BubbleObj.addr (splice1 i (BubbleManager.bubbles m) ++
                                      push (BubbleManager.bubblePool m) bubble))).
  { apply Permutation_map. unfold push.
    eapply perm_trans; [apply Permutation_app_tail, Sp|].
    cbn [app]. rewrite app_assoc. apply Permutation_cons_append. }
  rewrite push_length.
  repeat split.
  - lia.
  - lia.
  - eapply Permutation_NoDup; eauto.
  - eapply Permutation_Forall; eauto.
Qed.

Lemma BubblePoolInv_updateAt win now deltaTime sm i m pe r :
  BubblePoolInv m ->
  BubblePoolInv (fst (fst (BubbleManager.updateAt M win now deltaTime sm i (m, pe) r))).
Proof.
  intros Hinv. unfold BubbleManager.updateAt.
  destruct (nth_error (BubbleManager.bubbles m) i) as [bubble|] eqn:E; [|exact Hinv].
  unfold bind.
  pose proof (update_addr win now bubble deltaTime pe sm r) as Ea.
  destruct (Bubble.update M win now bubble deltaTime pe sm r) as [[pe' bubble'] r'].
  cbn [fst snd] in Ea.
  assert (Hi : (i < List.length (BubbleManager.bubbles m))%nat).
  { apply nth_error_Some. congruence. }
  assert (H1 : BubblePoolInv
                 (BubbleManager.mk (BubbleManager.maxBubbles m)
                    (store i bubble' (BubbleManager.bubbles m))
                    (BubbleManager.bubblePool m) (BubbleManager.activeCount m)
                    (BubbleManager.allocated m))).
  { destruct Hinv as (Hc & Hl & Hn & Hf). unfold BubblePoolInv, bubbleAddrs in *.
    cbn [BubbleManager.bubbles BubbleManager.bubblePool BubbleManager.activeCount
         BubbleManager.allocated].
    rewrite store_length. rewrite map_app in *.
    rewrite (store_map BubbleObj.addr i bubble' bubble _ E Ea).
    repeat split; assumption. }
  destruct (negb (BubbleObj.isAlive bubble')); unfold ret; cbn [fst].
  - apply BubblePoolInv_removeBubble; [|exact H1].
    cbn [BubbleManager.bubbles]. rewrite store_length. exact Hi.
  - exact H1.
Qed.

Lemma BubblePoolInv_updateFrom win now deltaTime sm k m pe r :
  BubblePoolInv m ->
  BubblePoolInv (fst (fst (BubbleManager.updateFrom M win now deltaTime sm k (m, pe) r))).
Proof.
  revert m pe r. induction k as [|i IH]; intros m pe r Hinv.
  - exact Hinv.
  - cbn [BubbleManager.updateFrom]. unfold bind.
    pose proof (BubblePoolInv_updateAt win now deltaTime sm i m pe r Hinv) as H1.
    destruct (BubbleManager.updateAt M win now deltaTime sm i (m, pe) r) as [[m1 pe1] r1].
    apply IH. exact H1.
Qed.

Lemma insertBySize_perm a l : Permutation (a :: l) (BubbleManager.insertBySize a l).
Proof.
  induction l as [|b l IH]; cbn.
  - apply Permutation_refl.
  - case_if.
    + apply Permutation_refl.
    + eapply perm_trans; [apply perm_swap|]. apply perm_skip, IH.
Qed.

Lemma sortBySizeDesc_perm l : Permutation l (BubbleManager.sortBySizeDesc l).
Proof.
  induction l as [|a l IH]; cbn.
  - apply Permutation_refl.
  - eapply perm_trans; [apply perm_skip, IH|]. apply insertBySize_perm.
Qed.

Lemma BubblePoolInv_render m : BubblePoolInv m -> BubblePoolInv (fst (BubbleManager.render m)).
Proof.
  intros (Hc & Hl & Hn & Hf). unfold BubbleManager.render, BubblePoolInv, bubbleAddrs in *.
  cbn [fst BubbleManager.bubbles BubbleManager.bubblePool BubbleManager.activeCount
       BubbleManager.allocated].
  pose proof (sortBySizeDesc_perm (BubbleManager.bubbles m)) as Sp.
  rewrite <- (Permutation_length Sp).
  assert (Hp : Permutation
                 (map BubbleObj.addr (BubbleManager.bubbles m ++ BubbleManager.bubblePool m))
                 (map BubbleObj.addr (BubbleManager.sortBySizeDesc (BubbleManager.bubbles m) ++
                                      BubbleManager.bubblePool m))).
  { apply Permutation_map, Permutation_app_tail, Sp. }
  repeat split; auto.
  - eapply Permutation_NoDup; eauto.
  - eapply Permutation_Forall; eauto.
Qed.

Lemma BubblePoolInv_popBubble m b : BubblePoolInv m -> BubblePoolInv (BubbleManager.popBubble m b).
Proof.
  intros (Hc & Hl & Hn & Hf). unfold BubbleManager.popBubble, BubblePoolInv, bubbleAddrs in *.
  cbn [BubbleManager.bubbles BubbleManager.bubblePool BubbleManager.activeCount
       BubbleManager.allocated].
  rewrite length_map. rewrite map_app in *. rewrite map_map.
  replace (map (fun x => BubbleObj.addr
                  (if Nat.eqb (BubbleObj.addr x) (BubbleObj.addr b)
                   then BubbleObj.set_isAlive false x else x)) (BubbleManager.bubbles m))
    with (map BubbleObj.addr (BubbleManager.bubbles m)).
  - repeat split; assumption.
  - apply map_ext. intro x. destruct (Nat.eqb _ _); reflexivity.
Qed.

Lemma BubblesReachable_inv m : BubblesReachable M m -> BubblePoolInv m.
Proof.
  induction 1.
  - apply BubblePoolInv_new.
  - apply BubblePoolInv_createBubble. assumption.
  - unfold BubbleManager.update. apply BubblePoolInv_updateFrom. assumption.
  - apply BubblePoolInv_render. assumption.
  - apply BubblePoolInv_popBubble. assumption.
Qed.

End BubblePoolFacts.
(** ** The hit test *)





(** ** The particle pool *)

Section ParticleFacts.
Variable M : Math.lib.

Lemma resetParticle_spec p r :
  ParticleObj.addr (fst (ParticleSystem.resetParticle p r)) = ParticleObj.addr p /\
  ParticleObj.type (fst (ParticleSystem.resetParticle p r)) = droplet /\
  ParticleObj.isAlive (fst (ParticleSystem.resetParticle p r)) = true /\
  ParticleObj.age (fst (ParticleSystem.resetParticle p r)) = 0.
Proof. repeat split. Qed.

(** What one call of [createDropletParticle] does to the system. *)
Lemma createDropletParticle_spec x y bubbleSize i total s r :
  let s' := fst (ParticleSystem.createDropletParticle M x y bubbleSize i total s r) in
  exists p,
    ParticleSystem.particles s' = ParticleSystem.particles s ++ [p] /\
    ParticleObj.type p = droplet /\
    ParticleSystem.activeParticles s' = (ParticleSystem.activeParticles s + 1)%Z /\
    ParticleSystem.maxParticles s' = ParticleSystem.maxParticles s /\
    ((exists p0, ParticleSystem.particlePool s = ParticleSystem.particlePool s' ++ [p0] /\
                 ParticleObj.addr p = ParticleObj.addr p0 /\
                 ParticleSystem.allocated s' = ParticleSystem.allocated s) \/
     (ParticleSystem.particlePool s = [] /\ ParticleSystem.particlePool s' = [] /\
      ParticleObj.addr p = ParticleSystem.allocated s /\
      ParticleSystem.allocated s' = S (ParticleSystem.allocated s))).
Proof.
  unfold ParticleSystem.createDropletParticle.
  destruct (pop (ParticleSystem.particlePool s)) as [[pooled rest]|] eqn:P.
  - apply pop_some in P.
    unfold bind, ret, Math_random, ParticleSystem.getDropletColor, ParticleSystem.resetParticle.
    cbn [fst snd]. eexists. split; [reflexivity|].
    repeat split. left. exists pooled. repeat split. exact P.
  - apply pop_none in P.
    unfold bind, ret, Math_random, ParticleSystem.getDropletColor.
    cbn [fst snd]. eexists. split; [reflexivity|].
    repeat split. right. repeat split; exact P.
Qed.

Lemma ParticlePoolInv_droplet x y bubbleSize i total s r :
  ParticlePoolInv s ->
  ParticlePoolInv (fst (ParticleSystem.createDropletParticle M x y bubbleSize i total s r)).
Proof.
  intros (Hc & Hl & Hn & Hf).
  destruct (createDropletParticle_spec x y bubbleSize i total s r)
    as (p & Ep & _ & Ea & _ & [(p0 & Eq & Ead & Eal)|(Eq & Eq' & Ead & Eal)]);
    set (s' := fst (ParticleSystem.createDropletParticle M x y bubbleSize i total s r)) in *;
    unfold ParticlePoolInv, particleAddrs in *; rewrite Ep, Ea, Eal.
  - rewrite Eq in Hl, Hn, Hf. rewrite !length_app in *. cbn [List.length] in *.
    assert (Hp : Permutation
                   (map ParticleObj.addr (ParticleSystem.particles s ++
                                          ParticleSystem.particlePool s' ++ [p0]))
                   (map ParticleObj.addr ((ParticleSystem.particles s ++ [p]) ++
                                          ParticleSystem.particlePool s'))).
    { rewrite !map_app. cbn [map]. rewrite Ead. rewrite <- app_assoc.
      apply Permutation_app_head, Permutation_app_comm. }
    repeat split.
    + lia.
    + lia.
    + eapply Permutation_NoDup; eauto.
    + eapply Permutation_Forall; eauto.
  - rewrite Eq in Hl, Hn, Hf. rewrite Eq'. rewrite app_nil_r in *.
    rewrite !length_app in *. cbn [List.length] in *. rewrite map_app. cbn [map]. rewrite Ead.
    repeat split.
    + lia.
    + lia.
    + apply NoDup_app.
      * exact Hn.
      * constructor; [intros []|constructor].
      * intros a Ha [Hb|[]]. subst a. rewrite Forall_forall in Hf.
        specialize (Hf _ Ha). lia.
    + apply Forall_app. split.
      * eapply Forall_impl; [|exact Hf]. cbn. intros. lia.
      * constructor; [lia|constructor].
Qed.

(** A droplet made while fewer than [maxParticles] particles are active
    keeps the number of allocated particles within [maxParticles]. *)
Lemma droplet_allocation_bound x y bubbleSize i total s r :
  ParticlePoolInv s ->
  (Z.of_nat (ParticleSystem.allocated s) <= ParticleSystem.maxParticles s)%Z ->
  (ParticleSystem.activeParticles s < ParticleSystem.maxParticles s)%Z ->
  let s' := fst (ParticleSystem.createDropletParticle M x y bubbleSize i total s r) in
  (Z.of_nat (ParticleSystem.allocated s') <= ParticleSystem.maxParticles s')%Z.
Proof.
  intros (Hc & Hl & Hn & Hf) Hal Hact s'. subst s'.
  destruct (createDropletParticle_spec x y bubbleSize i total s r)
    as (p & Ep & _ & Ea & Em & [(p0 & Eq & Ead & Eal)|(Eq & Eq' & Ead & Eal)]);
    rewrite Em, Eal.
  - exact Hal.
  - rewrite Eq in Hl. cbn [List.length] in Hl. lia.
Qed.

(** The loop of [createPopEffect]: [n] droplets, appended in order. *)
Lemma droplet_loop x y bubbleSize total n : forall i s r,
  let s' := fst (forUpTo n i
                   (fun i => ParticleSystem.createDropletParticle M x y bubbleSize i total) s r) in
  (exists droplets,
      ParticleSystem.particles s' = ParticleSystem.particles s ++ droplets /\
      List.length droplets = n /\
      Forall (fun p => ParticleObj.type p = droplet) droplets) /\
  ParticleSystem.activeParticles s' = (ParticleSystem.activeParticles s + Z.of_nat n)%Z /\
  ParticleSystem.maxParticles s' = ParticleSystem.maxParticles s /\
  List.length (ParticleSystem.particlePool s') =
    (List.length (ParticleSystem.particlePool s) - n)%nat /\
  (ParticlePoolInv s -> ParticlePoolInv s') /\
  (ParticlePoolInv s ->
   (Z.of_nat (ParticleSystem.allocated s) <= ParticleSystem.maxParticles s)%Z ->
   (ParticleSystem.activeParticles s + Z.of_nat n <= ParticleSystem.maxParticles s)%Z ->
   (Z.of_nat (ParticleSystem.allocated s') <= ParticleSystem.maxParticles s')%Z).
Proof.
  induction n as [|n IH]; intros i s r.
  - cbn [forUpTo]. unfold ret. cbn [fst].
    split; [|split; [|split; [|split; [|split]]]]; try lia; auto.
    exists []. rewrite app_nil_r. repeat split. constructor.
  - cbn [forUpTo]. unfold bind.
    pose proof (createDropletParticle_spec x y bubbleSize i total s r) as Hs.
    pose proof (ParticlePoolInv_droplet x y bubbleSize i total s r) as Hi.
    pose proof (droplet_allocation_bound x y bubbleSize i total s r) as Hb.
    destruct (ParticleSystem.createDropletParticle M x y bubbleSize i total s r) as [s1 r1].
    cbn [fst] in Hs, Hi, Hb.
    destruct Hs as (p & Ep & Et & Ea & Em & Hpool).
    specialize (IH (S i) s1 r1). cbv zeta in IH.
    set (s' := fst (forUpTo n (S i)
                 (fun i => ParticleSystem.createDropletParticle M x y bubbleSize i total) s1 r1)) in *.
    destruct IH as ((ds & Eds & Lds & Fds) & Ea' & Em' & Lp & Hinv & Hbound).
    cbv zeta. split; [|split; [|split; [|split; [|split]]]].
    + exists (p :: ds). rewrite Eds, Ep, <- app_assoc. cbn [app].
      repeat split; [cbn; lia|]. constructor; assumption.
    + rewrite Ea', Ea. lia.
    + congruence.
    + rewrite Lp. destruct Hpool as [(p0 & Eq & _)|(Eq & Eq' & _)].
      * rewrite Eq, length_app. cbn. lia.
      * rewrite Eq, Eq'. cbn. lia.
    + auto.
    + intros I0 B0 A0. apply Hbound.
      * apply Hi. exact I0.
      * apply Hb; [exact I0|exact B0|lia].
      * rewrite Ea, Em. lia.
Qed.

(** The three outcomes of [getPooledParticle]. *)
Lemma getPooledParticle_spec s r :
  let s' := fst (fst (ParticleSystem.getPooledParticle s r)) in
  let got := snd (fst (ParticleSystem.getPooledParticle s r)) in
  ParticleSystem.particles s' = ParticleSystem.particles s /\
  ParticleSystem.activeParticles s' = ParticleSystem.activeParticles s /\
  ParticleSystem.maxParticles s' = ParticleSystem.maxParticles s /\
  ParticleSystem.qualityLevel s' = ParticleSystem.qualityLevel s /\
  ((exists p p0, got = Some p /\
       ParticleSystem.particlePool s = ParticleSystem.particlePool s' ++ [p0] /\
       ParticleObj.addr p = ParticleObj.addr p0 /\
       ParticleSystem.allocated s' = ParticleSystem.allocated s) \/
   (exists p, got = Some p /\
       ParticleSystem.particlePool s = [] /\ ParticleSystem.particlePool s' = [] /\
       (ParticleSystem.activeParticles s < ParticleSystem.maxParticles s)%Z /\
       ParticleObj.addr p = ParticleSystem.allocated s /\
       ParticleSystem.allocated s' = S (ParticleSystem.allocated s)) \/
   (got = None /\ s' = s /\ ParticleSystem.particlePool s = [] /\
       (ParticleSystem.maxParticles s <= ParticleSystem.activeParticles s)%Z)).
Proof.
  unfold ParticleSystem.getPooledParticle.
  destruct (pop (ParticleSystem.particlePool s)) as [[pooled rest]|] eqn:P.
  - apply pop_some in P. unfold bind, ret, ParticleSystem.resetParticle, Math_random.
    cbn [fst snd]. repeat split. left. eexists; exists pooled. repeat split. exact P.
  - apply pop_none in P.
    destruct (ParticleSystem.activeParticles s <? ParticleSystem.maxParticles s)%Z eqn:L.
    + apply Z.ltb_lt in L. unfold ret. cbn [fst snd]. repeat split.
      right; left. eexists. repeat split; try exact P. exact L.
    + apply Z.ltb_ge in L. unfold ret. cbn [fst snd]. repeat split.
      right; right. repeat split; assumption.
Qed.

(** Adding a particle taken from [getPooledParticle] to the active array. *)
Lemma ParticlePoolInv_add s s1 p got :
  ParticlePoolInv s ->
  ParticleSystem.particles s1 = ParticleSystem.particles s ->
  ParticleSystem.activeParticles s1 = ParticleSystem.activeParticles s ->
  ((exists p0, ParticleSystem.particlePool s = ParticleSystem.particlePool s1 ++ [p0] /\
               ParticleObj.addr got = ParticleObj.addr p0 /\
               ParticleSystem.allocated s1 = ParticleSystem.allocated s) \/
   (ParticleSystem.particlePool s = [] /\ ParticleSystem.particlePool s1 = [] /\
    ParticleObj.addr got = ParticleSystem.allocated s /\
    ParticleSystem.allocated s1 = S (ParticleSystem.allocated s))) ->
  ParticleObj.addr p = ParticleObj.addr got ->
  ParticlePoolInv
    (ParticleSystem.set_activeParticles (ParticleSystem.activeParticles s1 + 1)
       (ParticleSystem.set_particles (push (ParticleSystem.particles s1) p) s1)).
Proof.
  intros (Hc & Hl & Hn & Hf) Ep Ea Hpool Eaddr.
  unfold ParticlePoolInv, particleAddrs.
  cbn [ParticleSystem.set_activeParticles ParticleSystem.set_particles
       ParticleSystem.particles ParticleSystem.particlePool ParticleSystem.activeParticles
       ParticleSystem.allocated].
  rewrite push_length, Ep, Ea. unfold push.
  destruct Hpool as [(p0 & Eq & Ead & Eal)|(Eq & Eq' & Ead & Eal)]; rewrite Eal.
  - unfold particleAddrs in *. rewrite Eq in Hl, Hn, Hf.
    rewrite !length_app in *. cbn [List.length] in *.
    assert (Hp : Permutation
                   (map ParticleObj.addr (ParticleSystem.particles s ++
                                          ParticleSystem.particlePool s1 ++ [p0]))
                   (map ParticleObj.addr ((ParticleSystem.particles s ++ [p]) ++
                                          ParticleSystem.particlePool s1))).
    { rewrite !map_app. cbn [map]. rewrite Eaddr, Ead. rewrite <- app_assoc.
      apply Permutation_app_head, Permutation_app_comm. }
    repeat split.
    + lia.
    + lia.
    + eapply Permutation_NoDup; eauto.
    + eapply Permutation_Forall; eauto.
  - unfold particleAddrs in *. rewrite Eq in Hl, Hn, Hf. rewrite Eq'. rewrite app_nil_r in *.
    cbn [List.length] in *. rewrite map_app. cbn [map]. rewrite Eaddr, Ead.
    repeat split.
    + lia.
    + lia.
    + apply NoDup_app.
      * exact Hn.
      * constructor; [intros []|constructor].
      * intros a Ha [Hb|[]]. subst a. rewrite Forall_forall in Hf.
        specialize (Hf _ Ha). lia.
    + apply Forall_app. split.
      * eapply Forall_impl; [|exact Hf]. cbn. intros. lia.
      * constructor; [lia|constructor].
Qed.

(** What [createBurstEffect] does to the system. *)
Lemma createBurstEffect_spec x y bubbleSize s r :
  let s' := fst (ParticleSystem.createBurstEffect x y bubbleSize s r) in
  (exists ring,
      ParticleSystem.particles s' = ParticleSystem.particles s ++ ring /\
      Forall (fun p => ParticleObj.type p = burst) ring /\
      List.length ring =
        (if (0 <? List.length (ParticleSystem.particlePool s))%nat ||
            (ParticleSystem.activeParticles s <? ParticleSystem.maxParticles s)%Z
         then 1 else 0)%nat /\
      ParticleSystem.activeParticles s' =
        (ParticleSystem.activeParticles s + Z.of_nat (List.length ring))%Z) /\
  ParticleSystem.maxParticles s' = ParticleSystem.maxParticles s /\
  (ParticlePoolInv s -> ParticlePoolInv s') /\
  (ParticlePoolInv s ->
   (Z.of_nat (ParticleSystem.allocated s) <= ParticleSystem.maxParticles s)%Z ->
   (Z.of_nat (ParticleSystem.allocated s') <= ParticleSystem.maxParticles s')%Z).
Proof.
  unfold ParticleSystem.createBurstEffect, bind.
  pose proof (getPooledParticle_spec s r) as G. cbv zeta in G.
  destruct (ParticleSystem.getPooledParticle s r) as [[s1 got] r1]. cbn [fst snd] in G.
  destruct G as (Ep & Ea & Em & _ & [(p & p0 & -> & Eq & Ead & Eal)|
                                     [(p & -> & Eq & Eq' & Lt & Ead & Eal)|
                                      (-> & -> & Eq & Ge)]]).
  - unfold ret. cbn [fst]. split; [|split; [|split]].
    + eexists [_]. cbn [ParticleSystem.set_activeParticles ParticleSystem.set_particles
        ParticleSystem.particles ParticleSystem.activeParticles]. unfold push.
      rewrite Ep, Ea. split; [reflexivity|]. split; [repeat constructor|].
      rewrite Eq, length_app. cbn [List.length].
      replace (0 <? _ + 1)%nat with true by (symmetry; apply Nat.ltb_lt; lia).
      split; reflexivity.
    + exact Em.
    + intro I. eapply ParticlePoolInv_add; eauto.
    + intros I B. cbn [ParticleSystem.set_activeParticles ParticleSystem.set_particles
        ParticleSystem.allocated ParticleSystem.maxParticles]. rewrite Eal, Em. exact B.
  - unfold ret. cbn [fst]. split; [|split; [|split]].
    + eexists [_]. cbn [ParticleSystem.set_activeParticles ParticleSystem.set_particles
        ParticleSystem.particles ParticleSystem.activeParticles]. unfold push.
      rewrite Ep, Ea. split; [reflexivity|]. split; [repeat constructor|].
      rewrite Eq. cbn [List.length Nat.ltb Nat.leb orb].
      replace (ParticleSystem.activeParticles s <? ParticleSystem.maxParticles s)%Z with true
        by (symmetry; apply Z.ltb_lt; exact Lt).
      split; reflexivity.
    + exact Em.
    + intro I. eapply ParticlePoolInv_add; eauto.
    + intros (Hc & Hl & _) B.
      cbn [ParticleSystem.set_activeParticles ParticleSystem.set_particles
        ParticleSystem.allocated ParticleSystem.maxParticles]. rewrite Eal, Em.
      rewrite Eq in Hl. cbn [List.length] in Hl. lia.
  - unfold ret. cbn [fst]. split; [|split; [|split]]; auto.
    exists []. rewrite app_nil_r. split; [reflexivity|]. split; [constructor|].
    rewrite Eq. cbn [List.length Nat.ltb Nat.leb orb].
    replace (ParticleSystem.activeParticles s <? ParticleSystem.maxParticles s)%Z with false
      by (symmetry; apply Z.ltb_ge; exact Ge).
    split; [reflexivity|]. cbn. lia.
Qed.

End ParticleFacts.
(** ** The pop effect *)

Lemma createPopEffect_spec (M : Math.lib) x y bubbleSize s r :
  let s' := fst (ParticleSystem.createPopEffect M x y bubbleSize s r) in
  let k := Z.to_nat (ParticleSystem.actualCountOf s bubbleSize) in
  (exists droplets ring,
      ParticleSystem.particles s' = ParticleSystem.particles s ++ droplets ++ ring /\
      List.length droplets = k /\
      Forall (fun p => ParticleObj.type p = droplet) droplets /\
      Forall (fun p => ParticleObj.type p = burst) ring /\
      List.length ring =
        (if (k <? List.length (ParticleSystem.particlePool s))%nat ||
            (ParticleSystem.activeParticles s + Z.of_nat k <? ParticleSystem.maxParticles s)%Z
         then 1 else 0)%nat /\
      ParticleSystem.activeParticles s' =
        (ParticleSystem.activeParticles s + Z.of_nat (k + List.length ring))%Z) /\
  ParticleSystem.maxParticles s' = ParticleSystem.maxParticles s /\
  (ParticlePoolInv s -> ParticlePoolInv s') /\
  (ParticlePoolInv s ->
   (Z.of_nat (ParticleSystem.allocated s) <= ParticleSystem.maxParticles s)%Z ->
   (Z.of_nat (ParticleSystem.allocated s') <= ParticleSystem.maxParticles s')%Z).
Proof.
  unfold ParticleSystem.createPopEffect. cbv zeta. unfold bind.
  set (k := Z.to_nat (ParticleSystem.actualCountOf s bubbleSize)).
  pose proof (droplet_loop M x y bubbleSize (ParticleSystem.actualCountOf s bubbleSize) k 0%nat s r)
    as L. cbv zeta in L.
  destruct (forUpTo k 0
              (fun i => ParticleSystem.createDropletParticle M x y bubbleSize i
                          (ParticleSystem.actualCountOf s bubbleSize)) s r) as [s1 r1].
  cbn [fst] in L. destruct L as ((ds & Eds & Lds & Fds) & Ea1 & Em1 & Lp1 & I1 & B1).
  pose proof (createBurstEffect_spec x y bubbleSize s1 r1) as B. cbv zeta in B.
  destruct B as ((ring & Er & Fr & Lr & Ea2) & Em2 & I2 & B2).
  split; [|split; [|split]].
  - exists ds, ring. rewrite Er, Eds, <- app_assoc.
    repeat split; auto.
    + rewrite Lr, Lp1, Ea1, Em1.
      replace (0 <? List.length (ParticleSystem.particlePool s) - k)%nat
        with (k <? List.length (ParticleSystem.particlePool s))%nat; [reflexivity|].
      destruct (k <? List.length (ParticleSystem.particlePool s))%nat eqn:E.
      * apply Nat.ltb_lt in E. symmetry. apply Nat.ltb_lt. lia.
      * apply Nat.ltb_ge in E. symmetry. apply Nat.ltb_ge. lia.
    + rewrite Ea2, Ea1. lia.
  - congruence.
  - auto.
  - intros I B0. apply B2; [auto|]. apply B1; auto.
    destruct I as (Hc & Hl & _). subst k.
    unfold ParticleSystem.actualCountOf. cbv zeta. lia.
Qed.



(** ** The particle pool under [update], [clearAll] and the splash *)

Section ParticlePoolFacts.
Variable M : Math.lib.

Lemma updateParticleOpacity_addr s p :
  ParticleObj.addr (ParticleSystem.updateParticleOpacity s p) = ParticleObj.addr p.
Proof.
  unfold ParticleSystem.updateParticleOpacity. cbv zeta.
  destruct (ParticleObj.type p); [case_if|]; reflexivity.
Qed.

Lemma updateDropletParticle_addr win s p dt :
  ParticleObj.addr (ParticleSystem.updateDropletParticle M win s p dt) = ParticleObj.addr p.
Proof.
  unfold ParticleSystem.updateDropletParticle. cbv zeta. repeat case_if; reflexivity.
Qed.

Lemma updateBurstParticle_addr p dt :
  ParticleObj.addr (ParticleSystem.updateBurstParticle p dt) = ParticleObj.addr p.
Proof.
  unfold ParticleSystem.updateBurstParticle. cbv zeta. case_if; reflexivity.
Qed.

Lemma updateParticle_addr win s p dt :
  ParticleObj.addr (ParticleSystem.updateParticle M win s p dt) = ParticleObj.addr p.
Proof.
  unfold ParticleSystem.updateParticle. cbv zeta. rewrite updateParticleOpacity_addr.
  destruct (ParticleObj.type _).
  - rewrite updateDropletParticle_addr. reflexivity.
  - rewrite updateBurstParticle_addr. reflexivity.
Qed.

Lemma ParticlePoolInv_removeParticle s i :
  ParticlePoolInv s -> ParticlePoolInv (ParticleSystem.removeParticle s i).
Proof.
  intros (Hc & Hl & Hn & Hf). unfold ParticleSystem.removeParticle.
  destruct (nth_error (ParticleSystem.particles s) i) as [particle|] eqn:E.
  2:{ repeat split; assumption. }
  unfold ParticlePoolInv, particleAddrs in *.
  cbn [ParticleSystem.set_activeParticles ParticleSystem.set_particles
       ParticleSystem.set_particlePool ParticleSystem.particles ParticleSystem.particlePool
       ParticleSystem.activeParticles ParticleSystem.allocated].
  pose proof (splice1_length _ _ _ E) as Sl.
  pose proof (splice1_perm _ _ _ E) as Sp.
  assert (Hp : Permutation
                 (map ParticleObj.addr (ParticleSystem.particles s ++ ParticleSystem.particlePool s))
                 (map ParticleObj.addr (splice1 i (ParticleSystem.particles s) ++
                                        push (ParticleSystem.particlePool s) particle))).
  { apply Permutation_map. unfold push.
    eapply perm_trans; [apply Permutation_app_tail, Sp|].
    cbn [app]. rewrite app_assoc. apply Permutation_cons_append. }
  rewrite push_length.
  repeat split.
  - lia.
  - lia.
  - eapply Permutation_NoDup; eauto.
  - eapply Permutation_Forall; eauto.
Qed.

Lemma removeParticle_allocated s i :
  ParticleSystem.allocated (ParticleSystem.removeParticle s i) = ParticleSystem.allocated s /\
  ParticleSystem.maxParticles (ParticleSystem.removeParticle s i) = ParticleSystem.maxParticles s.
Proof.
  unfold ParticleSystem.removeParticle.
  destruct (nth_error (ParticleSystem.particles s) i); split; reflexivity.
Qed.

Lemma ParticlePoolInv_store s i p p0 :
  nth_error (ParticleSystem.particles s) i = Some p0 ->
  ParticleObj.addr p = ParticleObj.addr p0 ->
  ParticlePoolInv s ->
  ParticlePoolInv (ParticleSystem.set_particles (store i p (ParticleSystem.particles s)) s).
Proof.
  intros E Ea (Hc & Hl & Hn & Hf). unfold ParticlePoolInv, particleAddrs in *.
  cbn [ParticleSystem.set_particles ParticleSystem.particles ParticleSystem.particlePool
       ParticleSystem.activeParticles ParticleSystem.allocated].
  rewrite store_length. rewrite map_app in *.
  rewrite (store_map ParticleObj.addr i p p0 _ E Ea).
  repeat split; assumption.
Qed.

Lemma updateAt_spec win dt i s :
  (ParticlePoolInv s -> ParticlePoolInv (ParticleSystem.updateAt M win dt i s)) /\
  ParticleSystem.allocated (ParticleSystem.updateAt M win dt i s) = ParticleSystem.allocated s /\
  ParticleSystem.maxParticles (ParticleSystem.updateAt M win dt i s) = ParticleSystem.maxParticles s.
Proof.
  unfold ParticleSystem.updateAt.
  destruct (nth_error (ParticleSystem.particles s) i) as [particle|] eqn:E; [|auto].
  destruct (negb (ParticleObj.isAlive particle)).
  - split; [apply ParticlePoolInv_removeParticle|apply removeParticle_allocated].
  - cbv zeta. case_if.
    + split.
      * intro I. apply ParticlePoolInv_removeParticle.
        eapply ParticlePoolInv_store; eauto. apply updateParticle_addr.
      * match goal with |- context [ParticleSystem.removeParticle ?s1 i] =>
          destruct (removeParticle_allocated s1 i) as [A B] end.
        rewrite A, B. split; reflexivity.
    + split; [|split; reflexivity].
      intro I. eapply ParticlePoolInv_store; eauto. apply updateParticle_addr.
Qed.

Lemma updateFrom_spec win dt k : forall s,
  (ParticlePoolInv s -> ParticlePoolInv (ParticleSystem.updateFrom M win dt k s)) /\
  ParticleSystem.allocated (ParticleSystem.updateFrom M win dt k s) = ParticleSystem.allocated s /\
  ParticleSystem.maxParticles (ParticleSystem.updateFrom M win dt k s) = ParticleSystem.maxParticles s.
Proof.
  induction k as [|i IH]; intro s; cbn [ParticleSystem.updateFrom]; [auto|].
  destruct (updateAt_spec win dt i s) as (I1 & A1 & M1).
  destruct (IH (ParticleSystem.updateAt M win dt i s)) as (I2 & A2 & M2).
  split; [auto|]. split; congruence.
Qed.

Lemma clearAll_spec s :
  (ParticlePoolInv s -> ParticlePoolInv (ParticleSystem.clearAll s)) /\
  ParticleSystem.allocated (ParticleSystem.clearAll s) = ParticleSystem.allocated s /\
  ParticleSystem.maxParticles (ParticleSystem.clearAll s) = ParticleSystem.maxParticles s.
Proof.
  split; [|split; reflexivity].
  intros (Hc & Hl & Hn & Hf). unfold ParticleSystem.clearAll, ParticlePoolInv, particleAddrs in *.
  cbn [ParticleSystem.set_activeParticles ParticleSystem.set_particles
       ParticleSystem.set_particlePool ParticleSystem.particles ParticleSystem.particlePool
       ParticleSystem.activeParticles ParticleSystem.allocated].
  cbn [app List.length]. rewrite length_app.
  assert (Hp : Permutation
                 (map ParticleObj.addr (ParticleSystem.particles s ++ ParticleSystem.particlePool s))
                 (map ParticleObj.addr (ParticleSystem.particlePool s ++ ParticleSystem.particles s))).
  { apply Permutation_map, Permutation_app_comm. }
  repeat split.
  - lia.
  - eapply Permutation_NoDup; eauto.
  - eapply Permutation_Forall; eauto.
Qed.

(** What the pool keeps from one state of the system to a later one. *)
Let keeps (s s' : ParticleSystem.t) : Prop :=
  (ParticlePoolInv s -> ParticlePoolInv s') /\
  ParticleSystem.maxParticles s' = ParticleSystem.maxParticles s /\
  (ParticlePoolInv s ->
   (Z.of_nat (ParticleSystem.allocated s) <= ParticleSystem.maxParticles s)%Z ->
   (Z.of_nat (ParticleSystem.allocated s') <= ParticleSystem.maxParticles s')%Z).

Lemma splashFrom_keeps x y count n : forall i s r,
  keeps s (fst (ParticleSystem.splashFrom M x y count n i s r)).
Proof.
  induction n as [|n IH]; intros i s r; cbn [ParticleSystem.splashFrom].
  - unfold ret, keeps. cbn [fst]. auto.
  - unfold bind at 1.
    pose proof (getPooledParticle_spec s r) as G. cbv zeta in G.
    destruct (ParticleSystem.getPooledParticle s r) as [[s1 got] r1]. cbn [fst snd] in G.
    destruct G as (Ep & Ea & Em & _ & [(p & p0 & -> & Eq & Ead & Eal)|
                                       [(p & -> & Eq & Eq' & Lt & Ead & Eal)|
                                        (-> & -> & Eq & Ge)]]).
    + cbv [bind Math_random ParticleSystem.getDropletColor ret].
      match goal with |- context [ParticleSystem.splashFrom M x y count n (S i) ?s2 ?r2] =>
        assert (Ms2 : ParticleSystem.maxParticles s2 = ParticleSystem.maxParticles s1)
          by reflexivity;
        assert (As2 : ParticleSystem.allocated s2 = ParticleSystem.allocated s1)
          by reflexivity;
        assert (Inv2 : ParticlePoolInv s -> ParticlePoolInv s2)
          by (intro I; eapply ParticlePoolInv_add; eauto);
        destruct (IH (S i) s2 r2) as (I2 & M2 & B2);
        set (t2 := s2) in *; set (q2 := r2) in *; clearbody t2 q2
      end.
      split; [auto|]. split; [congruence|].
      intros I B. apply B2; [auto|]. rewrite As2, Ms2, Eal, Em. exact B.
    + cbv [bind Math_random ParticleSystem.getDropletColor ret].
      match goal with |- context [ParticleSystem.splashFrom M x y count n (S i) ?s2 ?r2] =>
        assert (Ms2 : ParticleSystem.maxParticles s2 = ParticleSystem.maxParticles s1)
          by reflexivity;
        assert (As2 : ParticleSystem.allocated s2 = ParticleSystem.allocated s1)
          by reflexivity;
        assert (Inv2 : ParticlePoolInv s -> ParticlePoolInv s2)
          by (intro I; eapply ParticlePoolInv_add; eauto);
        destruct (IH (S i) s2 r2) as (I2 & M2 & B2);
        set (t2 := s2) in *; set (q2 := r2) in *; clearbody t2 q2
      end.
      split; [auto|]. split; [congruence|].
      intros I B. apply B2; [auto|]. rewrite As2, Ms2, Eal, Em.
      destruct I as (Hc & Hl & _). rewrite Eq in Hl. cbn [List.length] in Hl. lia.
    + unfold ret, keeps. cbn [fst]. auto.
Qed.

Lemma ParticlesReachable_inv modes s :
  ParticlesReachable M modes s ->
  ParticlePoolInv s /\
  (modes = false ->
   (Z.of_nat (ParticleSystem.allocated s) <= ParticleSystem.maxParticles s)%Z).
Proof.
  induction 1 as [|s x y bubbleSize r H [I B]|s x y intensity r H [I B]
                  |s win deltaTime H [I B]|s H [I B]|s level H [I B]|s enabled Hm H [I B]].
  - split.
    + unfold ParticlePoolInv, particleAddrs. cbn. repeat split; constructor.
    + intros _. cbn. lia.
  - destruct (createPopEffect_spec M x y bubbleSize s r) as (_ & _ & I' & B'). split; auto.
  - unfold ParticleSystem.createSplashEffect. cbv zeta.
    match goal with |- context [ParticleSystem.splashFrom M x y ?c ?n 0%nat s r] =>
      destruct (splashFrom_keeps x y c n 0%nat s r) as (I' & _ & B') end.
    split; auto.
  - unfold ParticleSystem.update. cbv zeta.
    match goal with |- context [ParticleSystem.updateFrom M win ?dt ?k s] =>
      destruct (updateFrom_spec win dt k s) as (I' & A' & M') end.
    split; [auto|]. intro Hm. rewrite A', M'. auto.
  - destruct (clearAll_spec s) as (I' & A' & M'). split; [auto|].
    intro Hm. rewrite A', M'. auto.
  - split; [exact I|exact B].
  - split.
    + destruct I as (Hc & Hl & Hn & Hf). unfold ParticleSystem.enablePerformanceMode.
      destruct enabled; repeat split; assumption.
    + intro K. congruence.
Qed.

End ParticlePoolFacts.
(** ** The two pools *)

(** C4 (amended).  In every state that the methods of the bubble manager
    reach, and in every state that the methods of the particle system
    reach, the active counter is the length of the active array, the active
    and pooled objects together are the objects allocated, and no object is
    held twice.  The particle system allocates at most [maxParticles]
    objects, so at most that many are active, as long as
    [enablePerformanceMode] is not called.  (The bubble manager does not
    compare its count with [maxBubbles].) *)
Theorem pools_account_for_every_object :
  forall (M : Math.lib),
    (forall m, BubblesReachable M m -> BubblePoolInv m) /\
    (forall modes s, ParticlesReachable M modes s -> ParticlePoolInv s) /\
    (forall s, ParticlesReachable M false s ->
       (Z.of_nat (ParticleSystem.allocated s) <= ParticleSystem.maxParticles s)%Z /\
       (ParticleSystem.activeParticles s <= ParticleSystem.maxParticles s)%Z).
Proof.
  intro M. split; [|split].
  - apply BubblesReachable_inv.
  - intros modes s H. apply (ParticlesReachable_inv M modes s H).
  - intros s H. destruct (ParticlesReachable_inv M false s H) as [(Hc & Hl & _) B].
    specialize (B eq_refl). split; [exact B|]. lia.
Qed.

Lemma pools_account_for_every_object_witness :
  BubblePoolInv twoStacked /\
  (ParticleSystem.activeParticles
     (fst (ParticleSystem.createPopEffect plainMath 100 100 200 ParticleSystem.constructor halves))
   <= ParticleSystem.maxParticles
        (fst (ParticleSystem.createPopEffect plainMath 100 100 200 ParticleSystem.constructor halves)))%Z.
Proof.
  destruct (pools_account_for_every_object plainMath) as (Hb & _ & Hp).
  split.
  - apply Hb.
    apply (reach_createBubble plainMath
             (fst (fst (BubbleManager.createBubble plainMath (BubbleManager.constructor 25)
                          500 400 40 18000 None halves)))
             500 400 200 18000 None
             (snd (BubbleManager.createBubble plainMath (BubbleManager.constructor 25)
                          500 400 40 18000 None halves))).
    apply reach_createBubble. apply reach_new.
  - apply Hp. apply reach_createPopEffect. apply reach_newSystem.
Defined.

(** The claim as stated fails for the bubble manager: made for two bubbles,
    it holds three after three [createBubble]. *)
Lemma bubble_pool_counterexample :
  BubblesReachable plainMath threeCreated /\
  BubbleManager.maxBubbles threeCreated = 2%Z /\
  BubbleManager.getActiveCount threeCreated = 3%Z /\
  List.length (BubbleManager.bubbles threeCreated) = 3%nat.
Proof.
  split; [|vm_compute; repeat split].
  unfold threeCreated.
  destruct (BubbleManager.createBubble plainMath (BubbleManager.constructor 2)
              100 100 60 18000 None halves) as [[m1 b1] r1] eqn:E1.
  destruct (BubbleManager.createBubble plainMath m1 200 100 60 18000 None r1)
    as [[m2 b2] r2] eqn:E2.
  apply reach_createBubble.
  replace m2 with (fst (fst (BubbleManager.createBubble plainMath m1 200 100 60 18000 None r1)))
    by (rewrite E2; reflexivity).
  apply reach_createBubble.
  replace m1 with (fst (fst (BubbleManager.createBubble plainMath (BubbleManager.constructor 2)
                               100 100 60 18000 None halves)))
    by (rewrite E1; reflexivity).
  apply reach_createBubble. apply reach_new.
Qed.
(** ** The audio manager *)

(** C1 (the code departs from the claim).  A pop with the sound files
    loaded: [playAudioFile] starts the buffer source (node 0) and then reads
    [this.bubblePopBuffer.duration], a property that nothing defines, so
    the sound is neither pushed on [activeSounds] nor given its [onended]
    handler.  The catch block runs [createPopSound], whose frequency is not
    a number ([baseFrequency] and [frequencyRange] are not defined
    either): on a standard device nothing is tracked and no handler is
    registered; on a device that accepts the value the only tracked sound
    and the only handler are those of the synthesized sound. *)
Theorem sample_playback_is_not_tracked :
  let s := after (AudioManager.playPopSound 1000 0 150 "classic") (audioOn true readyAudio) in
  playing (device s) = [0%nat] /\
  AudioObj.activeSounds (this s) = [] /\
  callbacks (device s) = [] /\
  let s' := after (AudioManager.playPopSound 1000 0 150 "classic") (audioOn false readyAudio) in
  In 0%nat (playing (device s')) /\
  map AudioObj.source (AudioObj.activeSounds (this s')) = [None] /\
  List.length (callbacks (device s')) = 1%nat /\
  Forall (fun c => match c with onended _ _ => False | _ => True end) (callbacks (device s')).
Proof.
  vm_compute. repeat split; auto.
Qed.

(** C6 (the code departs from the claim).  With a limit of two sounds and
    three pops in the same millisecond: on a standard device no sound is
    ever tracked, so the limit is never reached, all three sources start
    and nothing is queued; two tracked sounds and one queued request are
    what a device that accepts the frequency gives. *)
Theorem three_pops_with_limit_two :
  let limited := AudioManager.enablePerformanceMode readyAudio true in
  AudioObj.maxSimultaneousSounds limited = 2%Z /\
  let s := threePops (audioOn true limited) in
  List.length (playing (device s)) = 3%nat /\
  AudioObj.activeSounds (this s) = [] /\
  AudioObj.soundQueue (this s) = [] /\
  let s' := threePops (audioOn false limited) in
  List.length (AudioObj.activeSounds (this s')) = 2%nat /\
  List.length (AudioObj.soundQueue (this s')) = 1%nat.
Proof.
  vm_compute. repeat split.
Qed.

(** C7 (the code departs from the claim).  A pop and then [toggleMute]:
    the manager is muted, [activeSounds] and [soundQueue] are empty, and
    the buffer source that the pop started (node 0) still plays, on either
    kind of device: [stopAllSounds] stops oscillators and harmonics only. *)
Theorem mute_leaves_sample_playing :
  let s := after AudioManager.toggleMute
             (after (AudioManager.playPopSound 1000 0 150 "classic") (audioOn true readyAudio)) in
  AudioObj.isMuted (this s) = true /\
  AudioObj.activeSounds (this s) = [] /\
  AudioObj.soundQueue (this s) = [] /\
  playing (device s) = [0%nat] /\
  let s' := after AudioManager.toggleMute
              (after (AudioManager.playPopSound 1000 0 150 "classic") (audioOn false readyAudio)) in
  AudioObj.isMuted (this s') = true /\
  AudioObj.activeSounds (this s') = [] /\
  playing (device s') = [0%nat].
Proof.
  vm_compute. repeat split.
Qed.
(** ** The wind *)

Section WindFacts.
Variable M : Math.lib.

Lemma generateNewWindPattern_fields e r :
  let e' := fst (PhysicsEngine.generateNewWindPattern M e r) in
  EngineObj.lastWindUpdate e' = EngineObj.lastWindUpdate e /\
  EngineObj.windUpdateInterval e' = EngineObj.windUpdateInterval e /\
  EngineObj.windForce e' = EngineObj.windForce e /\
  EngineObj.width e' = EngineObj.width e /\
  EngineObj.height e' = EngineObj.height e /\
  EngineObj.breezeZones e' = EngineObj.breezeZones e /\
  EngineObj.simplePhysics e' = EngineObj.simplePhysics e /\
  cursor (snd (PhysicsEngine.generateNewWindPattern M e r)) = (3 + cursor r)%nat.
Proof.
  unfold PhysicsEngine.generateNewWindPattern, bind, Math_random. cbn [fst snd cursor samples].
  case_if; repeat split.
Qed.

End WindFacts.

(** The wind clock stays below the interval: [updateEnvironmentalForces]
    adds the elapsed time and, when the interval is reached, rolls a new
    target (three samples) and restarts the clock. *)
Theorem wind_clock_stays_below_interval :
  forall (M : Math.lib) e deltaTime r,
    0 < EngineObj.windUpdateInterval e ->
    let e' := fst (PhysicsEngine.updateEnvironmentalForces M e deltaTime r) in
    let r' := snd (PhysicsEngine.updateEnvironmentalForces M e deltaTime r) in
    EngineObj.windUpdateInterval e' = EngineObj.windUpdateInterval e /\
    EngineObj.lastWindUpdate e' < EngineObj.windUpdateInterval e' /\
    (EngineObj.lastWindUpdate e + deltaTime < EngineObj.windUpdateInterval e ->
     EngineObj.lastWindUpdate e' = EngineObj.lastWindUpdate e + deltaTime /\
     EngineObj.targetWind e' = EngineObj.targetWind e /\ r' = r) /\
    (EngineObj.windUpdateInterval e <= EngineObj.lastWindUpdate e + deltaTime ->
     EngineObj.lastWindUpdate e' = 0 /\ cursor r' = (3 + cursor r)%nat).
Proof.
  intros M e deltaTime r Hpos e' r'. subst e' r'.
  destruct (PhysicsEngine.updateEnvironmentalForces M e deltaTime r) as [e' r'] eqn:E.
  cbn [fst snd]. unfold PhysicsEngine.updateEnvironmentalForces in E. cbv zeta in E.
  cbn [EngineObj.lastWindUpdate EngineObj.windUpdateInterval EngineObj.set_lastWindUpdate] in E.
  destruct (EngineObj.lastWindUpdate e + deltaTime >=? EngineObj.windUpdateInterval e) eqn:C.
  - apply geb_true in C. unfold bind in E.
    pose proof (generateNewWindPattern_fields M
                  (EngineObj.set_lastWindUpdate (EngineObj.lastWindUpdate e + deltaTime) e) r) as G.
    cbv zeta in G.
    destruct (PhysicsEngine.generateNewWindPattern M
                (EngineObj.set_lastWindUpdate (EngineObj.lastWindUpdate e + deltaTime) e) r)
      as [e1 r1].
    cbn [fst snd] in G. destruct G as (_ & Gi & _ & _ & _ & _ & _ & Gc).
    unfold ret in E. injection E as <- <-.
    cbn [EngineObj.lastWindUpdate EngineObj.windUpdateInterval
         EngineObj.set_lastWindUpdate EngineObj.set_windForce] in *.
    rewrite Gi. split; [reflexivity|]. split; [exact Hpos|]. split.
    + intro K. exfalso. apply (Qlt_not_le _ _ K C).
    + intros _. split; [reflexivity|exact Gc].
  - apply geb_false in C. unfold bind, ret in E. injection E as <- <-.
    cbn [EngineObj.lastWindUpdate EngineObj.windUpdateInterval EngineObj.targetWind
         EngineObj.set_lastWindUpdate EngineObj.set_windForce].
    split; [reflexivity|]. split; [exact C|]. split.
    + intros _. repeat split.
    + intro K. exfalso. apply (Qlt_not_le _ _ C K).
Qed.

Lemma wind_clock_stays_below_interval_witness :
  EngineObj.lastWindUpdate
    (fst (PhysicsEngine.updateEnvironmentalForces plainMath
            (EngineObj.set_lastWindUpdate 2990 calmEngine) 16 halves))
  < EngineObj.windUpdateInterval
      (fst (PhysicsEngine.updateEnvironmentalForces plainMath
              (EngineObj.set_lastWindUpdate 2990 calmEngine) 16 halves)).
Proof.
  apply (wind_clock_stays_below_interval plainMath
           (EngineObj.set_lastWindUpdate 2990 calmEngine) 16 halves).
  vm_compute. reflexivity.
Defined.

(** Each call of [updateEnvironmentalForces] moves the wind a fiftieth of
    the way to the target: the distance to the target of the call shrinks
    by the factor 0.98 in each coordinate. *)
Theorem wind_approaches_target :
  forall (M : Math.lib) e deltaTime r,
    let e' := fst (PhysicsEngine.updateEnvironmentalForces M e deltaTime r) in
    Vec.x (EngineObj.windForce e') - Vec.x (EngineObj.targetWind e') ==
      0.98 * (Vec.x (EngineObj.windForce e) - Vec.x (EngineObj.targetWind e')) /\
    Vec.y (EngineObj.windForce e') - Vec.y (EngineObj.targetWind e') ==
      0.98 * (Vec.y (EngineObj.windForce e) - Vec.y (EngineObj.targetWind e')).
Proof.
  intros M e deltaTime r e'. subst e'.
  destruct (PhysicsEngine.updateEnvironmentalForces M e deltaTime r) as [e' r'] eqn:E.
  cbn [fst]. unfold PhysicsEngine.updateEnvironmentalForces in E. cbv zeta in E.
  cbn [EngineObj.lastWindUpdate EngineObj.windUpdateInterval EngineObj.set_lastWindUpdate] in E.
  destruct (EngineObj.lastWindUpdate e + deltaTime >=? EngineObj.windUpdateInterval e).
  - unfold bind in E.
    pose proof (generateNewWindPattern_fields M
                  (EngineObj.set_lastWindUpdate (EngineObj.lastWindUpdate e + deltaTime) e) r) as G.
    cbv zeta in G.
    destruct (PhysicsEngine.generateNewWindPattern M
                (EngineObj.set_lastWindUpdate (EngineObj.lastWindUpdate e + deltaTime) e) r)
      as [e1 r1].
    cbn [fst snd] in G. destruct G as (_ & _ & Gw & _).
    unfold ret in E. injection E as <- <-.
    cbn [EngineObj.windForce EngineObj.targetWind EngineObj.set_lastWindUpdate
         EngineObj.set_windForce Vec.x Vec.y] in *.
    rewrite Gw. split; ring.
  - unfold bind, ret in E. injection E as <- <-.
    cbn [EngineObj.windForce EngineObj.targetWind EngineObj.set_lastWindUpdate
         EngineObj.set_windForce Vec.x Vec.y].
    split; ring.
Qed.

(** A rolled wind target is gentle: with sine and cosine within [-1, 1] and
    samples within [0, 1], its horizontal part is within 0.45 and its
    vertical part within 0.108 in absolute value. *)
Theorem wind_target_is_bounded :
  forall (M : Math.lib) e r,
    (forall a, -1 <= Math.cos M a <= 1) ->
    (forall a, -1 <= Math.sin M a <= 1) ->
    (forall n, 0 <= samples r n <= 1) ->
    let e' := fst (PhysicsEngine.generateNewWindPattern M e r) in
    -0.45 <= Vec.x (EngineObj.targetWind e') <= 0.45 /\
    -0.108 <= Vec.y (EngineObj.targetWind e') <= 0.108.
Proof.
  intros M e r Hc Hs Hr e'. subst e'.
  unfold PhysicsEngine.generateNewWindPattern, bind, Math_random.
  cbn [fst snd cursor samples].
  set (w := 0.1 + samples r (cursor r) * 0.2).
  set (c := Math.cos M (samples r (S (cursor r)) * Math.PI M * 2)).
  set (sn := Math.sin M (samples r (S (cursor r)) * Math.PI M * 2)).
  assert (Hw : 0.1 <= w <= 0.3) by (subst w; pose proof (Hr (cursor r)); lra).
  assert (Hc' : -1 <= c <= 1) by apply Hc.
  assert (Hs' : -1 <= sn <= 1) by apply Hs.
  assert (Bc : - w <= c * w <= w) by (split; nra).
  assert (Bs : - w <= sn * w <= w) by (split; nra).
  case_if; unfold ret;
    cbn [fst EngineObj.targetWind EngineObj.set_targetWind Vec.x Vec.y];
    repeat split; lra.
Qed.

Lemma wind_target_is_bounded_witness :
  -0.45 <= Vec.x (EngineObj.targetWind
                    (fst (PhysicsEngine.generateNewWindPattern plainMath calmEngine halves)))
        <= 0.45 /\
  -0.108 <= Vec.y (EngineObj.targetWind
                     (fst (PhysicsEngine.generateNewWindPattern plainMath calmEngine halves)))
         <= 0.108.
Proof.
  apply (wind_target_is_bounded plainMath calmEngine halves).
  - intro a. split; vm_compute; discriminate.
  - intro a. split; vm_compute; discriminate.
  - intro n. split; vm_compute; discriminate.
Defined.
(** ** A frame of the bubble manager and the engine *)

Section FrameFacts.
Variable M : Math.lib.

(** The engine that [Bubble.update] hands back. *)
Lemma Bubble_update_engine win now b deltaTime e sm r :
  fst (fst (Bubble.update M win now b deltaTime (Some e) sm r)) =
  if reachesPhysics deltaTime b
  then Some (fst (PhysicsEngine.updateEnvironmentalForces M e deltaTime r))
  else Some e.
Proof.
  unfold reachesPhysics.
  destruct (BubbleObj.isAlive b) eqn:Halive; cbn [andb].
  - destruct (BubbleObj.age b + deltaTime <? BubbleObj.lifetime b) eqn:L.
    + apply ltb_true in L. unfold Bubble.update. rewrite Halive. cbn [negb]. cbv zeta.
      replace (BubbleObj.age (BubbleObj.set_age (BubbleObj.age b + deltaTime) b) >=?
               BubbleObj.lifetime (BubbleObj.set_age (BubbleObj.age b + deltaTime) b)) with false
        by (symmetry; apply geb_false; exact L).
      unfold bind at 1. unfold Bubble.move, bind.
      pose proof (updateBubble_engine M e now
                    (BubbleObj.set_age (BubbleObj.age b + deltaTime) b) deltaTime r) as E.
      destruct (PhysicsEngine.updateBubble M e now
                  (BubbleObj.set_age (BubbleObj.age b + deltaTime) b) deltaTime r)
        as [[e1 b1] r1].
      cbn [fst] in E. unfold ret. case_if; cbn [fst]; rewrite E; reflexivity.
    + apply ltb_false in L.
      rewrite (update_expired M win now b deltaTime (Some e) sm r Halive L). reflexivity.
  - rewrite (update_dead M win now b deltaTime (Some e) sm r Halive). reflexivity.
Qed.

Lemma updateAt_engine win now deltaTime sm i m e r :
  snd (fst (BubbleManager.updateAt M win now deltaTime sm i (m, Some e) r)) =
  match nth_error (BubbleManager.bubbles m) i with
  | Some b => if reachesPhysics deltaTime b
              then Some (fst (PhysicsEngine.updateEnvironmentalForces M e deltaTime r))
              else Some e
  | None => Some e
  end.
Proof.
  unfold BubbleManager.updateAt.
  destruct (nth_error (BubbleManager.bubbles m) i) as [b|] eqn:E; [|reflexivity].
  unfold bind.
  pose proof (Bubble_update_engine win now b deltaTime e sm r) as H.
  destruct (Bubble.update M win now b deltaTime (Some e) sm r) as [[pe' b'] r'].
  cbn [fst] in H. case_if; unfold ret; cbn [fst snd]; exact H.
Qed.

(** The bubbles below the index of the loop are those of the start. *)
Lemma updateAt_prefix win now deltaTime sm i m pe r j :
  (j < i)%nat ->
  nth_error (BubbleManager.bubbles
               (fst (fst (BubbleManager.updateAt M win now deltaTime sm i (m, pe) r)))) j =
  nth_error (BubbleManager.bubbles m) j.
Proof.
  intro Hj. unfold BubbleManager.updateAt.
  destruct (nth_error (BubbleManager.bubbles m) i) as [b|] eqn:E; [|reflexivity].
  unfold bind.
  destruct (Bubble.update M win now b deltaTime pe sm r) as [[pe' b'] r'].
  case_if; unfold ret; cbn [fst].
  - unfold BubbleManager.removeBubble. cbn [BubbleManager.bubbles].
    destruct (nth_error (store i b' (BubbleManager.bubbles m)) i);
      cbn [BubbleManager.bubbles].
    + rewrite splice1_nth_before by exact Hj. apply store_nth_other. lia.
    + apply store_nth_other. lia.
  - cbn [BubbleManager.bubbles]. apply store_nth_other. lia.
Qed.

Lemma firstn_ext {A} (l l' : list A) i :
  (forall j, (j < i)%nat -> nth_error l' j = nth_error l j) ->
  firstn i l' = firstn i l.
Proof.
  revert l l'. induction i as [|i IH]; intros l l' H; [reflexivity|].
  pose proof (H 0%nat ltac:(lia)) as H0.
  destruct l as [|a l], l' as [|a' l']; cbn in H0; try discriminate; [reflexivity|].
  injection H0 as ->. cbn. f_equal. apply IH. intros j Hj.
  apply (H (S j)). lia.
Qed.

Lemma firstn_succ {A} (l : list A) i a :
  nth_error l i = Some a -> firstn (S i) l = firstn i l ++ [a].
Proof.
  revert i. induction l as [|b l IH]; intros [|i] H; cbn in *; try discriminate.
  - injection H as ->. reflexivity.
  - f_equal. apply IH. exact H.
Qed.

Lemma firstn_beyond {A} (l : list A) i :
  nth_error l i = None -> firstn (S i) l = firstn i l.
Proof.
  intro H. apply nth_error_None in H. rewrite !firstn_all2 by lia. reflexivity.
Qed.

Lemma updateEnvironmentalForces_no_roll e deltaTime r :
  EngineObj.lastWindUpdate e + deltaTime < EngineObj.windUpdateInterval e ->
  let e' := fst (PhysicsEngine.updateEnvironmentalForces M e deltaTime r) in
  EngineObj.lastWindUpdate e' = EngineObj.lastWindUpdate e + deltaTime /\
  EngineObj.windUpdateInterval e' = EngineObj.windUpdateInterval e /\
  EngineObj.targetWind e' = EngineObj.targetWind e.
Proof.
  intros C e'. subst e'.
  destruct (PhysicsEngine.updateEnvironmentalForces M e deltaTime r) as [e' r'] eqn:E.
  cbn [fst]. unfold PhysicsEngine.updateEnvironmentalForces in E. cbv zeta in E.
  cbn [EngineObj.lastWindUpdate EngineObj.windUpdateInterval EngineObj.set_lastWindUpdate] in E.
  replace (EngineObj.lastWindUpdate e + deltaTime >=? EngineObj.windUpdateInterval e)
    with false in E by (symmetry; apply geb_false; exact C).
  unfold bind, ret in E. injection E as <- <-. repeat split.
Qed.

(** The number of bubbles among the first [k] that reach the physics
    engine. *)
Let movers (deltaTime : Q) (k : nat) (m : BubbleManager.t) : nat :=
  List.length (filter (reachesPhysics deltaTime) (firstn k (BubbleManager.bubbles m))).

Lemma updateFrom_clock win now deltaTime sm k : forall m e r,
  0 <= deltaTime ->
  EngineObj.lastWindUpdate e + inject_Z (Z.of_nat (movers deltaTime k m)) * deltaTime
    < EngineObj.windUpdateInterval e ->
  exists e',
    snd (fst (BubbleManager.updateFrom M win now deltaTime sm k (m, Some e) r)) = Some e' /\
    EngineObj.windUpdateInterval e' = EngineObj.windUpdateInterval e /\
    EngineObj.targetWind e' = EngineObj.targetWind e /\
    EngineObj.lastWindUpdate e' ==
      EngineObj.lastWindUpdate e + inject_Z (Z.of_nat (movers deltaTime k m)) * deltaTime.
Proof.
  induction k as [|i IH]; intros m e r Hdt Hlt.
  - exists e. cbn [BubbleManager.updateFrom]. unfold ret. cbn [fst snd].
    repeat split. unfold movers. cbn. ring.
  - cbn [BubbleManager.updateFrom]. unfold bind.
    pose proof (updateAt_engine win now deltaTime sm i m e r) as He.
    pose proof (updateAt_prefix win now deltaTime sm i m (Some e) r) as Hp.
    destruct (BubbleManager.updateAt M win now deltaTime sm i (m, Some e) r)
      as [[m1 pe1] r1].
    cbn [fst snd] in He, Hp.
    assert (Hm : movers deltaTime i m1 = movers deltaTime i m).
    { unfold movers. f_equal. f_equal. apply firstn_ext. exact Hp. }
    assert (Hn : 0 <= inject_Z (Z.of_nat (movers deltaTime i m)) * deltaTime).
    { apply Qmult_le_0_compat; [|exact Hdt]. change 0 with (inject_Z 0).
      rewrite <- Zle_Qle. lia. }
    assert (Hstay : movers deltaTime (S i) m = movers deltaTime i m ->
                    pe1 = Some e ->
                    exists e',
                      snd (fst (BubbleManager.updateFrom M win now deltaTime sm i (m1, pe1) r1))
                        = Some e' /\
                      EngineObj.windUpdateInterval e' = EngineObj.windUpdateInterval e /\
                      EngineObj.targetWind e' = EngineObj.targetWind e /\
                      EngineObj.lastWindUpdate e' ==
                        EngineObj.lastWindUpdate e +
                        inject_Z (Z.of_nat (movers deltaTime (S i) m)) * deltaTime).
    { intros Hs ->. rewrite Hs in *. rewrite <- Hm in *. apply IH; assumption. }
    destruct (nth_error (BubbleManager.bubbles m) i) as [b|] eqn:E.
    + assert (Hsucc : movers deltaTime (S i) m =
                      (movers deltaTime i m + (if reachesPhysics deltaTime b then 1 else 0))%nat).
      { unfold movers. rewrite (firstn_succ _ _ _ E), filter_app, length_app. cbn [filter].
        destruct (reachesPhysics deltaTime b); reflexivity. }
      destruct (reachesPhysics deltaTime b) eqn:R.
      * rewrite Hsucc in *. rewrite Nat2Z.inj_add, inject_Z_plus in *.
        change (inject_Z (Z.of_nat 1)) with 1 in *.
        subst pe1.
        assert (C : EngineObj.lastWindUpdate e + deltaTime < EngineObj.windUpdateInterval e)
          by lra.
        destruct (updateEnvironmentalForces_no_roll e deltaTime r C) as (E1 & E2 & E3).
        set (e1 := fst (PhysicsEngine.updateEnvironmentalForces M e deltaTime r)) in *.
        destruct (IH m1 e1 r1 Hdt) as (e' & R1 & R2 & R3 & R4).
        { rewrite Hm, E1, E2. lra. }
        exists e'. split; [exact R1|]. split; [congruence|]. split; [congruence|].
        rewrite R4, Hm, E1. ring.
      * apply Hstay; [rewrite Hsucc; lia|exact He].
    + apply Hstay; [|exact He].
      unfold movers. rewrite (firstn_beyond _ _ E). reflexivity.
Qed.

End FrameFacts.

(** In a frame, every live bubble that is not at the end of its lifetime
    runs [updateEnvironmentalForces] once: while the interval is not
    reached, a frame of [n] such bubbles advances the wind clock by [n]
    times the frame time and leaves the target alone. *)
Theorem frame_advances_wind_clock_per_bubble :
  forall (M : Math.lib) win now m deltaTime e sm r,
    0 <= deltaTime ->
    let n := List.length (filter (reachesPhysics deltaTime) (BubbleManager.bubbles m)) in
    EngineObj.lastWindUpdate e + inject_Z (Z.of_nat n) * deltaTime
      < EngineObj.windUpdateInterval e ->
    exists e',
      snd (fst (BubbleManager.update M win now m deltaTime (Some e) sm r)) = Some e' /\
      EngineObj.targetWind e' = EngineObj.targetWind e /\
      EngineObj.lastWindUpdate e' ==
        EngineObj.lastWindUpdate e + inject_Z (Z.of_nat n) * deltaTime.
Proof.
  intros M win now m deltaTime e sm r Hdt n Hlt. subst n.
  unfold BubbleManager.update.
  destruct (updateFrom_clock M win now deltaTime sm
              (List.length (BubbleManager.bubbles m)) m e r Hdt) as (e' & R1 & _ & R3 & R4).
  - rewrite firstn_all. exact Hlt.
  - exists e'. rewrite firstn_all in R4. repeat split; assumption.
Qed.

Lemma frame_advances_wind_clock_per_bubble_witness :
  exists e',
    snd (fst (BubbleManager.update plainMath screen 0 threeBubbles 16 (Some calmEngine) 1 halves))
      = Some e' /\
    EngineObj.targetWind e' = EngineObj.targetWind calmEngine /\
    EngineObj.lastWindUpdate e' ==
      EngineObj.lastWindUpdate calmEngine +
      inject_Z (Z.of_nat (List.length (filter (reachesPhysics 16)
                                         (BubbleManager.bubbles threeBubbles)))) * 16.
Proof.
  apply (frame_advances_wind_clock_per_bubble plainMath screen 0 threeBubbles 16 calmEngine 1 halves).
  - vm_compute. discriminate.
  - vm_compute. reflexivity.
Defined.
(** ** Forces *)

(** [updateBubble] writes the position and the velocity of the bubble and
    nothing else of it, and the engine it leaves is the one that
    [updateEnvironmentalForces] leaves, whatever the bubble. *)
Theorem updateBubble_writes_position_and_velocity_only :
  forall (M : Math.lib) e now b deltaTime r,
    let b' := snd (fst (PhysicsEngine.updateBubble M e now b deltaTime r)) in
    BubbleObj.addr b' = BubbleObj.addr b /\
    BubbleObj.size b' = BubbleObj.size b /\
    BubbleObj.radius b' = BubbleObj.radius b /\
    BubbleObj.lifetime b' = BubbleObj.lifetime b /\
    BubbleObj.age b' = BubbleObj.age b /\
    BubbleObj.isAlive b' = BubbleObj.isAlive b /\
    BubbleObj.opacity b' = BubbleObj.opacity b /\
    BubbleObj.theme b' = BubbleObj.theme b /\
    BubbleObj.hue b' = BubbleObj.hue b /\
    fst (fst (PhysicsEngine.updateBubble M e now b deltaTime r)) =
      fst (PhysicsEngine.updateEnvironmentalForces M e deltaTime r).
Proof.
  intros M e now b deltaTime r b'. subst b'.
  pose proof (updateBubble_rest M e now b deltaTime r) as R.
  unfold restOf in R. injection R as Ra Rs Rr Rl Rg Ri Ro Rt Rh Rhs Rsp.
  repeat split; try assumption. apply updateBubble_engine.
Qed.

(** The boundary forces: none between the margins and none at the bottom;
    left of the left margin a push to the right, right of the right margin
    a push to the left, above the top margin a push down, each proportional
    to the depth; the position is not written. *)
Theorem handleBoundaries_pushes_inwards :
  forall e b,
    let b' := PhysicsEngine.handleBoundaries e b in
    BubbleObj.x b' = BubbleObj.x b /\
    BubbleObj.y b' = BubbleObj.y b /\
    (50 <= BubbleObj.x b -> BubbleObj.x b <= EngineObj.width e - 50 ->
     BubbleObj.vx b' = BubbleObj.vx b) /\
    (BubbleObj.x b < 50 ->
     BubbleObj.vx b' == BubbleObj.vx b + (50 - BubbleObj.x b) * 0.001 /\
     BubbleObj.vx b < BubbleObj.vx b') /\
    (50 <= BubbleObj.x b -> EngineObj.width e - 50 < BubbleObj.x b ->
     BubbleObj.vx b' == BubbleObj.vx b - (BubbleObj.x b - (EngineObj.width e - 50)) * 0.001 /\
     BubbleObj.vx b' < BubbleObj.vx b) /\
    (50 <= BubbleObj.y b -> BubbleObj.vy b' = BubbleObj.vy b) /\
    (BubbleObj.y b < 50 ->
     BubbleObj.vy b' == BubbleObj.vy b + (50 - BubbleObj.y b) * 0.001 /\
     BubbleObj.vy b < BubbleObj.vy b').
Proof.
  intros e b b'. subst b'. unfold PhysicsEngine.handleBoundaries. cbv zeta.
  destruct (BubbleObj.x b <? 50) eqn:X1.
  - apply ltb_true in X1.
    cbn [BubbleObj.y BubbleObj.vy BubbleObj.set_vx].
    destruct (BubbleObj.y b <? 50) eqn:Y1;
      [apply ltb_true in Y1|apply ltb_false in Y1];
      cbn [BubbleObj.x BubbleObj.y BubbleObj.vx BubbleObj.vy BubbleObj.set_vx BubbleObj.set_vy];
      repeat split; try reflexivity; try lra; intros; try lra; split; lra.
  - apply ltb_false in X1.
    destruct (BubbleObj.x b >? EngineObj.width e - 50) eqn:X2;
      [apply gtb_true in X2|apply gtb_false in X2];
      cbn [BubbleObj.y BubbleObj.vy BubbleObj.set_vx];
      (destruct (BubbleObj.y b <? 50) eqn:Y1;
       [apply ltb_true in Y1|apply ltb_false in Y1]);
      cbn [BubbleObj.x BubbleObj.y BubbleObj.vx BubbleObj.vy BubbleObj.set_vx BubbleObj.set_vy];
      repeat split; try reflexivity; try lra; intros; try lra; split; lra.
Qed.

(** Simple physics switches the wobble off, keeps at most two breeze zones
    and slows the wind clock to 5000; switching it off again restores the
    flag only. *)
Theorem enableSimplePhysics_is_not_undone :
  forall (M : Math.lib) e,
    let e1 := PhysicsEngine.enableSimplePhysics e true in
    let e2 := PhysicsEngine.enableSimplePhysics e1 false in
    (forall b dt g, PhysicsEngine.applyWobble M e1 b dt g = b) /\
    (List.length (EngineObj.breezeZones e1) <= 2)%nat /\
    EngineObj.windUpdateInterval e1 = 5000 /\
    EngineObj.simplePhysics e2 = false /\
    EngineObj.breezeZones e2 = EngineObj.breezeZones e1 /\
    EngineObj.windUpdateInterval e2 = 5000.
Proof.
  intros M e e1 e2. subst e1 e2. unfold PhysicsEngine.enableSimplePhysics.
  cbn [EngineObj.simplePhysics EngineObj.breezeZones EngineObj.windUpdateInterval
       EngineObj.set_simplePhysics EngineObj.set_breezeZones EngineObj.set_windUpdateInterval].
  repeat split. apply firstn_le_length.
Qed.
(** ** More on the bubble manager *)

Lemma splice1_nth_from {A} i j (l : list A) :
  (i <= j)%nat -> nth_error (splice1 i l) j = nth_error l (S j).
Proof.
  revert i j. induction l as [|b l IH]; intros i j H.
  - destruct i, j; reflexivity.
  - destruct i as [|i]; [reflexivity|].
    destruct j as [|j]; [lia|].
    cbn [splice1 nth_error]. apply IH. lia.
Qed.

Section ManagerFacts.
Variable M : Math.lib.

(** The bubbles from index [i] on are alive. *)
Let aliveFrom (i : nat) (m : BubbleManager.t) : Prop :=
  forall j b, (i <= j)%nat -> nth_error (BubbleManager.bubbles m) j = Some b ->
              BubbleObj.isAlive b = true.

Lemma updateAt_aliveFrom win now deltaTime sm i m pe r :
  aliveFrom (S i) m ->
  aliveFrom i (fst (fst (BubbleManager.updateAt M win now deltaTime sm i (m, pe) r))).
Proof.
  intros H. unfold BubbleManager.updateAt.
  destruct (nth_error (BubbleManager.bubbles m) i) as [b|] eqn:E.
  - unfold bind.
    destruct (Bubble.update M win now b deltaTime pe sm r) as [[pe' b'] r'].
    assert (Hi : (i < List.length (BubbleManager.bubbles m))%nat).
    { apply nth_error_Some. congruence. }
    destruct (BubbleObj.isAlive b') eqn:A; cbn [negb]; unfold ret; cbn [fst].
    + intros j c Hj Hc. cbn [BubbleManager.bubbles] in Hc.
      destruct (Nat.eq_dec j i) as [->|Hne].
      * rewrite store_nth in Hc by exact Hi. injection Hc as <-. exact A.
      * rewrite store_nth_other in Hc by lia. apply (H j c); [lia|exact Hc].
    + intros j c Hj Hc. unfold BubbleManager.removeBubble in Hc.
      cbn [BubbleManager.bubbles] in Hc. rewrite store_nth in Hc by exact Hi.
      cbn [BubbleManager.bubbles] in Hc. rewrite splice1_nth_from in Hc by exact Hj.
      rewrite store_nth_other in Hc by lia. apply (H (S j) c); [lia|exact Hc].
  - unfold ret. cbn [fst]. intros j c Hj Hc.
    apply nth_error_None in E.
    assert (nth_error (BubbleManager.bubbles m) j <> None) by congruence.
    apply nth_error_Some in H0. lia.
Qed.

Lemma updateFrom_aliveFrom win now deltaTime sm k : forall m pe r,
  aliveFrom k m ->
  aliveFrom 0 (fst (fst (BubbleManager.updateFrom M win now deltaTime sm k (m, pe) r))).
Proof.
  induction k as [|i IH]; intros m pe r H.
  - exact H.
  - cbn [BubbleManager.updateFrom]. unfold bind.
    pose proof (updateAt_aliveFrom win now deltaTime sm i m pe r H) as H1.
    destruct (BubbleManager.updateAt M win now deltaTime sm i (m, pe) r) as [[m1 pe1] r1].
    apply IH. exact H1.
Qed.

Lemma update_all_alive win now m deltaTime pe sm r :
  Forall (fun b => BubbleObj.isAlive b = true)
    (BubbleManager.bubbles (fst (fst (BubbleManager.update M win now m deltaTime pe sm r)))).
Proof.
  unfold BubbleManager.update.
  assert (H : aliveFrom (List.length (BubbleManager.bubbles m)) m).
  { intros j b Hj Hb.
    assert (nth_error (BubbleManager.bubbles m) j <> None) by congruence.
    apply nth_error_Some in H. lia. }
  pose proof (updateFrom_aliveFrom win now deltaTime sm _ m pe r H) as H0.
  apply Forall_forall. intros b Hin. apply In_nth_error in Hin. destruct Hin as [j Hj].
  apply (H0 j b); [lia|exact Hj].
Qed.

End ManagerFacts.

(** After [BubbleManager.update] every bubble of the active array is alive:
    a bubble that was popped, that expired or that left the bounds is in the
    pool, and the pool invariant still holds. *)
Theorem update_retires_every_dead_bubble :
  forall (M : Math.lib) win now m deltaTime pe sm r,
    let m' := fst (fst (BubbleManager.update M win now m deltaTime pe sm r)) in
    Forall (fun b => BubbleObj.isAlive b = true) (BubbleManager.bubbles m') /\
    (BubblePoolInv m -> BubblePoolInv m').
Proof.
  intros M win now m deltaTime pe sm r m'. subst m'. split.
  - apply update_all_alive.
  - intro I. unfold BubbleManager.update. apply BubblePoolInv_updateFrom. exact I.
Qed.

(** A bubble that is not alive is left as it is by [Bubble.update], and so
    are the engine and the random source; a live bubble that reaches its
    lifetime is aged and marked dead, and nothing else happens. *)
Theorem dead_or_expired_bubble_skips_physics :
  forall (M : Math.lib) win now b deltaTime pe sm r,
    (BubbleObj.isAlive b = false ->
     Bubble.update M win now b deltaTime pe sm r = (pe, b, r)) /\
    (BubbleObj.isAlive b = true ->
     BubbleObj.lifetime b <= BubbleObj.age b + deltaTime ->
     Bubble.update M win now b deltaTime pe sm r =
     (pe, BubbleObj.set_isAlive false (BubbleObj.set_age (BubbleObj.age b + deltaTime) b), r)).
Proof.
  intros. split.
  - apply update_dead.
  - apply update_expired.
Qed.

(** [sortBySizeDesc], the order of [render]: a permutation of the array
    with sizes in decreasing order, and an array already in that order is
    left as it is. *)
Theorem render_order_is_by_decreasing_size :
  forall l,
    Permutation l (BubbleManager.sortBySizeDesc l) /\
    StronglySorted (fun a b => BubbleObj.size b <= BubbleObj.size a)
      (BubbleManager.sortBySizeDesc l) /\
    (StronglySorted (fun a b => BubbleObj.size b <= BubbleObj.size a) l ->
     BubbleManager.sortBySizeDesc l = l).
Proof.
  assert (Hins : forall a l,
    StronglySorted (fun a b => BubbleObj.size b <= BubbleObj.size a) l ->
    StronglySorted (fun a b => BubbleObj.size b <= BubbleObj.size a)
      (BubbleManager.insertBySize a l)).
  { intros a l. induction l as [|b l IH]; intro S; cbn.
    - constructor; constructor.
    - inversion S as [|? ? S' F]; subst.
      destruct (BubbleObj.size b <=? BubbleObj.size a) eqn:C.
      + apply leb_true in C. constructor; [exact S|]. constructor; [exact C|].
        eapply Forall_impl; [|exact F]. cbn. intros c Hc. lra.
      + apply leb_false in C. constructor; [apply IH; exact S'|].
        eapply Permutation_Forall; [apply insertBySize_perm|].
        constructor; [lra|exact F]. }
  intro l. split; [apply sortBySizeDesc_perm|]. split.
  - induction l as [|a l IH]; cbn; [constructor|]. apply Hins. exact IH.
  - induction l as [|a l IH]; intro S; [reflexivity|].
    inversion S as [|? ? S' F]; subst.
    change (BubbleManager.sortBySizeDesc (a :: l))
      with (BubbleManager.insertBySize a (BubbleManager.sortBySizeDesc l)).
    rewrite (IH S').
    destruct l as [|b l]; [reflexivity|]. cbn [BubbleManager.insertBySize].
    inversion F; subst.
    replace (BubbleObj.size b <=? BubbleObj.size a) with true; [reflexivity|].
    symmetry. apply leb_true. assumption.
Qed.

Lemma render_order_is_by_decreasing_size_witness :
  BubbleManager.sortBySizeDesc (BubbleManager.bubbles threeBubbles) =
  BubbleManager.bubbles threeBubbles.
Proof.
  apply (render_order_is_by_decreasing_size (BubbleManager.bubbles threeBubbles)).
  repeat constructor; vm_compute; discriminate.
Defined.

(** [createBubble] takes the last object of the pool when there is one and
    allocates otherwise; either way the bubble is appended to the active
    array, alive, of age 0, opaque, at rest, at the given place and of the
    given size and lifetime, with half the size as radius. *)
Theorem createBubble_reuses_the_pool :
  forall (M : Math.lib) m x y size lifetime theme r,
    let m' := fst (fst (BubbleManager.createBubble M m x y size lifetime theme r)) in
    let b := snd (fst (BubbleManager.createBubble M m x y size lifetime theme r)) in
    BubbleManager.bubbles m' = BubbleManager.bubbles m ++ [b] /\
    BubbleManager.activeCount m' = (BubbleManager.activeCount m + 1)%Z /\
    (BubbleObj.x b = x /\ BubbleObj.y b = y /\ BubbleObj.size b = size /\
     BubbleObj.radius b = size / 2 /\ BubbleObj.lifetime b = lifetime /\
     BubbleObj.age b = 0 /\ BubbleObj.isAlive b = true /\ BubbleObj.opacity b = 1 /\
     BubbleObj.vx b = 0 /\ BubbleObj.vy b = 0 /\ BubbleObj.theme b = theme) /\
    (forall rest pooled,
        BubbleManager.bubblePool m = rest ++ [pooled] ->
        BubbleManager.bubblePool m' = rest /\
        BubbleObj.addr b = BubbleObj.addr pooled /\
        BubbleManager.allocated m' = BubbleManager.allocated m) /\
    (BubbleManager.bubblePool m = [] ->
     BubbleManager.bubblePool m' = [] /\
     BubbleObj.addr b = BubbleManager.allocated m /\
     BubbleManager.allocated m' = S (BubbleManager.allocated m)).
Proof.
  intros M m x y size lifetime theme r m' b. subst m' b.
  destruct (BubbleManager.createBubble M m x y size lifetime theme r) as [[m' b] r'] eqn:E.
  cbn [fst snd]. unfold BubbleManager.createBubble in E.
  destruct (pop (BubbleManager.bubblePool m)) as [[pooled rest]|] eqn:P.
  - apply pop_some in P. unfold bind in E.
    unfold BubbleManager.resetBubble, bind, Math_random in E. cbn [fst snd] in E.
    assert (K : forall stars r0,
      (ret (BubbleManager.mk (BubbleManager.maxBubbles m)
              (push (BubbleManager.bubbles m)
                 (BubbleObj.mk (BubbleObj.addr pooled) x y size (size / 2) lifetime 0 true 0 0
                    (samples r (cursor r) * Math.PI M * 2) (BubbleObj.wobbleSpeed pooled)
                    (BubbleObj.spawnMomentumX pooled) (BubbleObj.spawnMomentumY pooled)
                    (BubbleObj.spawnDirection pooled) 1 theme
                    (Bubble.initialHue theme (samples r (S (cursor r))))
                    (BubbleObj.hueSpeed pooled)
                    (samples r (S (S (cursor r))) * Math.PI M * 2)
                    (samples r (S (S (S (cursor r)))) * Math.PI M * 2) stars))
              rest (BubbleManager.activeCount m + 1) (BubbleManager.allocated m),
            BubbleObj.mk (BubbleObj.addr pooled) x y size (size / 2) lifetime 0 true 0 0
                    (samples r (cursor r) * Math.PI M * 2) (BubbleObj.wobbleSpeed pooled)
                    (BubbleObj.spawnMomentumX pooled) (BubbleObj.spawnMomentumY pooled)
                    (BubbleObj.spawnDirection pooled) 1 theme
                    (Bubble.initialHue theme (samples r (S (cursor r))))
                    (BubbleObj.hueSpeed pooled)
                    (samples r (S (S (cursor r))) * Math.PI M * 2)
                    (samples r (S (S (S (cursor r)))) * Math.PI M * 2) stars) r0
       = (m', b, r')) ->
      BubbleManager.bubbles m' = BubbleManager.bubbles m ++ [b] /\
      BubbleManager.activeCount m' = (BubbleManager.activeCount m + 1)%Z /\
      (BubbleObj.x b = x /\ BubbleObj.y b = y /\ BubbleObj.size b = size /\
       BubbleObj.radius b = size / 2 /\ BubbleObj.lifetime b = lifetime /\
       BubbleObj.age b = 0 /\ BubbleObj.isAlive b = true /\ BubbleObj.opacity b = 1 /\
       BubbleObj.vx b = 0 /\ BubbleObj.vy b = 0 /\ BubbleObj.theme b = theme) /\
      BubbleManager.bubblePool m' = rest /\
      BubbleObj.addr b = BubbleObj.addr pooled /\
      BubbleManager.allocated m' = BubbleManager.allocated m).
    { intros stars r0 H. unfold ret in H. injection H as <- <- <-. repeat split. }
    assert (R : BubbleManager.bubbles m' = BubbleManager.bubbles m ++ [b] /\
      BubbleManager.activeCount m' = (BubbleManager.activeCount m + 1)%Z /\
      (BubbleObj.x b = x /\ BubbleObj.y b = y /\ BubbleObj.size b = size /\
       BubbleObj.radius b = size / 2 /\ BubbleObj.lifetime b = lifetime /\
       BubbleObj.age b = 0 /\ BubbleObj.isAlive b = true /\ BubbleObj.opacity b = 1 /\
       BubbleObj.vx b = 0 /\ BubbleObj.vy b = 0 /\ BubbleObj.theme b = theme) /\
      BubbleManager.bubblePool m' = rest /\
      BubbleObj.addr b = BubbleObj.addr pooled /\
      BubbleManager.allocated m' = BubbleManager.allocated m).
    { destruct (Bubble.hasStars theme).
      - destruct (Bubble.generateStarPositions M (size / 2) _) as [stars r0] in E.
        eapply K. exact E.
      - eapply K. exact E. }
    destruct R as (R1 & R2 & R3 & R4 & R5 & R6).
    split; [exact R1|]. split; [exact R2|]. split; [exact R3|]. split.
    + intros rest' pooled' Hp. rewrite P in Hp. apply app_inj_tail in Hp.
      destruct Hp as [-> ->]. repeat split; assumption.
    + intro Hp. rewrite P in Hp. destruct rest; discriminate.
  - apply pop_none in P. unfold bind in E.
    unfold Bubble.constructor, bind, Math_random in E. cbn [fst snd] in E.
    assert (K : forall wo ws h hs sp sh stars r0,
      (ret (BubbleManager.mk (BubbleManager.maxBubbles m)
              (push (BubbleManager.bubbles m)
                 (BubbleObj.mk (BubbleManager.allocated m) x y size (size / 2) lifetime 0 true
                    0 0 wo ws 0 0 bottom 1 theme h hs sp sh stars))
              (BubbleManager.bubblePool m) (BubbleManager.activeCount m + 1)
              (S (BubbleManager.allocated m)),
            BubbleObj.mk (BubbleManager.allocated m) x y size (size / 2) lifetime 0 true
                    0 0 wo ws 0 0 bottom 1 theme h hs sp sh stars) r0
       = (m', b, r')) ->
      BubbleManager.bubbles m' = BubbleManager.bubbles m ++ [b] /\
      BubbleManager.activeCount m' = (BubbleManager.activeCount m + 1)%Z /\
      (BubbleObj.x b = x /\ BubbleObj.y b = y /\ BubbleObj.size b = size /\
       BubbleObj.radius b = size / 2 /\ BubbleObj.lifetime b = lifetime /\
       BubbleObj.age b = 0 /\ BubbleObj.isAlive b = true /\ BubbleObj.opacity b = 1 /\
       BubbleObj.vx b = 0 /\ BubbleObj.vy b = 0 /\ BubbleObj.theme b = theme) /\
      BubbleManager.bubblePool m' = BubbleManager.bubblePool m /\
      BubbleObj.addr b = BubbleManager.allocated m /\
      BubbleManager.allocated m' = S (BubbleManager.allocated m)).
    { intros wo ws h hs sp sh stars r0 H. unfold ret in H. injection H as <- <- <-.
      repeat split. }
    assert (R : BubbleManager.bubbles m' = BubbleManager.bubbles m ++ [b] /\
      BubbleManager.activeCount m' = (BubbleManager.activeCount m + 1)%Z /\
      (BubbleObj.x b = x /\ BubbleObj.y b = y /\ BubbleObj.size b = size /\
       BubbleObj.radius b = size / 2 /\ BubbleObj.lifetime b = lifetime /\
       BubbleObj.age b = 0 /\ BubbleObj.isAlive b = true /\ BubbleObj.opacity b = 1 /\
       BubbleObj.vx b = 0 /\ BubbleObj.vy b = 0 /\ BubbleObj.theme b = theme) /\
      BubbleManager.bubblePool m' = BubbleManager.bubblePool m /\
      BubbleObj.addr b = BubbleManager.allocated m /\
      BubbleManager.allocated m' = S (BubbleManager.allocated m)).
    { destruct (Bubble.hasStars theme).
      - destruct (Bubble.generateStarPositions M (size / 2) _) as [stars r0] in E.
        eapply K. exact E.
      - eapply K. exact E. }
    destruct R as (R1 & R2 & R3 & R4 & R5 & R6).
    split; [exact R1|]. split; [exact R2|]. split; [exact R3|]. split.
    + intros rest pooled Hp. rewrite P in Hp. destruct rest; discriminate.
    + intros _. rewrite R4, P. repeat split; assumption.
Qed.

Lemma createBubble_reuses_the_pool_witness :
  let m := fst (fst (BubbleManager.update plainMath screen 0
                       (BubbleManager.popBubble oneBubble (bubbleAt 0 500 400 100))
                       16 None 1 halves)) in
  BubbleManager.bubblePool
    (fst (fst (BubbleManager.createBubble plainMath m 10 20 80 18000 None halves))) = [] /\
  BubbleObj.addr
    (snd (fst (BubbleManager.createBubble plainMath m 10 20 80 18000 None halves))) =
  BubbleObj.addr (BubbleObj.set_isAlive false (bubbleAt 0 500 400 100)) /\
  BubbleManager.allocated
    (fst (fst (BubbleManager.createBubble plainMath m 10 20 80 18000 None halves))) =
  BubbleManager.allocated m.
Proof.
  intro m.
  apply (proj1 (proj2 (proj2 (proj2
           (createBubble_reuses_the_pool plainMath m 10 20 80 18000 None halves))))).
  reflexivity.
Defined.


(** ** More on the particle system *)

(** A clamp [Math.max(lo, Math.min(hi, v))] with [lo <= hi]. *)
Lemma clamp_spec lo hi v :
  lo <= hi ->
  lo <= Math_max lo (Math_min hi v) <= hi /\
  (lo <= v -> v <= hi -> Math_max lo (Math_min hi v) == v).
Proof.
  intro H. unfold Math_max, Math_min.
  destruct (v <? hi) eqn:C1; [apply ltb_true in C1|apply ltb_false in C1].
  - destruct (lo <? v) eqn:C2; [apply ltb_true in C2|apply ltb_false in C2];
      (split; [lra|intros; lra]).
  - destruct (lo <? hi) eqn:C2; [apply ltb_true in C2|apply ltb_false in C2];
      (split; [lra|intros; lra]).
Qed.



(** [setQualityLevel] clamps the level to [0.1, 1]. *)
Theorem setQualityLevel_clamps :
  forall s level,
    0.1 <= ParticleSystem.qualityLevel (ParticleSystem.setQualityLevel s level) <= 1 /\
    (0.1 <= level -> level <= 1 ->
     ParticleSystem.qualityLevel (ParticleSystem.setQualityLevel s level) == level).
Proof.
  intros s level. unfold ParticleSystem.setQualityLevel.
  cbn [ParticleSystem.qualityLevel ParticleSystem.set_qualityLevel].
  destruct (clamp_spec 0.1 1.0 level) as [Hc He]; [lra|].
  split; [lra|]. intros H1 H2. apply He; lra.
Qed.

(** [clearAll] moves every active particle to the pool: nothing is active
    afterwards, no object is lost and none is allocated. *)
Theorem clearAll_returns_everything_to_the_pool :
  forall s,
    ParticleSystem.particles (ParticleSystem.clearAll s) = [] /\
    ParticleSystem.activeParticles (ParticleSystem.clearAll s) = 0%Z /\
    ParticleSystem.particlePool (ParticleSystem.clearAll s) =
      ParticleSystem.particlePool s ++ ParticleSystem.particles s /\
    ParticleSystem.allocated (ParticleSystem.clearAll s) = ParticleSystem.allocated s /\
    (ParticlePoolInv s -> ParticlePoolInv (ParticleSystem.clearAll s)).
Proof.
  intro s. split; [reflexivity|]. split; [reflexivity|]. split; [reflexivity|].
  split; [reflexivity|]. apply clearAll_spec.
Qed.

Section ParticleUpdateFacts.
Variable M : Math.lib.

(** The particles from index [i] on are within their lifetime and
    visible. *)
Let freshFrom (i : nat) (s : ParticleSystem.t) : Prop :=
  forall j p, (i <= j)%nat -> nth_error (ParticleSystem.particles s) j = Some p ->
              ParticleObj.age p < ParticleObj.lifetime p /\ 0 < ParticleObj.opacity p.

Lemma removeParticle_nth s i j :
  (i < List.length (ParticleSystem.particles s))%nat -> (i <= j)%nat ->
  nth_error (ParticleSystem.particles (ParticleSystem.removeParticle s i)) j =
  nth_error (ParticleSystem.particles s) (S j).
Proof.
  intros Hi Hj. unfold ParticleSystem.removeParticle.
  destruct (nth_error (ParticleSystem.particles s) i) eqn:E.
  - cbn [ParticleSystem.particles ParticleSystem.set_activeParticles
         ParticleSystem.set_particlePool ParticleSystem.set_particles].
    apply splice1_nth_from. exact Hj.
  - apply nth_error_None in E. lia.
Qed.

Lemma particle_updateAt_freshFrom win dt i s :
  freshFrom (S i) s -> freshFrom i (ParticleSystem.updateAt M win dt i s).
Proof.
  intros H. unfold ParticleSystem.updateAt.
  destruct (nth_error (ParticleSystem.particles s) i) as [particle|] eqn:E.
  - assert (Hi : (i < List.length (ParticleSystem.particles s))%nat).
    { apply nth_error_Some. congruence. }
    destruct (negb (ParticleObj.isAlive particle)).
    + intros j p Hj Hp. rewrite removeParticle_nth in Hp by assumption.
      apply (H (S j) p); [lia|exact Hp].
    + cbv zeta.
      destruct ((ParticleObj.age (ParticleSystem.updateParticle M win s particle dt) >=?
                 ParticleObj.lifetime (ParticleSystem.updateParticle M win s particle dt)) ||
                (ParticleObj.opacity (ParticleSystem.updateParticle M win s particle dt) <=? 0))
        eqn:C.
      * intros j p Hj Hp. rewrite removeParticle_nth in Hp.
        -- cbn [ParticleSystem.particles ParticleSystem.set_particles] in Hp.
           rewrite store_nth_other in Hp by lia. apply (H (S j) p); [lia|exact Hp].
        -- cbn [ParticleSystem.particles ParticleSystem.set_particles].
           rewrite store_length. exact Hi.
        -- exact Hj.
      * apply orb_false_iff in C. destruct C as [C1 C2].
        apply geb_false in C1. apply leb_false in C2.
        intros j p Hj Hp. cbn [ParticleSystem.particles ParticleSystem.set_particles] in Hp.
        destruct (Nat.eq_dec j i) as [->|Hne].
        -- rewrite store_nth in Hp by exact Hi. injection Hp as <-. split; assumption.
        -- rewrite store_nth_other in Hp by lia. apply (H j p); [lia|exact Hp].
  - intros j p Hj Hp. apply nth_error_None in E.
    assert (nth_error (ParticleSystem.particles s) j <> None) by congruence.
    apply nth_error_Some in H0. lia.
Qed.

Lemma particle_updateFrom_freshFrom win dt k : forall s,
  freshFrom k s -> freshFrom 0 (ParticleSystem.updateFrom M win dt k s).
Proof.
  induction k as [|i IH]; intros s H; [exact H|].
  cbn [ParticleSystem.updateFrom]. apply IH. apply particle_updateAt_freshFrom. exact H.
Qed.

Lemma particle_update_fresh win s deltaTime :
  Forall (fun p => ParticleObj.age p < ParticleObj.lifetime p /\ 0 < ParticleObj.opacity p)
    (ParticleSystem.particles (ParticleSystem.update M win s deltaTime)).
Proof.
  unfold ParticleSystem.update. cbv zeta.
  assert (H : freshFrom (List.length (ParticleSystem.particles s)) s).
  { intros j p Hj Hp.
    assert (nth_error (ParticleSystem.particles s) j <> None) by congruence.
    apply nth_error_Some in H. lia. }
  pose proof (particle_updateFrom_freshFrom win (deltaTime / 16.67) _ s H) as H0.
  apply Forall_forall. intros p Hin. apply In_nth_error in Hin. destruct Hin as [j Hj].
  apply (H0 j p); [lia|exact Hj].
Qed.

End ParticleUpdateFacts.

(** After [ParticleSystem.update] every active particle is younger than
    its lifetime and has a positive opacity; the others are in the pool,
    and the pool invariant still holds. *)
Theorem particle_update_retires_old_and_faded :
  forall (M : Math.lib) win s deltaTime,
    let s' := ParticleSystem.update M win s deltaTime in
    Forall (fun p => ParticleObj.age p < ParticleObj.lifetime p /\ 0 < ParticleObj.opacity p)
      (ParticleSystem.particles s') /\
    ParticleSystem.allocated s' = ParticleSystem.allocated s /\
    (ParticlePoolInv s -> ParticlePoolInv s').
Proof.
  intros M win s deltaTime s'. subst s'. split; [apply particle_update_fresh|].
  unfold ParticleSystem.update. cbv zeta.
  destruct (updateFrom_spec M win (deltaTime / 16.67)
              (List.length (ParticleSystem.particles s)) s) as (I & A & _).
  split; assumption.
Qed.
(** ** More on the audio manager *)

(** With [bubblePopBuffer] undefined, [playAudioFile] makes and starts a
    buffer source and then does what [createPopSound] does. *)
Lemma playAudioFile_untracked dateNow now bubbleSize theme s :
  AudioObj.bubblePopBuffer (this s) = None ->
  AudioManager.playAudioFile dateNow now bubbleSize theme s =
  AudioManager.createPopSound dateNow now bubbleSize
    (mkAudioState (this s)
       (mkDevice (rejectsNonFinite (device s)) (S (S (nextNode (device s))))
          (push (playing (device s)) (nextNode (device s))) (callbacks (device s)))
       (mkRng (samples (rng s)) (S (S (cursor (rng s)))))).
Proof.
  intros Hb.
  unfold AudioManager.playAudioFile, tryCatch.
  unfold ebind at 1. unfold random at 1. unfold Math_random. cbn [fst snd].
  unfold ebind at 1. unfold createNode at 1. cbn [this device rng].
  unfold ebind at 1. unfold createNode at 1.
  cbn [this device rng rejectsNonFinite nextNode playing callbacks].
  unfold ebind at 1. unfold scheduleValue at 1.
  unfold ebind at 1. unfold random at 1. unfold Math_random.
  cbn [this device rng fst snd samples cursor].
  unfold ebind at 1. unfold getThis at 1. cbn [this].
  unfold ebind at 1. unfold scheduleValue at 1.
  unfold ebind at 1. unfold start at 1. unfold modifyDevice.
  cbn [this device rng rejectsNonFinite nextNode playing callbacks].
  rewrite Hb. unfold throw. reflexivity.
Qed.

Lemma playPopSound_gated dateNow now bubbleSize theme s :
  audioOpen (this s) = false ->
  AudioManager.playPopSound dateNow now bubbleSize theme s = (returns tt, s).
Proof.
  unfold audioOpen, AudioManager.playPopSound. intro H.
  unfold ebind at 1. unfold getThis at 1.
  destruct (AudioObj.isEnabled (this s)); [|reflexivity].
  destruct (AudioObj.isMuted (this s)); [reflexivity|].
  destruct (AudioObj.audioContext (this s)) as [[| |]|]; cbn in *;
    destruct (AudioObj.isInitialized (this s)); cbn in *; try discriminate; reflexivity.
Qed.

Lemma playPopSound_open dateNow now bubbleSize theme s :
  audioOpen (this s) = true ->
  AudioManager.playPopSound dateNow now bubbleSize theme s =
  (if (Z.of_nat (List.length (AudioObj.activeSounds (this s)))
       >=? AudioObj.maxSimultaneousSounds (this s))%Z
   then ebind (modifyThis (fun a => AudioObj.set_soundQueue
                   (push (AudioObj.soundQueue a) (AudioObj.mkQueued bubbleSize theme dateNow)) a))
              (fun _ => AudioManager.processQueuedSounds dateNow now)
   else if AudioObj.isBufferLoaded (this s) &&
           AudioManager.isSome (AudioObj.bufferOf (AudioObj.bubblePopBuffers (this s)) theme)
   then AudioManager.playAudioFile dateNow now bubbleSize theme
   else if AudioObj.isBufferLoaded (this s) &&
           AudioManager.isSome (AudioObj.classic (AudioObj.bubblePopBuffers (this s)))
   then AudioManager.playAudioFile dateNow now bubbleSize "classic"
   else AudioManager.createPopSound dateNow now bubbleSize) s.
Proof.
  unfold audioOpen, AudioManager.playPopSound. intro H.
  unfold ebind at 1. unfold getThis at 1.
  destruct (AudioObj.isEnabled (this s)); [|discriminate].
  destruct (AudioObj.isMuted (this s)); [discriminate|].
  destruct (AudioObj.isInitialized (this s)); [|discriminate].
  destruct (AudioObj.audioContext (this s)) as [[| |]|]; cbn in *;
    try discriminate; reflexivity.
Qed.

(** [processQueuedSounds] when every slot is taken: stale requests are
    dropped, nothing is played. *)
Lemma processQueuedSounds_full dateNow now s :
  (AudioObj.maxSimultaneousSounds (this s)
   <= Z.of_nat (List.length (AudioObj.activeSounds (this s))))%Z ->
  AudioManager.processQueuedSounds dateNow now s =
  (returns tt,
   mkAudioState
     (AudioObj.set_soundQueue
        (filter (fun sound => dateNow - AudioObj.timestamp sound <? 100)
                (AudioObj.soundQueue (this s))) (this s))
     (device s) (rng s)).
Proof.
  intro H. unfold AudioManager.processQueuedSounds.
  unfold ebind at 1. unfold modifyThis at 1.
  unfold ebind at 1. unfold getThis at 1.
  cbn [this device rng AudioObj.soundQueue AudioObj.set_soundQueue AudioObj.activeSounds
       AudioObj.maxSimultaneousSounds].
  destruct (filter _ _) as [|nextSound rest]; [reflexivity|].
  replace (Z.of_nat (List.length (AudioObj.activeSounds (this s)))
           <? AudioObj.maxSimultaneousSounds (this s))%Z with false
    by (symmetry; apply Z.ltb_ge; exact H).
  reflexivity.
Qed.

(** *** No exception leaves the audio manager *)

Lemma neverThrows_eret {A} (a : A) : neverThrows (eret a).
Proof. intro s. exists a, s. reflexivity. Qed.

Lemma neverThrows_ebind {A B} (m : Eff A) (k : A -> Eff B) :
  neverThrows m -> (forall a, neverThrows (k a)) -> neverThrows (ebind m k).
Proof.
  intros Hm Hk s. unfold ebind. destruct (Hm s) as (a & s1 & ->). apply Hk.
Qed.

Lemma neverThrows_tryCatch {A} (body : Eff A) (handler : JsError -> Eff A) :
  (forall e, neverThrows (handler e)) -> neverThrows (tryCatch body handler).
Proof.
  intros Hh s. unfold tryCatch. destruct (body s) as [[a|e] s1].
  - exists a, s1. reflexivity.
  - apply Hh.
Qed.

Lemma neverThrows_modifyThis f : neverThrows (modifyThis f).
Proof. intro s. eexists; eexists. reflexivity. Qed.

Lemma neverThrows_modifyDevice f : neverThrows (modifyDevice f).
Proof. intro s. eexists; eexists. reflexivity. Qed.

Lemma neverThrows_getThis : neverThrows getThis.
Proof. intro s. eexists; eexists. reflexivity. Qed.

Lemma neverThrows_createPopSound dateNow now bubbleSize :
  neverThrows (AudioManager.createPopSound dateNow now bubbleSize).
Proof. apply neverThrows_tryCatch. intro e. apply neverThrows_eret. Qed.

Lemma neverThrows_playAudioFile dateNow now bubbleSize theme :
  neverThrows (AudioManager.playAudioFile dateNow now bubbleSize theme).
Proof. apply neverThrows_tryCatch. intro e. apply neverThrows_createPopSound. Qed.

Lemma neverThrows_processQueuedSounds dateNow now :
  neverThrows (AudioManager.processQueuedSounds dateNow now).
Proof.
  unfold AudioManager.processQueuedSounds.
  apply neverThrows_ebind; [apply neverThrows_modifyThis|]. intros _.
  apply neverThrows_ebind; [apply neverThrows_getThis|]. intro a.
  destruct (AudioObj.soundQueue a) as [|nextSound rest]; [apply neverThrows_eret|].
  destruct (_ <? _)%Z; [|apply neverThrows_eret].
  apply neverThrows_ebind; [apply neverThrows_modifyThis|]. intros _.
  destruct (_ && _); [apply neverThrows_playAudioFile|apply neverThrows_createPopSound].
Qed.

Lemma neverThrows_stopSound sound : neverThrows (AudioManager.stopSound sound).
Proof. apply neverThrows_tryCatch. intro e. apply neverThrows_eret. Qed.

Lemma neverThrows_forEach {A} (f : A -> Eff unit) l :
  (forall a, neverThrows (f a)) -> neverThrows (AudioManager.forEach f l).
Proof.
  intro H. induction l as [|a l IH]; cbn [AudioManager.forEach].
  - apply neverThrows_eret.
  - apply neverThrows_ebind; [apply H|]. intros _. exact IH.
Qed.

Lemma neverThrows_stopAllSounds : neverThrows AudioManager.stopAllSounds.
Proof.
  unfold AudioManager.stopAllSounds.
  apply neverThrows_ebind; [apply neverThrows_getThis|]. intro a.
  apply neverThrows_ebind; [apply neverThrows_forEach, neverThrows_stopSound|]. intros _.
  apply neverThrows_ebind; [apply neverThrows_modifyThis|]. intros _.
  apply neverThrows_modifyThis.
Qed.

(** Whatever the device does, the methods that the game and the browser
    call on the audio manager end without an exception: every failure of
    the sample playback or of the synthesis is caught inside. *)
Theorem audio_manager_never_throws :
  forall dateNow now,
    (forall bubbleSize theme, neverThrows (AudioManager.playPopSound dateNow now bubbleSize theme)) /\
    (forall soundId, neverThrows (AudioManager.cleanupSound dateNow now soundId)) /\
    neverThrows (AudioManager.processQueuedSounds dateNow now) /\
    neverThrows AudioManager.stopAllSounds /\
    neverThrows AudioManager.toggleMute.
Proof.
  intros dateNow now. split; [|split; [|split; [|split]]].
  - intros bubbleSize theme. unfold AudioManager.playPopSound.
    apply neverThrows_ebind; [apply neverThrows_getThis|]. intro a.
    destruct (_ || _); [apply neverThrows_eret|].
    assert (H : neverThrows
      (if (Z.of_nat (List.length (AudioObj.activeSounds a))
           >=? AudioObj.maxSimultaneousSounds a)%Z
       then ebind (modifyThis (fun a0 => AudioObj.set_soundQueue
                     (push (AudioObj.soundQueue a0)
                        (AudioObj.mkQueued bubbleSize theme dateNow)) a0))
                  (fun _ => AudioManager.processQueuedSounds dateNow now)
       else if AudioObj.isBufferLoaded a &&
               AudioManager.isSome (AudioObj.bufferOf (AudioObj.bubblePopBuffers a) theme)
       then AudioManager.playAudioFile dateNow now bubbleSize theme
       else if AudioObj.isBufferLoaded a &&
               AudioManager.isSome (AudioObj.classic (AudioObj.bubblePopBuffers a))
       then AudioManager.playAudioFile dateNow now bubbleSize "classic"
       else AudioManager.createPopSound dateNow now bubbleSize)).
    { destruct (_ >=? _)%Z.
      - apply neverThrows_ebind; [apply neverThrows_modifyThis|]. intros _.
        apply neverThrows_processQueuedSounds.
      - destruct (_ && _); [apply neverThrows_playAudioFile|].
        destruct (_ && _); [apply neverThrows_playAudioFile|apply neverThrows_createPopSound]. }
    destruct (AudioObj.audioContext a) as [[| |]|]; try exact H. apply neverThrows_eret.
  - intro soundId. unfold AudioManager.cleanupSound.
    apply neverThrows_ebind; [apply neverThrows_modifyThis|]. intros _.
    apply neverThrows_processQueuedSounds.
  - apply neverThrows_processQueuedSounds.
  - apply neverThrows_stopAllSounds.
  - unfold AudioManager.toggleMute.
    apply neverThrows_ebind; [apply neverThrows_getThis|]. intro a.
    apply neverThrows_ebind.
    { destruct (AudioObj.audioContext a) as [[| |]|]; try apply neverThrows_eret.
      destruct (negb _); [apply neverThrows_modifyDevice|apply neverThrows_eret]. }
    intros _.
    apply neverThrows_ebind; [apply neverThrows_modifyThis|]. intros _.
    apply neverThrows_ebind; [apply neverThrows_getThis|]. intro a'.
    apply neverThrows_ebind.
    { destruct (AudioObj.isMuted a'); [apply neverThrows_stopAllSounds|apply neverThrows_eret]. }
    intros _. apply neverThrows_eret.
Qed.
Lemma createPopSound_rejected dateNow now bubbleSize s :
  accepts s bubbleSize = false ->
  AudioManager.createPopSound dateNow now bubbleSize s =
  (returns tt,
   mkAudioState (this s)
     (mkDevice (rejectsNonFinite (device s)) (3 + nextNode (device s))
        (playing (device s)) (callbacks (device s)))
     (mkRng (samples (rng s)) (S (cursor (rng s))))).
Proof.
  unfold accepts, popFrequency. intros H.
  apply orb_false_iff in H. destruct H as [Hd Hf].
  apply negb_false_iff in Hd.
  unfold AudioManager.createPopSound, tryCatch.
  unfold ebind at 1. unfold random. unfold Math_random. cbn [fst snd].
  unfold ebind at 1. unfold getThis at 1. cbn [this].
  destruct (nanAdd _ _) as [f|]; [discriminate|].
  unfold ebind at 1. unfold AudioManager.synthesizePopSound.
  unfold ebind at 1. unfold createNode at 1. cbn [this device rng fst snd].
  unfold ebind at 1. unfold createNode at 1. cbn [this device rng rejectsNonFinite nextNode playing callbacks].
  unfold ebind at 1. unfold createNode at 1. cbn [this device rng rejectsNonFinite nextNode playing callbacks].
  unfold ebind at 1. unfold scheduleValue at 1. cbn [this device rng rejectsNonFinite nextNode playing callbacks].
  rewrite Hd. unfold eret. reflexivity.
Qed.

(** *** Running a sequence of effects *)

Lemma ebind_returns {A B} (m : Eff A) (k : A -> Eff B) s a s' :
  m s = (returns a, s') -> ebind m k s = k a s'.
Proof. intro H. unfold ebind. rewrite H. reflexivity. Qed.

Lemma tryCatch_returns {A} (body : Eff A) handler s a s' :
  body s = (returns a, s') -> tryCatch body handler s = (returns a, s').
Proof. intro H. unfold tryCatch. rewrite H. reflexivity. Qed.

Lemma scheduleValue_accepted value s :
  negb (rejectsNonFinite (device s)) || AudioManager.isSome value = true ->
  scheduleValue value s = (returns tt, s).
Proof.
  unfold scheduleValue. destruct value as [v|]; [reflexivity|].
  cbn. rewrite orb_false_r. intro H. apply negb_true_iff in H. rewrite H. reflexivity.
Qed.

Lemma isSome_nanMul a b :
  AudioManager.isSome (nanMul a (Some b)) = AudioManager.isSome a.
Proof. destruct a; reflexivity. Qed.

Ltac run_schedule H :=
  erewrite ebind_returns
    by (apply scheduleValue_accepted;
        cbn [this device rng rejectsNonFinite nextNode playing callbacks];
        rewrite ?isSome_nanMul; first [exact H | apply orb_true_r]).

Ltac run_plain :=
  erewrite ebind_returns by reflexivity;
  cbn [this device rng rejectsNonFinite nextNode playing callbacks].

Lemma createHarmonic_accepted frequency duration volume s :
  negb (rejectsNonFinite (device s)) || AudioManager.isSome frequency = true ->
  AudioManager.createHarmonic frequency duration volume s =
  (returns (Some (nextNode (device s))),
   mkAudioState (this s)
     (mkDevice (rejectsNonFinite (device s)) (S (S (nextNode (device s))))
        (playing (device s)) (callbacks (device s)))
     (rng s)).
Proof.
  intro H. unfold AudioManager.createHarmonic.
  apply tryCatch_returns.
  unfold createNode.
  run_plain. run_plain.
  run_schedule H. run_schedule H. run_schedule H. run_schedule H.
  reflexivity.
Qed.

Lemma synthesizePopSound_accepted now frequency duration sizeRatio soundId s :
  negb (rejectsNonFinite (device s)) || AudioManager.isSome frequency = true ->
  AudioManager.synthesizePopSound now frequency duration sizeRatio soundId s =
  (returns (AudioObj.mkSound soundId None (Some (nextNode (device s)))
              (S (nextNode (device s))) (Some (S (S (nextNode (device s)))))
              (Some (S (S (S (nextNode (device s)))))) now duration),
   mkAudioState (this s)
     (mkDevice (rejectsNonFinite (device s)) (5 + nextNode (device s))
        (push (push (playing (device s)) (nextNode (device s))) (3 + nextNode (device s))%nat)
        (callbacks (device s)))
     (rng s)).
Proof.
  intro H. unfold AudioManager.synthesizePopSound.
  unfold createNode.
  run_plain. run_plain. run_plain.
  run_schedule H. run_schedule H. run_schedule H. run_schedule H.
  unfold getThis. run_plain.
  run_schedule H. run_schedule H. run_schedule H. run_schedule H.
  erewrite ebind_returns
    by (apply createHarmonic_accepted;
        cbn [this device rng rejectsNonFinite nextNode playing callbacks];
        rewrite ?isSome_nanMul; exact H).
  cbn [this device rng rejectsNonFinite nextNode playing callbacks].
  unfold start, modifyDevice.
  run_plain. run_plain.
  reflexivity.
Qed.

Lemma createPopSound_accepted dateNow now bubbleSize s :
  accepts s bubbleSize = true ->
  AudioManager.createPopSound dateNow now bubbleSize s =
  (returns tt,
   mkAudioState
     (AudioObj.set_activeSounds
        (push (AudioObj.activeSounds (this s)) (synthesized dateNow now bubbleSize s)) (this s))
     (mkDevice (rejectsNonFinite (device s)) (5 + nextNode (device s))
        (push (push (playing (device s)) (nextNode (device s))) (3 + nextNode (device s))%nat)
        (push (callbacks (device s))
           (timeout (AudioObj.sduration (synthesized dateNow now bubbleSize s) * 1000 + 100)
                    (AudioObj.id (synthesized dateNow now bubbleSize s)))))
     (mkRng (samples (rng s)) (S (cursor (rng s))))).
Proof.
  unfold accepts, popFrequency. intros H.
  unfold AudioManager.createPopSound.
  apply tryCatch_returns.
  unfold random, Math_random. run_plain.
  unfold getThis. run_plain.
  erewrite ebind_returns
    by (apply synthesizePopSound_accepted;
        cbn [this device rng rejectsNonFinite nextNode playing callbacks]; exact H).
  cbn [this device rng rejectsNonFinite nextNode playing callbacks].
  unfold modifyThis. run_plain.
  reflexivity.
Qed.

(** *** What the playback methods leave alone *)

Lemma onlyAppends_refl s : onlyAppends s s.
Proof.
  exists []. rewrite app_nil_r. destruct (this s). reflexivity.
Qed.

Lemma onlyAppends_trans s1 s2 s3 :
  onlyAppends s1 s2 -> onlyAppends s2 s3 -> onlyAppends s1 s3.
Proof.
  intros [l1 H1] [l2 H2]. exists (l1 ++ l2).
  rewrite H2, H1. destruct (this s1). cbn. rewrite app_assoc. reflexivity.
Qed.

Lemma onlyAppends_this s s' : this s' = this s -> onlyAppends s s'.
Proof.
  intro H. exists []. rewrite app_nil_r, H. destruct (this s). reflexivity.
Qed.

Section Preservation.
Variable R : AudioState -> AudioState -> Prop.
Hypothesis R_refl : forall s, R s s.
Hypothesis R_trans : forall s1 s2 s3, R s1 s2 -> R s2 s3 -> R s1 s3.

Lemma preserves_eret {A} (a : A) : preserves R (eret a).
Proof. intro s. apply R_refl. Qed.

Lemma preserves_throw {A} e : preserves R (@throw A e).
Proof. intro s. apply R_refl. Qed.

Lemma preserves_ebind {A B} (m : Eff A) (k : A -> Eff B) :
  preserves R m -> (forall a, preserves R (k a)) -> preserves R (ebind m k).
Proof.
  intros Hm Hk s. specialize (Hm s). unfold after, ebind in *.
  destruct (m s) as [[a|e] s1]; cbn [snd] in *.
  - eapply R_trans; [exact Hm|]. apply Hk.
  - exact Hm.
Qed.

Lemma preserves_tryCatch {A} (body : Eff A) handler :
  preserves R body -> (forall e, preserves R (handler e)) ->
  preserves R (tryCatch body handler).
Proof.
  intros Hm Hk s. specialize (Hm s). unfold after, tryCatch in *.
  destruct (body s) as [[a|e] s1]; cbn [snd] in *.
  - exact Hm.
  - eapply R_trans; [exact Hm|]. apply Hk.
Qed.

End Preservation.

Lemma onlyAppends_device {A} (m : Eff A) :
  (forall s, this (after m s) = this s) -> preserves onlyAppends m.
Proof. intros H s. apply onlyAppends_this, H. Qed.

Ltac appends_step :=
  first
  [ apply (preserves_eret _ onlyAppends_refl)
  | apply (preserves_throw _ onlyAppends_refl)
  | apply (preserves_tryCatch _ onlyAppends_trans); [|intro]
  | apply (preserves_ebind _ onlyAppends_trans); [|intro]
  | apply onlyAppends_device; intro; reflexivity ].

Lemma onlyAppends_scheduleValue value : preserves onlyAppends (scheduleValue value).
Proof.
  apply onlyAppends_device. intro s. unfold after, scheduleValue.
  destruct value; [reflexivity|]. destruct (rejectsNonFinite (device s)); reflexivity.
Qed.

Lemma onlyAppends_random : preserves onlyAppends random.
Proof. apply onlyAppends_device. intro s. reflexivity. Qed.

Lemma onlyAppends_push sound :
  preserves onlyAppends
    (modifyThis (fun a => AudioObj.set_activeSounds (push (AudioObj.activeSounds a) sound) a)).
Proof. intro s. exists [sound]. reflexivity. Qed.

Ltac appends :=
  repeat first
  [ apply onlyAppends_scheduleValue
  | apply onlyAppends_random
  | apply onlyAppends_push
  | appends_step ].

Ltac appends_match :=
  match goal with |- context [match ?h with _ => _ end] => destruct h end; appends.

Lemma onlyAppends_createPopSound dateNow now bubbleSize :
  preserves onlyAppends (AudioManager.createPopSound dateNow now bubbleSize).
Proof. unfold AudioManager.createPopSound. appends; appends_match. Qed.

Lemma onlyAppends_playAudioFile dateNow now bubbleSize theme :
  preserves onlyAppends (AudioManager.playAudioFile dateNow now bubbleSize theme).
Proof. unfold AudioManager.playAudioFile. appends; appends_match. Qed.

(** [processQueuedSounds] for any state: the queue loses its stale
    requests, and its first fresh request when a slot is free. *)
Lemma processQueuedSounds_queue dateNow now s :
  let q := filter (fresh dateNow) (AudioObj.soundQueue (this s)) in
  let s' := after (AudioManager.processQueuedSounds dateNow now) s in
  AudioObj.soundQueue (this s') =
    (if (Z.of_nat (List.length (AudioObj.activeSounds (this s)))
         <? AudioObj.maxSimultaneousSounds (this s))%Z
     then tl q else q) /\
  (exists added,
     AudioObj.activeSounds (this s') = AudioObj.activeSounds (this s) ++ added /\
     (q = [] -> added = [])) /\
  AudioObj.maxSimultaneousSounds (this s') = AudioObj.maxSimultaneousSounds (this s) /\
  AudioObj.isMuted (this s') = AudioObj.isMuted (this s).
Proof.
  intros q s'. subst q s'. unfold after, fresh.
  destruct (AudioManager.processQueuedSounds dateNow now s) as [o s1] eqn:E. cbn [snd].
  unfold AudioManager.processQueuedSounds in E.
  unfold ebind at 1 in E. unfold modifyThis at 1 in E.
  unfold ebind at 1 in E. unfold getThis at 1 in E.
  cbn [this device rng AudioObj.soundQueue AudioObj.set_soundQueue AudioObj.activeSounds
       AudioObj.maxSimultaneousSounds] in E.
  revert E.
  destruct (filter _ _) as [|nextSound rest] eqn:F.
  - unfold eret. intro E. injection E as _ <-. cbn.
    split; [destruct (_ <? _)%Z; reflexivity|].
    split; [exists []; rewrite app_nil_r; split; reflexivity|]. split; reflexivity.
  - destruct (_ <? _)%Z.
    + unfold ebind at 1. unfold modifyThis at 1.
      cbn [this device rng AudioObj.set_soundQueue AudioObj.activeSounds
           AudioObj.maxSimultaneousSounds AudioObj.isMuted AudioObj.soundQueue
           AudioObj.isBufferLoaded AudioObj.bubblePopBuffers AudioObj.audioContext
           AudioObj.isEnabled AudioObj.volume AudioObj.isInitialized
           AudioObj.isWebAudioSupported AudioObj.bubblePopBuffer AudioObj.baseFrequency
           AudioObj.frequencyRange].
      match goal with
      | |- (if ?c then ?m1 else ?m2) ?s0 = _ -> _ =>
          assert (H : onlyAppends s0 (after (if c then m1 else m2) s0))
            by (destruct c; [apply onlyAppends_playAudioFile|apply onlyAppends_createPopSound]);
          intro E; unfold after in H; rewrite E in H
      end.
      destruct H as [added H]. cbn [snd] in H. rewrite H.
      cbn. split; [reflexivity|]. split; [|split; reflexivity].
      exists added. split; [reflexivity|discriminate].
    + unfold eret. intro E. injection E as _ <-.
      cbn. split; [reflexivity|]. split; [|split; reflexivity].
      exists []. rewrite app_nil_r. split; reflexivity.
Qed.

(** *** Stopping *)

Lemma notAmong_app l1 l2 n : notAmong (l1 ++ l2) n = notAmong l1 n && notAmong l2 n.
Proof. unfold notAmong. rewrite existsb_app, negb_orb. reflexivity. Qed.

Lemma filter_notAmong_nil (l : list Node) : filter (notAmong []) l = l.
Proof.
  induction l as [|a l IH]; [reflexivity|]. cbn. rewrite IH. reflexivity.
Qed.

Lemma filter_notAmong_app l1 l2 (l : list Node) :
  filter (notAmong l2) (filter (notAmong l1) l) = filter (notAmong (l1 ++ l2)) l.
Proof.
  induction l as [|a l IH]; [reflexivity|]. cbn [filter].
  rewrite notAmong_app. destruct (notAmong l1 a); cbn [filter andb].
  - rewrite IH. reflexivity.
  - exact IH.
Qed.

Lemma In_filter_notAmong l (p : list Node) n :
  In n (filter (notAmong l) p) <-> In n p /\ ~ In n l.
Proof.
  rewrite filter_In. unfold notAmong. rewrite negb_true_iff.
  split; intros [H1 H2]; (split; [exact H1|]).
  - intro H. assert (E : existsb (Nat.eqb n) l = true).
    { apply existsb_exists. exists n. split; [exact H|apply Nat.eqb_refl]. }
    congruence.
  - destruct (existsb (Nat.eqb n) l) eqn:E; [|reflexivity].
    apply existsb_exists in E. destruct E as (m & Hm & E).
    apply Nat.eqb_eq in E. subst m. contradiction.
Qed.

Lemma stop_spec n s :
  stop n s =
  (returns tt,
   mkAudioState (this s)
     (mkDevice (rejectsNonFinite (device s)) (nextNode (device s))
        (filter (notAmong [n]) (playing (device s))) (callbacks (device s)))
     (rng s)).
Proof.
  unfold stop, modifyDevice. do 3 f_equal.
  apply filter_ext. intro m. unfold notAmong. cbn. rewrite orb_false_r. reflexivity.
Qed.

Lemma stopSound_spec sound s :
  AudioManager.stopSound sound s =
  (returns tt,
   mkAudioState (this s)
     (mkDevice (rejectsNonFinite (device s)) (nextNode (device s))
        (filter (notAmong (stoppedBy [sound])) (playing (device s))) (callbacks (device s)))
     (rng s)).
Proof.
  unfold AudioManager.stopSound, stoppedBy. cbn [flat_map]. rewrite app_nil_r.
  apply tryCatch_returns.
  destruct (AudioObj.oscillator sound) as [o|], (AudioObj.harmonic sound) as [h|].
  - erewrite ebind_returns by apply stop_spec. rewrite stop_spec.
    cbn [this device rng rejectsNonFinite nextNode playing callbacks].
    rewrite filter_notAmong_app. reflexivity.
  - erewrite ebind_returns by apply stop_spec. reflexivity.
  - erewrite ebind_returns by reflexivity. rewrite stop_spec. reflexivity.
  - erewrite ebind_returns by reflexivity. cbn [app]. rewrite filter_notAmong_nil.
    destruct s as [t [rej next pl cbs] r]. reflexivity.
Qed.

Lemma forEach_stopSound sounds s :
  AudioManager.forEach AudioManager.stopSound sounds s =
  (returns tt,
   mkAudioState (this s)
     (mkDevice (rejectsNonFinite (device s)) (nextNode (device s))
        (filter (notAmong (stoppedBy sounds)) (playing (device s))) (callbacks (device s)))
     (rng s)).
Proof.
  revert s. induction sounds as [|sound sounds IH]; intro s.
  - cbn [AudioManager.forEach stoppedBy flat_map]. rewrite filter_notAmong_nil.
    destruct s as [t [rej next pl cbs] r]. reflexivity.
  - cbn [AudioManager.forEach].
    erewrite ebind_returns by apply stopSound_spec.
    rewrite IH. cbn [this device rng rejectsNonFinite nextNode playing callbacks].
    rewrite filter_notAmong_app.
    unfold stoppedBy. cbn [flat_map]. rewrite app_nil_r. reflexivity.
Qed.

Lemma stopAllSounds_spec s :
  AudioManager.stopAllSounds s =
  (returns tt,
   mkAudioState
     (AudioObj.set_soundQueue [] (AudioObj.set_activeSounds [] (this s)))
     (mkDevice (rejectsNonFinite (device s)) (nextNode (device s))
        (filter (notAmong (stoppedBy (AudioObj.activeSounds (this s)))) (playing (device s)))
        (callbacks (device s)))
     (rng s)).
Proof.
  unfold AudioManager.stopAllSounds.
  unfold getThis. erewrite ebind_returns by reflexivity.
  erewrite ebind_returns by apply forEach_stopSound.
  unfold modifyThis. erewrite ebind_returns by reflexivity.
  reflexivity.
Qed.

(** [stopAllSounds] empties the list of tracked sounds and the queue, and
    stops the oscillator and the harmonic of every tracked sound, and no
    other node: a node that plays and is neither of these, such as the
    buffer source of a sample, plays on. *)
Theorem stopAllSounds_stops_oscillators_only :
  forall s,
    let s' := after AudioManager.stopAllSounds s in
    AudioObj.activeSounds (this s') = [] /\
    AudioObj.soundQueue (this s') = [] /\
    (forall n, In n (playing (device s')) <->
               In n (playing (device s)) /\
               ~ In n (stoppedBy (AudioObj.activeSounds (this s)))) /\
    (forall sound n, In sound (AudioObj.activeSounds (this s)) ->
                     AudioObj.oscillator sound = Some n \/ AudioObj.harmonic sound = Some n ->
                     ~ In n (playing (device s'))).
Proof.
  intros s s'. subst s'. unfold after. rewrite stopAllSounds_spec.
  cbn [snd this device playing AudioObj.activeSounds AudioObj.soundQueue
       AudioObj.set_soundQueue AudioObj.set_activeSounds].
  split; [reflexivity|]. split; [reflexivity|]. split.
  - intro n. apply In_filter_notAmong.
  - intros sound n Hin Hn Hp. apply In_filter_notAmong in Hp. destruct Hp as [_ Hp].
    apply Hp. unfold stoppedBy. apply in_flat_map. exists sound. split; [exact Hin|].
    apply in_or_app. destruct Hn as [-> | ->]; [left|right]; left; reflexivity.
Qed.

(** Muting: [toggleMute] on a manager that is not muted answers [false],
    leaves the manager muted with no tracked sound and an empty queue,
    stops the tracked oscillators and harmonics only, and every later pop
    does nothing. *)
Theorem toggleMute_silences_the_manager :
  forall s,
    AudioObj.isMuted (this s) = false ->
    let s' := after AudioManager.toggleMute s in
    fst (AudioManager.toggleMute s) = returns false /\
    AudioObj.isMuted (this s') = true /\
    AudioObj.activeSounds (this s') = [] /\
    AudioObj.soundQueue (this s') = [] /\
    playing (device s') =
      filter (notAmong (stoppedBy (AudioObj.activeSounds (this s)))) (playing (device s)) /\
    forall dateNow now bubbleSize theme,
      AudioManager.playPopSound dateNow now bubbleSize theme s' = (returns tt, s').
Proof.
  intros s Hm s'. subst s'. unfold after.
  destruct (AudioManager.toggleMute s) as [o s1] eqn:E. cbn [fst snd].
  unfold AudioManager.toggleMute in E.
  unfold getThis at 1 in E. erewrite ebind_returns in E by reflexivity.
  rewrite Hm in E. cbn [negb] in E.
  assert (K : forall d,
    ebind (modifyThis (fun a => AudioObj.set_isMuted (negb (AudioObj.isMuted a)) a))
      (fun _ => ebind getThis (fun a' =>
         ebind (if AudioObj.isMuted a' then AudioManager.stopAllSounds else eret tt)
           (fun _ => eret (negb (AudioObj.isMuted a')))))
      (mkAudioState (this s) d (rng s)) = (o, s1) ->
    playing d = playing (device s) ->
    o = returns false /\
    AudioObj.isMuted (this s1) = true /\
    AudioObj.activeSounds (this s1) = [] /\
    AudioObj.soundQueue (this s1) = [] /\
    playing (device s1) =
      filter (notAmong (stoppedBy (AudioObj.activeSounds (this s)))) (playing (device s)) /\
    forall dateNow now bubbleSize theme,
      AudioManager.playPopSound dateNow now bubbleSize theme s1 = (returns tt, s1)).
  { intros d E' Hd.
    unfold modifyThis at 1 in E'. erewrite ebind_returns in E' by reflexivity.
    unfold getThis at 1 in E'. erewrite ebind_returns in E' by reflexivity.
    cbn [this device rng AudioObj.isMuted AudioObj.set_isMuted] in E'.
    rewrite Hm in E'. cbn [negb] in E'.
    erewrite ebind_returns in E' by apply stopAllSounds_spec.
    unfold eret in E'. injection E' as <- <-.
    cbn [this device rng playing AudioObj.isMuted AudioObj.set_isMuted AudioObj.activeSounds
         AudioObj.soundQueue AudioObj.set_soundQueue AudioObj.set_activeSounds].
    rewrite Hd.
    split; [reflexivity|]. split; [reflexivity|]. split; [reflexivity|].
    split; [reflexivity|]. split; [reflexivity|].
    intros. apply playPopSound_gated. unfold audioOpen. cbn.
    rewrite andb_false_r. reflexivity. }
  destruct (AudioObj.audioContext (this s)) as [[| |]|].
  - unfold register, modifyDevice in E. erewrite ebind_returns in E by reflexivity.
    eapply K; [exact E|reflexivity].
  - unfold eret at 1 in E. erewrite ebind_returns in E by reflexivity.
    destruct s as [t d r]. eapply K; [exact E|reflexivity].
  - unfold eret at 1 in E. erewrite ebind_returns in E by reflexivity.
    destruct s as [t d r]. eapply K; [exact E|reflexivity].
  - unfold eret at 1 in E. erewrite ebind_returns in E by reflexivity.
    destruct s as [t d r]. eapply K; [exact E|reflexivity].
Qed.

Lemma toggleMute_silences_the_manager_witness :
  AudioObj.isMuted (this (after AudioManager.toggleMute oneTracked)) = true /\
  AudioObj.activeSounds (this (after AudioManager.toggleMute oneTracked)) = [] /\
  AudioObj.soundQueue (this (after AudioManager.toggleMute oneTracked)) = [] /\
  playing (device (after AudioManager.toggleMute oneTracked)) =
    filter (notAmong (stoppedBy (AudioObj.activeSounds (this oneTracked))))
           (playing (device oneTracked)) /\
  forall dateNow now bubbleSize theme,
    AudioManager.playPopSound dateNow now bubbleSize theme
      (after AudioManager.toggleMute oneTracked) =
    (returns tt, after AudioManager.toggleMute oneTracked).
Proof.
  apply (toggleMute_silences_the_manager oneTracked). reflexivity.
Defined.

(** *** Pops *)

(** A pop while every slot is taken plays nothing: the request joins the
    queue behind the requests that are younger than 100 ms, the older ones
    are dropped, and the device and the random source are left alone. *)
Theorem pop_at_the_limit_is_queued_not_played :
  forall dateNow now bubbleSize theme s,
    audioOpen (this s) = true ->
    (AudioObj.maxSimultaneousSounds (this s)
     <= Z.of_nat (List.length (AudioObj.activeSounds (this s))))%Z ->
    AudioManager.playPopSound dateNow now bubbleSize theme s =
    (returns tt,
     mkAudioState
       (AudioObj.set_soundQueue
          (filter (fresh dateNow) (AudioObj.soundQueue (this s)) ++
           [AudioObj.mkQueued bubbleSize theme dateNow])
          (this s))
       (device s) (rng s)).
Proof.
  intros dateNow now bubbleSize theme s Ho Hl.
  rewrite playPopSound_open by exact Ho.
  replace (Z.of_nat (List.length (AudioObj.activeSounds (this s)))
           >=? AudioObj.maxSimultaneousSounds (this s))%Z with true
    by (symmetry; apply Z.geb_le; exact Hl).
  unfold modifyThis. erewrite ebind_returns by reflexivity.
  rewrite processQueuedSounds_full by exact Hl.
  cbn [this device rng AudioObj.soundQueue AudioObj.set_soundQueue AudioObj.activeSounds
       AudioObj.maxSimultaneousSounds AudioObj.audioContext AudioObj.isEnabled
       AudioObj.isMuted AudioObj.volume AudioObj.isInitialized AudioObj.bubblePopBuffers
       AudioObj.isBufferLoaded AudioObj.isWebAudioSupported AudioObj.bubblePopBuffer
       AudioObj.baseFrequency AudioObj.frequencyRange].
  unfold push, fresh. rewrite filter_app. cbn [filter AudioObj.timestamp].
  replace (dateNow - dateNow <? 100) with true
    by (symmetry; apply ltb_true; lra).
  reflexivity.
Qed.

Lemma pop_at_the_limit_is_queued_not_played_witness :
  AudioManager.playPopSound 1000 0 150 "classic" bothSlotsTaken =
  (returns tt,
   mkAudioState
     (AudioObj.set_soundQueue
        (filter (fresh 1000) (AudioObj.soundQueue (this bothSlotsTaken)) ++
         [AudioObj.mkQueued 150 "classic" 1000])
        (this bothSlotsTaken))
     (device bothSlotsTaken) (rng bothSlotsTaken)).
Proof.
  apply (pop_at_the_limit_is_queued_not_played 1000 0 150 "classic" bothSlotsTaken).
  - reflexivity.
  - vm_compute. discriminate.
Defined.

(** The sample path never tracks what it starts.  [playAudioFile] reads
    [this.bubblePopBuffer], which no method defines: whatever the state,
    the buffer source it made is started, every sound that joins the
    tracked list is a synthesized one without a source, and every handler
    that is registered is a timeout, never the [onended] of the source. *)
Theorem sample_source_is_never_tracked :
  forall dateNow now bubbleSize theme s,
    AudioObj.bubblePopBuffer (this s) = None ->
    let s' := after (AudioManager.playAudioFile dateNow now bubbleSize theme) s in
    In (nextNode (device s)) (playing (device s')) /\
    (forall sound, In sound (AudioObj.activeSounds (this s')) ->
                   In sound (AudioObj.activeSounds (this s)) \/ AudioObj.source sound = None) /\
    (forall c, In c (callbacks (device s')) ->
               In c (callbacks (device s)) \/ isTimeout c = true).
Proof.
  intros dateNow now bubbleSize theme s Hb s'. subst s'. unfold after.
  rewrite playAudioFile_untracked by exact Hb.
  match goal with
  | |- context [AudioManager.createPopSound _ _ _ ?s0] =>
      destruct (accepts s0 bubbleSize) eqn:A;
      [rewrite (createPopSound_accepted _ _ _ s0 A)
      |rewrite (createPopSound_rejected _ _ _ s0 A)]
  end;
  cbn [snd this device rng playing callbacks AudioObj.activeSounds AudioObj.set_activeSounds];
  unfold push.
  - split; [|split].
    + apply in_or_app. left. apply in_or_app. left. apply in_or_app. right. left. reflexivity.
    + intros sound H. apply in_app_or in H. destruct H as [H|[<-|[]]]; [left; exact H|].
      right. reflexivity.
    + intros c H. apply in_app_or in H. destruct H as [H|[<-|[]]]; [left; exact H|].
      right. reflexivity.
  - split; [|split].
    + apply in_or_app. right. left. reflexivity.
    + intros sound H. left. exact H.
    + intros c H. left. exact H.
Qed.

Lemma sample_source_is_never_tracked_witness :
  In 0%nat (playing (device (after (AudioManager.playAudioFile 1000 0 150 "classic")
                               (audioOn true readyAudio)))).
Proof.
  apply (sample_source_is_never_tracked 1000 0 150 "classic" (audioOn true readyAudio)).
  reflexivity.
Defined.

Lemma playPopSound_standard dateNow now bubbleSize theme s :
  standardSetup s ->
  (Z.of_nat (List.length (AudioObj.activeSounds (this s)))
   < AudioObj.maxSimultaneousSounds (this s))%Z ->
  exists d r,
    AudioManager.playPopSound dateNow now bubbleSize theme s =
    (returns tt, mkAudioState (this s) d r) /\
    rejectsNonFinite d = true /\ callbacks d = callbacks (device s).
Proof.
  intros (Hd & Hf & Hb) Hl.
  assert (C : forall s0, this s0 = this s -> rejectsNonFinite (device s0) = true ->
    callbacks (device s0) = callbacks (device s) ->
    exists d r,
      AudioManager.createPopSound dateNow now bubbleSize s0 =
      (returns tt, mkAudioState (this s) d r) /\
      rejectsNonFinite d = true /\ callbacks d = callbacks (device s)).
  { intros s0 Ht Hr Hc. rewrite createPopSound_rejected.
    - rewrite Ht, Hc. eexists; eexists. split; [reflexivity|]. split; [exact Hr|reflexivity].
    - unfold accepts, popFrequency. rewrite Hr, Ht, Hf. reflexivity. }
  assert (P : forall th,
    exists d r,
      AudioManager.playAudioFile dateNow now bubbleSize th s =
      (returns tt, mkAudioState (this s) d r) /\
      rejectsNonFinite d = true /\ callbacks d = callbacks (device s)).
  { intro th. rewrite playAudioFile_untracked by exact Hb.
    apply C; [reflexivity|exact Hd|reflexivity]. }
  destruct (audioOpen (this s)) eqn:O.
  - rewrite playPopSound_open by exact O.
    replace (Z.of_nat (List.length (AudioObj.activeSounds (this s)))
             >=? AudioObj.maxSimultaneousSounds (this s))%Z with false
      by (symmetry; rewrite Z.geb_leb; apply Z.leb_gt; exact Hl).
    destruct (_ && _); [apply P|].
    destruct (_ && _); [apply P|].
    apply C; [reflexivity|exact Hd|reflexivity].
  - rewrite playPopSound_gated by exact O.
    exists (device s), (rng s). destruct s as [t d r].
    split; [reflexivity|]. split; [exact Hd|reflexivity].
Qed.

(** On a device that follows the Web Audio API, with the manager as its
    constructor leaves it ([baseFrequency] and [bubblePopBuffer]
    undefined) and a slot free, no sequence of pops leaves a trace in the
    manager: nothing is tracked, nothing is queued, no completion handler
    is registered, so the limit on simultaneous sounds never engages. *)
Theorem standard_device_pops_leave_no_trace :
  forall pops s,
    standardSetup s ->
    (Z.of_nat (List.length (AudioObj.activeSounds (this s)))
     < AudioObj.maxSimultaneousSounds (this s))%Z ->
    fst (playAll pops s) = returns tt /\
    this (after (playAll pops) s) = this s /\
    callbacks (device (after (playAll pops) s)) = callbacks (device s).
Proof.
  unfold playAll, after.
  induction pops as [|p pops IH]; intros s Hs Hl; cbn [AudioManager.forEach].
  - repeat split.
  - destruct (playPopSound_standard (popDate p) (popTime p) (popSize p) (popTheme p) s Hs Hl)
      as (d & r & E & Hd & Hc).
    erewrite ebind_returns by exact E.
    destruct Hs as (_ & Hf & Hb).
    destruct (IH (mkAudioState (this s) d r)) as (I1 & I2 & I3).
    + split; [exact Hd|]. split; [exact Hf|exact Hb].
    + exact Hl.
    + cbn [this device] in I2, I3. rewrite I1, I2, I3. repeat split. exact Hc.
Qed.

Lemma standard_device_pops_leave_no_trace_witness :
  this (after (playAll [mkPop 1000 0 150 "classic"; mkPop 1000 0 80 "oil";
                        mkPop 1001 0 300 "galaxy"; mkPop 1002 0 150 "classic"])
          (audioOn true (AudioManager.enablePerformanceMode readyAudio true))) =
  AudioManager.enablePerformanceMode readyAudio true.
Proof.
  apply (standard_device_pops_leave_no_trace
           [mkPop 1000 0 150 "classic"; mkPop 1000 0 80 "oil";
            mkPop 1001 0 300 "galaxy"; mkPop 1002 0 150 "classic"]
           (audioOn true (AudioManager.enablePerformanceMode readyAudio true))).
  - repeat split.
  - vm_compute. reflexivity.
Defined.

(** *** The queue *)

(** [processQueuedSounds] drops the requests that are 100 ms old or older
    and, when a slot is free, takes the first of the others out of the
    queue: what stays is fresh and in its order; the sounds that were
    tracked stay tracked. *)
Theorem processQueuedSounds_keeps_fresh_requests :
  forall dateNow now s,
    let q := filter (fresh dateNow) (AudioObj.soundQueue (this s)) in
    let s' := after (AudioManager.processQueuedSounds dateNow now) s in
    AudioObj.soundQueue (this s') =
      (if (Z.of_nat (List.length (AudioObj.activeSounds (this s)))
           <? AudioObj.maxSimultaneousSounds (this s))%Z
       then tl q else q) /\
    Forall (fun request => dateNow - AudioObj.timestamp request < 100)
           (AudioObj.soundQueue (this s')) /\
    incl (AudioObj.activeSounds (this s)) (AudioObj.activeSounds (this s')).
Proof.
  intros dateNow now s q s'.
  destruct (processQueuedSounds_queue dateNow now s) as (Hq & (added & Ha & _) & _).
  fold q in Hq. fold s' in Hq, Ha.
  split; [exact Hq|]. split.
  - assert (F : Forall (fun request => dateNow - AudioObj.timestamp request < 100) q).
    { apply Forall_forall. intros request H. apply filter_In in H.
      destruct H as [_ H]. apply ltb_true. exact H. }
    rewrite Hq. destruct (_ <? _)%Z; [|exact F].
    destruct q as [|request rest]; [exact F|]. cbn [tl]. inversion F; assumption.
  - rewrite Ha. apply incl_appl, incl_refl.
Qed.

(** [cleanupSound] removes the sounds with the given id and no other
    sound; a sound joins the list only when the queue holds a fresh
    request. *)
Theorem cleanupSound_removes_only_the_ended_sound :
  forall dateNow now soundId s,
    let s' := after (AudioManager.cleanupSound dateNow now soundId) s in
    exists added,
      AudioObj.activeSounds (this s') =
        filter (fun sound => negb (Qeq_bool (AudioObj.id sound) soundId))
               (AudioObj.activeSounds (this s)) ++ added /\
      (filter (fresh dateNow) (AudioObj.soundQueue (this s)) = [] -> added = []).
Proof.
  intros dateNow now soundId s s'. subst s'. unfold after, AudioManager.cleanupSound.
  unfold modifyThis. erewrite ebind_returns by reflexivity.
  match goal with
  | |- context [AudioManager.processQueuedSounds _ _ ?s0] =>
      destruct (processQueuedSounds_queue dateNow now s0) as (_ & (added & Ha & He) & _)
  end.
  unfold after in Ha. exists added. split; [exact Ha|exact He].
Qed.

(** *** Completion *)

Lemma nth_error_push {A} (l : list A) a : nth_error (push l a) (List.length l) = Some a.
Proof.
  unfold push. rewrite nth_error_app2 by apply Nat.le_refl.
  rewrite Nat.sub_diag. reflexivity.
Qed.

Lemma splice1_push {A} (l : list A) a : splice1 (List.length l) (push l a) = l.
Proof.
  unfold push. induction l as [|b l IH]; [reflexivity|].
  cbn [List.length app splice1]. rewrite IH. reflexivity.
Qed.

Lemma filter_all {A} (f : A -> bool) l :
  Forall (fun a => f a = true) l -> filter f l = l.
Proof.
  induction 1 as [|a l Ha _ IH]; [reflexivity|]. cbn. rewrite Ha, IH. reflexivity.
Qed.

(** The synthesized sound and its timeout: when the synthesis succeeds,
    the queue is empty and no tracked sound carries the new id, running
    the timeout that [createPopSound] registered brings the manager and
    the list of pending handlers back to what they were before the pop. *)
Theorem timeout_frees_the_slot :
  forall dateNow now bubbleSize later laterNow s,
    accepts s bubbleSize = true ->
    AudioObj.soundQueue (this s) = [] ->
    Forall (fun sound =>
              Qeq_bool (AudioObj.id sound) (dateNow + samples (rng s) (cursor (rng s))) = false)
           (AudioObj.activeSounds (this s)) ->
    let s1 := after (AudioManager.createPopSound dateNow now bubbleSize) s in
    let s2 := after (AudioManager.fire later laterNow (List.length (callbacks (device s)))) s1 in
    List.length (AudioObj.activeSounds (this s1)) =
      S (List.length (AudioObj.activeSounds (this s))) /\
    this s2 = this s /\
    callbacks (device s2) = callbacks (device s).
Proof.
  intros dateNow now bubbleSize later laterNow s Ha Hq Hid s1 s2. subst s2 s1.
  assert (E1 : after (AudioManager.createPopSound dateNow now bubbleSize) s =
               snd (AudioManager.createPopSound dateNow now bubbleSize s)) by reflexivity.
  rewrite createPopSound_accepted in E1 by exact Ha. cbn [snd] in E1.
  rewrite !E1. clear E1.
  split.
  { cbn [this AudioObj.activeSounds AudioObj.set_activeSounds]. apply push_length. }
  unfold after.
  match goal with
  | |- context [AudioManager.fire ?a ?b ?c ?s0] =>
      destruct (AudioManager.fire a b c s0) as [o s2] eqn:E
  end.
  cbn [snd]. revert E.
  unfold AudioManager.fire.
  erewrite ebind_returns
    by (cbn [device callbacks]; rewrite nth_error_push; reflexivity).
  unfold modifyDevice. erewrite ebind_returns by reflexivity.
  cbn [this device rng rejectsNonFinite nextNode playing callbacks].
  rewrite splice1_push.
  unfold AudioManager.cleanupSound, modifyThis.
  erewrite ebind_returns by reflexivity.
  cbn [this device rng AudioObj.activeSounds AudioObj.set_activeSounds].
  unfold push. rewrite filter_app. cbn [filter].
  unfold synthesized at 2. cbn [AudioObj.id].
  rewrite Qeq_bool_refl. cbn [negb]. rewrite app_nil_r.
  rewrite filter_all.
  2:{ eapply Forall_impl; [|exact Hid]. cbn beta. intros sound H.
      unfold synthesized. cbn [AudioObj.id]. rewrite H. reflexivity. }
  unfold AudioManager.processQueuedSounds, modifyThis, getThis.
  erewrite ebind_returns by reflexivity.
  erewrite ebind_returns by reflexivity.
  cbn [this device rng AudioObj.soundQueue AudioObj.set_soundQueue AudioObj.set_activeSounds].
  rewrite Hq. cbn [filter]. unfold eret. intro E. injection E as _ <-.
  cbn [this device callbacks].
  split; [|reflexivity].
  destruct (this s). cbn in *. subst. reflexivity.
Qed.

Lemma timeout_frees_the_slot_witness :
  this (after (AudioManager.fire 1200 0.2 (List.length (callbacks (device (audioOn false readyAudio)))))
          (after (AudioManager.createPopSound 1000 0 150) (audioOn false readyAudio))) =
  this (audioOn false readyAudio).
Proof.
  apply (timeout_frees_the_slot 1000 0 150 1200 0.2 (audioOn false readyAudio)).
  - reflexivity.
  - reflexivity.
  - constructor.
Defined.

(** *** Activation *)


(** ** The game: spawning and the sliders *)

(** *** The random source *)

Lemma keepsSamples_ret {A} (a : A) : keepsSamples (ret a).
Proof. intro r. reflexivity. Qed.

Lemma keepsSamples_random : keepsSamples Math_random.
Proof. intro r. reflexivity. Qed.

Lemma keepsSamples_bind {A B} (m : Rand A) (k : A -> Rand B) :
  keepsSamples m -> (forall a, keepsSamples (k a)) -> keepsSamples (bind m k).
Proof.
  intros Hm Hk r. unfold bind. specialize (Hm r).
  destruct (m r) as [a r1]. cbn [snd] in Hm. rewrite Hk. exact Hm.
Qed.

Lemma keepsSamples_pushMany {A} (gen : Rand A) n :
  keepsSamples gen -> keepsSamples (pushMany n gen).
Proof.
  intro H. induction n as [|n IH]; cbn [pushMany].
  - apply keepsSamples_ret.
  - apply keepsSamples_bind; [exact H|]. intro a.
    apply keepsSamples_bind; [exact IH|]. intro l. apply keepsSamples_ret.
Qed.

Ltac keeps :=
  repeat first
    [ apply keepsSamples_ret
    | apply keepsSamples_random
    | apply keepsSamples_pushMany
    | apply keepsSamples_bind; [|intro] ].

Section SpawnFacts.
Variable M : Math.lib.

Lemma keepsSamples_generateStarPositions radius :
  keepsSamples (Bubble.generateStarPositions M radius).
Proof. unfold Bubble.generateStarPositions, Bubble.newStar. keeps. Qed.

Lemma keepsSamples_stars theme size :
  keepsSamples (if Bubble.hasStars theme then Bubble.generateStarPositions M (size / 2)
                else ret []).
Proof.
  destruct (Bubble.hasStars theme);
    [apply keepsSamples_generateStarPositions|apply keepsSamples_ret].
Qed.

(** What the spawn code relies on from [createBubble]. *)
Lemma createBubble_shape m x y size lifetime theme r m1 b r1 :
  BubbleManager.createBubble M m x y size lifetime theme r = (m1, b, r1) ->
  BubbleManager.bubbles m1 = BubbleManager.bubbles m ++ [b] /\
  BubbleManager.activeCount m1 = (BubbleManager.activeCount m + 1)%Z /\
  BubbleObj.x b = x /\ BubbleObj.y b = y /\ BubbleObj.size b = size /\
  BubbleObj.age b = 0 /\ BubbleObj.isAlive b = true /\
  samples r1 = samples r.
Proof.
  unfold BubbleManager.createBubble.
  destruct (pop (BubbleManager.bubblePool m)) as [[pooled rest]|].
  - unfold bind at 1.
    destruct (BubbleManager.resetBubble M pooled x y size lifetime theme r) as [b0 r0] eqn:R.
    unfold ret. intro H. injection H as <- <- <-.
    unfold BubbleManager.resetBubble, bind, Math_random in R. cbn [fst snd] in R.
    pose proof (keepsSamples_stars theme size) as K.
    match type of R with
    | (let (_, _) := ?stars ?r0 in _) = _ =>
        specialize (K r0); destruct (stars r0) as [st r2]
    end.
    unfold ret in R. injection R as <- <-. cbn [snd samples] in K.
    cbn. repeat split. exact K.
  - unfold bind at 1.
    destruct (Bubble.constructor M (BubbleManager.allocated m) x y size lifetime theme r)
      as [b0 r0] eqn:R.
    unfold ret. intro H. injection H as <- <- <-.
    unfold Bubble.constructor, bind, Math_random in R. cbn [fst snd] in R.
    pose proof (keepsSamples_stars theme size) as K.
    match type of R with
    | (let (_, _) := ?stars ?r0 in _) = _ =>
        specialize (K r0); destruct (stars r0) as [st r2]
    end.
    unfold ret in R. injection R as <- <-. cbn [snd samples] in K.
    cbn. repeat split. exact K.
Qed.

Lemma store_last {A} (l : list A) a b :
  store (List.length (l ++ [a]) - 1) b (l ++ [a]) = l ++ [b].
Proof.
  rewrite length_app. cbn [List.length]. rewrite Nat.add_sub.
  induction l as [|c l IH]; [reflexivity|].
  cbn [List.length app store]. rewrite IH. reflexivity.
Qed.

Lemma chooseSide_spec r :
  (fst (BubbleGame.chooseSide r) = 0 \/ fst (BubbleGame.chooseSide r) = 1 \/
   fst (BubbleGame.chooseSide r) = 2)%nat /\
  samples (snd (BubbleGame.chooseSide r)) = samples r.
Proof.
  unfold BubbleGame.chooseSide, bind, Math_random, ret. cbn [fst snd samples].
  split; [|reflexivity].
  case_if; [left; reflexivity|]. case_if; [right; left|right; right]; reflexivity.
Qed.

Lemma spawnPoint_spec g side r :
  unitSamples r ->
  200 <= BubbleGame.width g -> 0 <= BubbleGame.height g ->
  (side = 0 \/ side = 1 \/ side = 2)%nat ->
  exists x y,
    fst (BubbleGame.spawnPoint g side r) = Some (x, y) /\
    samples (snd (BubbleGame.spawnPoint g side r)) = samples r /\
    (-50 < x /\ x < BubbleGame.width g + 50 /\ -50 < y /\ y < BubbleGame.height g + 50) /\
    ((side = 0%nat /\ y == BubbleGame.height g + 30) \/
     (side = 1%nat /\ x == -30) \/
     (side = 2%nat /\ x == BubbleGame.width g + 30)).
Proof.
  intros Hr Hw Hh Hs. destruct (Hr (cursor r)) as [R0 R1].
  set (q := samples r (cursor r)) in *.
  destruct Hs as [-> | [-> | ->]];
    unfold BubbleGame.spawnPoint, BubbleGame.getSafeSpawnZones, bind, Math_random, ret;
    cbn [fst snd samples SafeZones.leftEdge SafeZones.safeWidth]; fold q;
    eexists; eexists; (split; [reflexivity|]); (split; [reflexivity|]).
  - split.
    + assert (0 <= q * (BubbleGame.width g - (180 + 20))) by nra.
      assert (q * (BubbleGame.width g - (180 + 20)) <= BubbleGame.width g - (180 + 20)) by nra.
      repeat split; lra.
    + left. split; reflexivity.
  - split.
    + assert (0 <= q * BubbleGame.height g) by nra.
      assert (q * BubbleGame.height g <= BubbleGame.height g) by nra.
      repeat split; lra.
    + right. left. split; reflexivity.
  - split.
    + assert (0 <= q * BubbleGame.height g) by nra.
      assert (q * BubbleGame.height g <= BubbleGame.height g) by nra.
      repeat split; lra.
    + right. right. split; reflexivity.
Qed.

Lemma chooseSize_spec r :
  unitSamples r ->
  60 <= fst (BubbleGame.chooseSize r) /\ fst (BubbleGame.chooseSize r) < 300 /\
  samples (snd (BubbleGame.chooseSize r)) = samples r.
Proof.
  intros Hr. destruct (Hr (S (cursor r))) as [R0 R1].
  unfold BubbleGame.chooseSize, bind, Math_random, ret. cbn [fst snd samples cursor].
  set (q := samples r (S (cursor r))) in *.
  case_if; [|case_if]; cbn [fst snd samples cursor]; fold q;
    (split; [lra|split; [lra|reflexivity]]).
Qed.

Lemma launch_spec side b r :
  unitSamples r ->
  (side = 0 \/ side = 1 \/ side = 2)%nat ->
  exists vx vy d mx my,
    fst (BubbleGame.launch side b r) = BubbleGame.launched vx vy d mx my b /\
    ((side = 0%nat /\ d = bottom /\ vy < 0) \/
     (side = 1%nat /\ d = left /\ 0 < vx) \/
     (side = 2%nat /\ d = right /\ vx < 0)).
Proof.
  intros Hr Hs. destruct (Hr (cursor r)) as [R0 R1].
  set (q := samples r (cursor r)) in *.
  destruct Hs as [-> | [-> | ->]];
    unfold BubbleGame.launch, bind, Math_random, ret; cbn [fst snd samples cursor]; fold q;
    do 5 eexists; (split; [reflexivity|]).
  - left. repeat split. lra.
  - right. left. repeat split. lra.
  - right. right. repeat split. lra.
Qed.

End SpawnFacts.

Lemma unitSamples_eq r r' : samples r' = samples r -> unitSamples r -> unitSamples r'.
Proof. intros E H n. rewrite E. apply H. Qed.

(** [spawnBubble] with a bubble manager: the manager after the call, the
    bubble it holds last, and the place and launch of that bubble. *)
Lemma spawnBubble_spec (M : Math.lib) g m r :
  BubbleGame.bubbleManager g = Some m ->
  unitSamples r ->
  200 <= BubbleGame.width g -> 0 <= BubbleGame.height g ->
  exists m' b,
    BubbleGame.bubbleManager (fst (BubbleGame.spawnBubble M g r)) = Some m' /\
    BubbleManager.bubbles m' = BubbleManager.bubbles m ++ [b] /\
    BubbleManager.activeCount m' = (BubbleManager.activeCount m + 1)%Z /\
    BubbleObj.age b = 0 /\ BubbleObj.isAlive b = true /\
    (60 <= BubbleObj.size b /\ BubbleObj.size b < 300) /\
    (-50 < BubbleObj.x b /\ BubbleObj.x b < BubbleGame.width g + 50 /\
     -50 < BubbleObj.y b /\ BubbleObj.y b < BubbleGame.height g + 50) /\
    ((BubbleObj.spawnDirection b = bottom /\
      BubbleObj.y b == BubbleGame.height g + 30 /\ BubbleObj.vy b < 0) \/
     (BubbleObj.spawnDirection b = left /\
      BubbleObj.x b == -30 /\ 0 < BubbleObj.vx b) \/
     (BubbleObj.spawnDirection b = right /\
      BubbleObj.x b == BubbleGame.width g + 30 /\ BubbleObj.vx b < 0)).
Proof.
  intros Hm Hr Hw Hh.
  destruct (BubbleGame.spawnBubble M g r) as [g' r'] eqn:E. cbn [fst].
  unfold BubbleGame.spawnBubble in E.
  unfold bind at 1 in E.
  destruct (chooseSide_spec r) as [Hside S1].
  destruct (BubbleGame.chooseSide r) as [side r1]. cbn [fst snd] in Hside, S1.
  assert (U1 : unitSamples r1) by (eapply unitSamples_eq; eassumption).
  unfold bind at 1 in E.
  destruct (spawnPoint_spec g side r1 U1 Hw Hh Hside) as (x & y & P1 & S2 & Hxy & Hedge).
  destruct (BubbleGame.spawnPoint g side r1) as [point r2]. cbn [fst snd] in P1, S2.
  subst point.
  assert (U2 : unitSamples r2) by (eapply unitSamples_eq; eassumption).
  unfold bind at 1 in E.
  destruct (chooseSize_spec r2 U2) as (Z1 & Z2 & S3).
  destruct (BubbleGame.chooseSize r2) as [size r3]. cbn [fst snd] in Z1, Z2, S3.
  assert (U3 : unitSamples r3) by (eapply unitSamples_eq; eassumption).
  unfold bind at 1 in E. unfold Math_random at 1 in E.
  cbn [BubbleGame.bubbleManager BubbleGame.set_spawnStats BubbleGame.currentTheme] in E.
  rewrite Hm in E.
  unfold bind at 1 in E.
  match type of E with
  | (let (_, _) := ?c in _) = _ => destruct c as [[m1 b] r4] eqn:C
  end.
  apply createBubble_shape in C.
  destruct C as (C1 & C2 & C3 & C4 & C5 & C6 & C7 & S4).
  cbn [samples] in S4.
  assert (U4 : unitSamples r4) by (eapply unitSamples_eq; eassumption).
  unfold bind at 1 in E.
  destruct (launch_spec side b r4 U4 Hside) as (vx & vy & d & mx & my & L & Hl).
  destruct (BubbleGame.launch side b r4) as [b' r5]. cbn [fst] in L. subst b'.
  unfold ret in E. injection E as <- _.
  cbn [BubbleGame.bubbleManager BubbleGame.set_bubbleManager].
  eexists; eexists. split; [reflexivity|].
  cbn [BubbleManager.bubbles BubbleManager.activeCount].
  rewrite C1, store_last.
  split; [reflexivity|]. split; [exact C2|].
  cbn [BubbleGame.launched BubbleObj.age BubbleObj.isAlive BubbleObj.size BubbleObj.x
       BubbleObj.y BubbleObj.vx BubbleObj.vy BubbleObj.spawnDirection].
  rewrite C3, C4, C5.
  split; [exact C6|]. split; [exact C7|]. split; [split; assumption|].
  split; [exact Hxy|].
  destruct Hl as [(-> & -> & Hv) | [(-> & -> & Hv) | (-> & -> & Hv)]];
    destruct Hedge as [(Hs & He) | [(Hs & He) | (Hs & He)]]; try discriminate.
  - left. repeat split; assumption.
  - right. left. repeat split; assumption.
  - right. right. repeat split; assumption.
Qed.

(** A bubble never starts in its grace period.  [spawnBubble] puts the new
    bubble 30 px beyond the bottom, the left or the right edge, moving
    towards the canvas, and [isInSpawnGracePeriod] counts a bubble within
    50 px of the canvas as on screen: on a canvas at least as wide as the
    ad zone, the bubble just spawned is outside the canvas and outside its
    grace period, so its first frame gets the forces at full strength. *)
Theorem spawned_bubble_is_not_in_its_grace_period :
  forall (M : Math.lib) g m r e,
    BubbleGame.bubbleManager g = Some m ->
    unitSamples r ->
    200 <= BubbleGame.width g -> 0 <= BubbleGame.height g ->
    EngineObj.width e == BubbleGame.width g ->
    EngineObj.height e == BubbleGame.height g ->
    exists m' b,
      BubbleGame.bubbleManager (fst (BubbleGame.spawnBubble M g r)) = Some m' /\
      BubbleManager.bubbles m' = BubbleManager.bubbles m ++ [b] /\
      BubbleObj.age b = 0 /\ BubbleObj.isAlive b = true /\
      (60 <= BubbleObj.size b /\ BubbleObj.size b < 300) /\
      ((BubbleObj.spawnDirection b = bottom /\
        BubbleObj.y b == BubbleGame.height g + 30 /\ BubbleObj.vy b < 0) \/
       (BubbleObj.spawnDirection b = left /\
        BubbleObj.x b == -30 /\ 0 < BubbleObj.vx b) \/
       (BubbleObj.spawnDirection b = right /\
        BubbleObj.x b == BubbleGame.width g + 30 /\ BubbleObj.vx b < 0)) /\
      PhysicsEngine.isInSpawnGracePeriod e b = false /\
      PhysicsEngine.graceFactorOf e b = 1.0.
Proof.
  intros M g m r e Hm Hr Hw Hh Ew Eh.
  destruct (spawnBubble_spec M g m r Hm Hr Hw Hh)
    as (m' & b & H1 & H2 & _ & H4 & H5 & H6 & H7 & H8).
  exists m', b.
  assert (G : PhysicsEngine.isInSpawnGracePeriod e b = false).
  { destruct (PhysicsEngine.isInSpawnGracePeriod e b) eqn:G; [|reflexivity].
    apply isInSpawnGracePeriod_spec in G. destruct G as [_ G].
    exfalso. apply G. rewrite Ew, Eh. exact H7. }
  repeat (split; [assumption|]).
  unfold PhysicsEngine.graceFactorOf. rewrite G. reflexivity.
Qed.

Lemma spawned_bubble_is_not_in_its_grace_period_witness :
  exists m' b,
    BubbleGame.bubbleManager
      (fst (BubbleGame.spawnBubble plainMath (gameWith oneBubble) halves)) = Some m' /\
    BubbleManager.bubbles m' = BubbleManager.bubbles oneBubble ++ [b] /\
    BubbleObj.age b = 0 /\ BubbleObj.isAlive b = true /\
    (60 <= BubbleObj.size b /\ BubbleObj.size b < 300) /\
    ((BubbleObj.spawnDirection b = bottom /\
      BubbleObj.y b == BubbleGame.height (gameWith oneBubble) + 30 /\ BubbleObj.vy b < 0) \/
     (BubbleObj.spawnDirection b = left /\
      BubbleObj.x b == -30 /\ 0 < BubbleObj.vx b) \/
     (BubbleObj.spawnDirection b = right /\
      BubbleObj.x b == BubbleGame.width (gameWith oneBubble) + 30 /\ BubbleObj.vx b < 0)) /\
    PhysicsEngine.isInSpawnGracePeriod calmEngine b = false /\
    PhysicsEngine.graceFactorOf calmEngine b = 1.0.
Proof.
  apply (spawned_bubble_is_not_in_its_grace_period plainMath (gameWith oneBubble) oneBubble
           halves calmEngine).
  - reflexivity.
  - intro n. cbn. split; lra.
  - cbn. lra.
  - cbn. lra.
  - reflexivity.
  - reflexivity.
Defined.

(** *** The cap on bubbles *)

Lemma spawnBubble_count (M : Math.lib) g r :
  let g' := fst (BubbleGame.spawnBubble M g r) in
  BubbleGame.config g' = BubbleGame.config g /\
  BubbleGame.gameStarted g' = BubbleGame.gameStarted g /\
  BubbleGame.lastSpawnTime g' = BubbleGame.lastSpawnTime g /\
  activeBubbles g' =
    match BubbleGame.bubbleManager g with
    | Some _ => (activeBubbles g + 1)%Z
    | None => activeBubbles g
    end.
Proof.
  intro g'. subst g'.
  destruct (BubbleGame.spawnBubble M g r) as [g' r'] eqn:E. cbn [fst].
  unfold BubbleGame.spawnBubble in E.
  unfold bind at 1 in E.
  destruct (chooseSide_spec r) as [Hside _].
  destruct (BubbleGame.chooseSide r) as [side r1]. cbn [fst] in Hside.
  unfold bind at 1 in E.
  assert (P : exists x y r2, BubbleGame.spawnPoint g side r1 = (Some (x, y), r2)).
  { destruct Hside as [-> | [-> | ->]];
      unfold BubbleGame.spawnPoint, bind, Math_random, ret; do 3 eexists; reflexivity. }
  destruct P as (x & y & r2 & P). rewrite P in E.
  unfold bind at 1 in E.
  destruct (BubbleGame.chooseSize r2) as [size r3].
  unfold bind at 1 in E. unfold Math_random at 1 in E.
  cbn [BubbleGame.bubbleManager BubbleGame.set_spawnStats BubbleGame.currentTheme] in E.
  unfold activeBubbles.
  destruct (BubbleGame.bubbleManager g) as [m|] eqn:Hm.
  - unfold bind at 1 in E.
    match type of E with
    | (let (_, _) := ?c in _) = _ => destruct c as [[m1 b] r4] eqn:C
    end.
    apply createBubble_shape in C. destruct C as (_ & C2 & _).
    unfold bind at 1 in E.
    destruct (BubbleGame.launch side b r4) as [b' r5].
    unfold ret in E. injection E as <- _.
    cbn. unfold BubbleManager.getActiveCount. repeat split. exact C2.
  - unfold ret in E. injection E as <- _. cbn. rewrite Hm. repeat split.
Qed.

(** The cap on the number of bubbles is the game's, not the manager's:
    [updateBubbleSpawning] and [spawnReplacementBubble] leave the
    configuration alone and add at most one bubble, and only while the
    active count is below [config.maxBubbles]; so neither raises the count
    above the larger of the cap and the count it found.  Before the game
    has started [updateBubbleSpawning] does nothing. *)
Theorem spawning_respects_the_cap :
  forall (M : Math.lib) g deltaTime r,
    let g' := fst (BubbleGame.updateBubbleSpawning M g deltaTime r) in
    let cap := GameConfig.maxBubbles (BubbleGame.config g) in
    (BubbleGame.config g' = BubbleGame.config g /\
     (activeBubbles g' = activeBubbles g \/
      (activeBubbles g' = (activeBubbles g + 1)%Z /\ (activeBubbles g < cap)%Z /\
       BubbleGame.lastSpawnTime g' = 0)) /\
     (activeBubbles g' <= Z.max (activeBubbles g) cap)%Z /\
     (if BubbleGame.gameStarted g then True else g' = g)) /\
    match fst (BubbleGame.spawnReplacementBubble M g r) with
    | Some g'' =>
        BubbleGame.config g'' = BubbleGame.config g /\
        (activeBubbles g'' = activeBubbles g \/
         (activeBubbles g'' = activeBubbles g + 1 /\ activeBubbles g < cap))%Z /\
        (activeBubbles g'' <= Z.max (activeBubbles g) cap)%Z
    | None => BubbleGame.bubbleManager g = None
    end.
Proof.
  intros M g deltaTime r g' cap. subst g' cap. split.
  - destruct (BubbleGame.updateBubbleSpawning M g deltaTime r) as [g' r'] eqn:E. cbn [fst].
    unfold BubbleGame.updateBubbleSpawning in E.
    destruct (BubbleGame.gameStarted g) eqn:Hs; cbn [negb] in E.
    2:{ unfold ret in E. injection E as <- _.
        split; [reflexivity|]. split; [left; reflexivity|]. split; [lia|reflexivity]. }
    cbv zeta in E.
    set (g1 := BubbleGame.set_lastSpawnTime (BubbleGame.lastSpawnTime g + deltaTime) g) in *.
    assert (A1 : activeBubbles g1 = activeBubbles g) by reflexivity.
    assert (K1 : BubbleGame.config g1 = BubbleGame.config g) by reflexivity.
    assert (M1 : BubbleGame.bubbleManager g1 = BubbleGame.bubbleManager g) by reflexivity.
    fold (activeBubbles g1) in E.
    destruct (_ && _) eqn:Guard in E.
    + apply andb_true_iff in Guard. destruct Guard as [_ Guard]. apply Z.ltb_lt in Guard.
      unfold bind at 1 in E.
      pose proof (spawnBubble_count M g1 r) as C. cbv zeta in C.
      destruct (BubbleGame.spawnBubble M g1 r) as [g2 r2]. cbn [fst] in C.
      destruct C as (C1 & _ & _ & C4).
      unfold bind, BubbleGame.getRandomSpawnDelay, Math_random, ret in E.
      injection E as <- _.
      cbn [BubbleGame.config BubbleGame.set_nextSpawnDelay BubbleGame.set_lastSpawnTime
           BubbleGame.lastSpawnTime].
      assert (A2 : activeBubbles
                     (BubbleGame.set_nextSpawnDelay
                        (GameConfig.spawnRate (BubbleGame.config g2) +
                         (samples r2 (cursor r2) - 0.5) *
                         GameConfig.spawnRateVariation (BubbleGame.config g2))
                        (BubbleGame.set_lastSpawnTime 0 g2)) = activeBubbles g2)
        by reflexivity.
      rewrite A2, C4, C1, K1, M1, A1 in *.
      split; [reflexivity|].
      destruct (BubbleGame.bubbleManager g).
      * split; [right; repeat split; [exact Guard]|]. split; [lia|exact I].
      * split; [left; reflexivity|]. split; [lia|exact I].
    + unfold ret in E. injection E as <- _. rewrite A1, K1.
      split; [reflexivity|]. split; [left; reflexivity|]. split; [lia|exact I].
  - unfold BubbleGame.spawnReplacementBubble.
    destruct (BubbleGame.bubbleManager g) as [m|] eqn:Hm; [|reflexivity].
    assert (A : BubbleManager.getActiveCount m = activeBubbles g)
      by (unfold activeBubbles; rewrite Hm; reflexivity).
    rewrite A.
    destruct (_ <? _)%Z eqn:Guard.
    + apply Z.ltb_lt in Guard. unfold bind, ret.
      pose proof (spawnBubble_count M g r) as C. cbv zeta in C.
      destruct (BubbleGame.spawnBubble M g r) as [g2 r2]. cbn [fst] in *.
      destruct C as (C1 & _ & _ & C4). rewrite Hm in C4. rewrite C1, C4.
      split; [reflexivity|]. split; [right; split; [reflexivity|exact Guard]|lia].
    + cbn [fst ret]. split; [reflexivity|]. split; [left; reflexivity|lia].
Qed.

(** *** The sliders *)

Lemma inject_Z_le a b : (a <= b)%Z -> inject_Z a <= inject_Z b.
Proof. intro H. rewrite <- Zle_Qle. exact H. Qed.

Lemma inject_Z_lt a b : (a < b)%Z -> inject_Z a < inject_Z b.
Proof. intro H. rewrite <- Zlt_Qlt. exact H. Qed.

Lemma densityMultiplierOf_mono l l' :
  (0 <= l)%Z -> (l <= l')%Z ->
  0.2 <= BubbleGame.densityMultiplierOf l /\
  BubbleGame.densityMultiplierOf l <= BubbleGame.densityMultiplierOf l'.
Proof.
  intros H0 H.
  assert (E5 : forall k, inject_Z (k - 5) == inject_Z k - 5).
  { intro k. unfold Zminus. rewrite inject_Z_plus. reflexivity. }
  pose proof (E5 l) as El. pose proof (E5 l') as El'. clear E5.
  unfold BubbleGame.densityMultiplierOf. cbv zeta.
  set (d := inject_Z (l - 5)) in *. set (d' := inject_Z (l' - 5)) in *.
  set (q := inject_Z l) in *. set (q' := inject_Z l') in *.
  assert (Q0 : 0 <= q) by (apply (inject_Z_le 0); exact H0).
  assert (Q1 : q <= q') by (apply inject_Z_le; exact H).
  destruct (Z.eqb_spec l 0) as [A|A]; destruct (Z.eqb_spec l' 0) as [A'|A'].
  - split; lra.
  - assert (1 <= q') by (apply (inject_Z_le 1); lia).
    destruct (Z.leb_spec l' 5);
      [|assert (6 <= q') by (apply (inject_Z_le 6); lia)];
      clearbody d d' q q'; split; lra.
  - lia.
  - assert (1 <= q) by (apply (inject_Z_le 1); lia).
    destruct (Z.leb_spec l 5) as [B|B]; destruct (Z.leb_spec l' 5) as [B'|B'].
    + clearbody d d' q q'. split; lra.
    + assert (6 <= q') by (apply (inject_Z_le 6); lia).
      assert (q <= 5) by (apply (inject_Z_le _ 5); lia).
      clearbody d d' q q'. split; lra.
    + lia.
    + assert (6 <= q) by (apply (inject_Z_le 6); lia).
      clearbody d d' q q'. split; lra.
Qed.

Lemma Math_round_mono a b : a <= b -> (Math_round a <= Math_round b)%Z.
Proof. intro H. unfold Math_round. apply Qfloor_resp_le. lra. Qed.

(** The density slider: for every level from 0 on, the cap on bubbles is
    at least 5, the number of initial bubbles is within the cap, both grow
    with the level, and level 5 gives the cap and the initial count of the
    constructor. *)
Theorem density_slider_scales_the_cap :
  forall g level,
    (0 <= level)%Z ->
    let c := BubbleGame.config (BubbleGame.handleDensityChange g level) in
    (5 <= GameConfig.maxBubbles c)%Z /\
    (GameConfig.initialBubbleCount c <= GameConfig.maxBubbles c)%Z /\
    (forall level', (level <= level')%Z ->
       let c' := BubbleGame.config (BubbleGame.handleDensityChange g level') in
       (GameConfig.maxBubbles c <= GameConfig.maxBubbles c')%Z /\
       (GameConfig.initialBubbleCount c <= GameConfig.initialBubbleCount c')%Z) /\
    (level = 5%Z ->
       GameConfig.maxBubbles c = GameConfig.maxBubbles BubbleGame.defaultConfig /\
       GameConfig.initialBubbleCount c =
         GameConfig.initialBubbleCount BubbleGame.defaultConfig).
Proof.
  intros g level H0 c. subst c.
  unfold BubbleGame.handleDensityChange. cbv zeta.
  cbn [BubbleGame.config BubbleGame.set_config BubbleGame.set_bubbleDensityMultiplier
       BubbleGame.bubbleDensityMultiplier GameConfig.maxBubbles GameConfig.initialBubbleCount].
  destruct (densityMultiplierOf_mono level level H0 (Z.le_refl _)) as [L _].
  split; [|split; [|split]].
  - change 5%Z with (Math_round 5). apply Math_round_mono. lra.
  - apply Math_round_mono. lra.
  - intros level' H.
    destruct (densityMultiplierOf_mono level level' H0 H) as [_ L'].
    split; apply Math_round_mono; lra.
  - intros ->. split; reflexivity.
Qed.

Lemma density_slider_scales_the_cap_witness :
  (5 <= GameConfig.maxBubbles
          (BubbleGame.config (BubbleGame.handleDensityChange (gameWith oneBubble) 7)))%Z.
Proof.
  apply (density_slider_scales_the_cap (gameWith oneBubble) 7). lia.
Defined.

(** The speed slider: the levels 0 to 10 give multipliers from 0.1 to 2
    that grow with the level, and no level gives the multiplier 1 that the
    constructor sets as the default "5 on the slider": level 5 gives
    1.05. *)
Theorem speed_slider_never_gives_the_default :
  forall g level,
    (0 <= level <= 10)%Z ->
    let v := BubbleGame.bubbleSpeedMultiplier (BubbleGame.handleSpeedChange g level) in
    0.1 <= v /\ v <= 2 /\
    ~ v == 1 /\
    (level = 5%Z -> v == 1.05) /\
    (forall level', (level < level')%Z ->
       v < BubbleGame.bubbleSpeedMultiplier (BubbleGame.handleSpeedChange g level')).
Proof.
  intros g level [H0 H10] v. subst v. unfold BubbleGame.handleSpeedChange.
  assert (Q0 : 0 <= inject_Z level) by (apply (inject_Z_le 0); exact H0).
  assert (Q10 : inject_Z level <= 10) by (apply (inject_Z_le _ 10); exact H10).
  destruct (Z.eqb_spec level 0) as [A|A];
    cbn [BubbleGame.bubbleSpeedMultiplier BubbleGame.set_bubbleSpeedMultiplier].
  - subst level.
    split; [lra|]. split; [lra|]. split; [lra|]. split; [discriminate|].
    intros level' H.
    assert (H1 : 1 <= inject_Z level') by (apply (inject_Z_le 1); lia).
    destruct (Z.eqb_spec level' 0); [lia|].
    cbn [BubbleGame.bubbleSpeedMultiplier BubbleGame.set_bubbleSpeedMultiplier].
    revert H1. generalize (inject_Z level'). intros q' H1. lra.
  - assert (Q1 : 1 <= inject_Z level) by (apply (inject_Z_le 1); lia).
    split; [|split; [|split; [|split]]].
    + revert Q0 Q1 Q10. generalize (inject_Z level). intros q Q0 Q1 Q10. lra.
    + revert Q0 Q1 Q10. generalize (inject_Z level). intros q Q0 Q1 Q10. lra.
    + intro E. unfold Qeq, Qplus, Qmult, inject_Z in E. cbn [Qnum Qden] in E.
      rewrite ?Pos2Z.inj_mul in E. lia.
    + intros ->. reflexivity.
    + intros level' H.
      assert (L : inject_Z level < inject_Z level') by (apply inject_Z_lt; exact H).
      destruct (Z.eqb_spec level' 0); [lia|].
      cbn [BubbleGame.bubbleSpeedMultiplier BubbleGame.set_bubbleSpeedMultiplier].
      clear Q0 Q1 Q10.
      revert L. generalize (inject_Z level) (inject_Z level'). intros q q' L. lra.
Qed.

Lemma speed_slider_never_gives_the_default_witness :
  BubbleGame.bubbleSpeedMultiplier (BubbleGame.handleSpeedChange (gameWith oneBubble) 5)
  == 1.05.
Proof.
  apply (speed_slider_never_gives_the_default (gameWith oneBubble) 5); lia.
Defined.
